(** * audio.py: Whisper transcription front end

    A shallow embedding of [audio.py] and the properties of its timestamp
    codec, subtitle renderer, model cache, decoder lookup and request flow.

    Modelling conventions.
    - A Python [float] is an IEEE 754 binary64 number: [spec_float] with the
      operations of [SpecFloat] at precision 53 and maximal exponent 1024.
    - A Python [int] is a [Z]; [//] and [%] are [Z.div] and [Z.modulo]
      (both round towards minus infinity, as Python does).
    - A Python [str] is a [string]; a character stands for the code point of
      the same number, so the model covers code points below 256.
    - A call that can raise returns a [result]: [Ok v] or [Raise e].
    - [os.environ], the file store and the Streamlit resource cache are
      finite maps ([gmap]). *)

From Stdlib Require Import ZArith QArith Qround Qabs Lia String Ascii List Bool.
From Stdlib Require Import DecimalString.
From Stdlib Require Import Floats.SpecFloat.
From stdpp Require Import gmap strings.

Local Open Scope string_scope.
Local Open Scope Z_scope.

(** ** Exceptions and fallible computations *)

Inductive exn : Type :=
| ValueError (msg : string)
| OverflowError (msg : string)
| KeyError (key : string)
| RuntimeError (msg : string)
| OSError (msg : string)
| OtherError (msg : string).

Inductive result (A : Type) : Type :=
| Ok (a : A)
| Raise (e : exn).
Arguments Ok {A} a.
Arguments Raise {A} e.

#[global] Instance result_ret : MRet result := fun A a => Ok a.

#[global] Instance result_bind : MBind result := fun A B k r =>
  match r with
  | Ok a => k a
  | Raise e => Raise e
  end.

Definition raises {A : Type} (r : result A) : Prop :=
  match r with
  | Ok _ => False
  | Raise _ => True
  end.

(** ** Python floats *)

Module Float.

Definition prec : Z := 53.
Definition emax : Z := 1024.

Abbreviation float := spec_float.

Definition sub : float -> float -> float := SFsub prec emax.
Definition mul : float -> float -> float := SFmul prec emax.
Definition div : float -> float -> float := SFdiv prec emax.

(** The floats a Python program can hold: canonical binary64 numbers. *)
Definition valid (x : float) : Prop := valid_binary prec emax x = true.

Definition finite (x : float) : Prop :=
  match x with
  | S754_zero _ | S754_finite _ _ _ => True
  | S754_infinity _ | S754_nan => False
  end.

(** [x >= 0], for a finite [x] (it holds of both zeros). *)
Definition nonneg (x : float) : Prop :=
  match x with
  | S754_zero _ => True
  | S754_finite s _ _ => s = false
  | S754_infinity _ | S754_nan => False
  end.

(** [float(i)] for an int [i]: the nearest float, ties to even;
    an int beyond the float range raises [OverflowError]. *)
Definition of_int (i : Z) : result float :=
  match binary_normalize prec emax i 0 false with
  | S754_infinity _ => Raise (OverflowError "int too large to convert to float")
  | f => Ok f
  end.

(** [int(x)]: truncation towards zero. *)
Definition to_int (x : float) : result Z :=
  match x with
  | S754_zero _ => Ok 0
  | S754_finite s m e => Ok (cond_Zopp s (Z.shiftl (Zpos m) e))
  | S754_infinity _ => Raise (OverflowError "cannot convert float infinity to integer")
  | S754_nan => Raise (ValueError "cannot convert float NaN to integer")
  end.

(** [m / 2^k] rounded to the nearest integer, ties to even ([m >= 0]). *)
Definition round_half_even (m : Z) (k : Z) : Z :=
  let q := Z.shiftr m k in
  let r := m - Z.shiftl q k in
  match 2 * r ?= Z.shiftl 1 k with
  | Lt => q
  | Gt => q + 1
  | Eq => if Z.even q then q else q + 1
  end.

(** [round(x)] with one argument: the nearest int, ties to even. *)
Definition round (x : float) : result Z :=
  match x with
  | S754_zero _ => Ok 0
  | S754_finite s m e =>
      Ok (cond_Zopp s
            (if 0 <=? e then Z.shiftl (Zpos m) e
             else round_half_even (Zpos m) (- e)))
  | S754_infinity _ => Raise (OverflowError "cannot convert float infinity to integer")
  | S754_nan => Raise (ValueError "cannot convert float NaN to integer")
  end.

(** The float denoted by the decimal literal [n / 10^k] (as [59.9995] is
    [599995 / 10^4]), for [n] below [2^53] and [k] up to 22: numerator and
    denominator are then exact floats and the division rounds once, to the
    nearest float. *)
Definition literal (n : Z) (k : nat) : float :=
  div (binary_normalize prec emax n 0 false)
      (binary_normalize prec emax (10 ^ Z.of_nat k) 0 false).

End Float.

(** ** Python string formatting *)

(** [str(i)] for an int [i]. *)
Definition str_of_int (i : Z) : string :=
  NilZero.string_of_int (Z.to_int i).

Fixpoint zeros (n : nat) : string :=
  match n with
  | O => ""
  | S n' => String "0" (zeros n')
  end.

(** The format specification [0wd] (as in [f"{h:02d}"]): decimal digits,
    padded with zeros after the sign up to a total width of at least [w]. *)
Definition format_0d (w : nat) (i : Z) : string :=
  let sign := if i <? 0 then "-" else "" in
  let digits := str_of_int (Z.abs i) in
  sign ++ zeros (w - String.length sign - String.length digits) ++ digits.

(** ** Helpers of audio.py *)

(** [format_timestamp(seconds)] *)
Definition format_timestamp (seconds : Float.float) : result string :=
  i ← Float.to_int seconds;
  fi ← Float.of_int i;
  thousand ← Float.of_int 1000;
  ms ← Float.round (Float.mul (Float.sub seconds fi) thousand);
  total ← Float.to_int seconds;
  let s := total mod 60 in
  let m := (total / 60) mod 60 in
  let h := total / 3600 in
  Ok (format_0d 2 h ++ ":" ++ format_0d 2 m ++ ":" ++ format_0d 2 s
        ++ "," ++ format_0d 3 ms).

(** [str.strip()]: the characters Python counts as white space, among the
    code points below 256. *)
Definition is_space (c : ascii) : bool :=
  let n := nat_of_ascii c in
  ((9 <=? n) && (n <=? 13) || (28 <=? n) && (n <=? 32)
   || (n =? 133) || (n =? 160))%nat.

Fixpoint lstrip (s : string) : string :=
  match s with
  | String c s' => if is_space c then lstrip s' else s
  | EmptyString => EmptyString
  end.

Fixpoint rstrip (s : string) : string :=
  match s with
  | String c s' =>
      match rstrip s' with
      | EmptyString => if is_space c then EmptyString else String c EmptyString
      | t => String c t
      end
  | EmptyString => EmptyString
  end.

Definition strip (s : string) : string := rstrip (lstrip s).

(** [sep.join(lines)] *)
Fixpoint join (sep : string) (lines : list string) : string :=
  match lines with
  | [] => ""
  | [x] => x
  | x :: rest => x ++ sep ++ join sep rest
  end.

Definition newline : string := String (ascii_of_nat 10) EmptyString.

(** A Whisper segment: a dict with the keys ["start"] and ["end"], and a
    key ["text"] that the code reads with a default. *)
Record segment : Type := Segment {
  seg_start : Float.float;
  seg_end : Float.float;
  seg_text : option string
}.

(** The loop of [segments_to_srt]: [idx] is the counter of [enumerate],
    [lines] the list built so far. *)
Fixpoint srt_lines (idx : Z) (segments : list segment) (lines : list string)
  : result (list string) :=
  match segments with
  | [] => Ok lines
  | seg :: rest =>
      start ← format_timestamp (seg_start seg);
      end_ ← format_timestamp (seg_end seg);
      let text := strip (default "" (seg_text seg)) in
      srt_lines (idx + 1) rest
        (lines ++ [str_of_int idx; start ++ " --> " ++ end_; text; ""])
  end.

(** [segments_to_srt(segments)] *)
Definition segments_to_srt (segments : list segment) : result string :=
  lines ← srt_lines 1 segments [];
  Ok (join newline lines).

(** [str(datetime.timedelta(seconds=n))] for an int [n]: a timedelta holds
    at most 999999999 days in either direction, and the days go through a
    C int on the way. *)
Definition timedelta_str (n : Z) : result string :=
  let days := n / 86400 in
  let seconds := n mod 86400 in
  if (days <? -2147483648) || (2147483647 <? days) then
    Raise (OverflowError "Python int too large to convert to C int")
  else if (days <? -999999999) || (999999999 <? days) then
    Raise (OverflowError ("days=" ++ str_of_int days
                            ++ "; must have magnitude <= 999999999"))
  else
    let hh := seconds / 3600 in
    let mm := (seconds / 60) mod 60 in
    let ss := seconds mod 60 in
    let clock := str_of_int hh ++ ":" ++ format_0d 2 mm ++ ":" ++ format_0d 2 ss in
    if days =? 0 then Ok clock
    else
      let plural := if Z.abs days =? 1 then "" else "s" in
      Ok (str_of_int days ++ " day" ++ plural ++ ", " ++ clock).

(** ** The running application *)

(** What the page shows: one constructor per Streamlit call of the main
    flow. Texts are the literals of the source, without the symbols that lie
    outside the modelled alphabet, and without the file size and the elapsed
    time, which the model does not compute. *)
Inductive element : Type :=
| st_warning (body : string)
| st_success (body : string)
| st_error (body : string)
| st_info (body : string)
| st_write (body : string)
| st_subheader (body : string)
| st_text_area (label value : string)
| st_markdown (body : string)
| st_download_button (label data file_name mime : string).

Definition bytes : Type := list Byte.byte.

(** A model handle is the identity of a model object: its position in the
    list of objects the process has created. *)
Definition handle : Type := nat.

Record transcribe_options : Type := TranscribeOptions {
  language : option string;
  temperature : Float.float
}.

(** The dict returned by [model.transcribe]; both keys are read with
    [.get] and a default. *)
Record transcript : Type := Transcript {
  result_text : option string;
  result_segments : option (list segment)
}.

Record state : Type := State {
  environ : gmap string string;     (* os.environ *)
  files : gmap string bytes;        (* the file store, by path *)
  cache : gmap string handle;       (* entries of st.cache_resource *)
  models : list string;             (* model objects, by variant *)
  load_log : list string;           (* calls of whisper.load_model *)
  rng : nat;                        (* state of the sampling generator *)
  page : list element               (* elements shown, oldest first *)
}.

(** Everything outside the script: the libraries and the machine. *)
Record world : Type := World {
  (* shutil.which(cmd) under an environment *)
  which : gmap string string -> string -> option string;
  pathsep : string;
  (* tempfile.NamedTemporaryFile(delete=False, suffix=...): a new path *)
  named_temporary_file : string -> gmap string bytes -> result string;
  (* why writing the buffer to a path fails, if it does *)
  write_error : string -> bytes -> option exn;
  (* why whisper.load_model fails, if it does, given the earlier calls *)
  load_model_error : list string -> string -> option exn;
  (* the recognition engine: variant, audio bytes, options, generator *)
  engine : string -> bytes -> transcribe_options -> nat -> result transcript;
  (* why os.remove fails on an existing file, if it does *)
  remove_error : string -> option exn;
  (* Path(name).suffix and Path(name).stem *)
  path_suffix : string -> string;
  path_stem : string -> string
}.

(** The widgets' values for one run of the script. *)
Record upload : Type := Upload { name : string; buffer : bytes }.

Record inputs : Type := Inputs {
  model_size : string;
  show_segments : bool;
  enable_txt_download : bool;
  enable_srt_download : bool;
  uploaded : option upload;
  transcribe_btn : bool
}.

(** How a run of the script ends: at its last line, with an exception that
    nothing caught, or at [st.stop()]. *)
Inductive outcome (A : Type) : Type :=
| Done (a : A)
| Raised (e : exn)
| Stopped.
Arguments Done {A} a.
Arguments Raised {A} e.
Arguments Stopped {A}.

Definition M (A : Type) : Type := state -> outcome A * state.

#[global] Instance M_ret : MRet M := fun A a σ => (Done a, σ).

#[global] Instance M_bind : MBind M := fun A B k c σ =>
  match c σ with
  | (Done a, σ') => k a σ'
  | (Raised e, σ') => (Raised e, σ')
  | (Stopped, σ') => (Stopped, σ')
  end.

Definition raise {A : Type} (e : exn) : M A := fun σ => (Raised e, σ).

(** [st.stop()] raises a control exception that [except Exception] does
    not catch. *)
Definition st_stop {A : Type} : M A := fun σ => (Stopped, σ).

Definition lift {A : Type} (r : result A) : M A := fun σ =>
  match r with
  | Ok a => (Done a, σ)
  | Raise e => (Raised e, σ)
  end.

(** [try: body  except Exception as e: handler e] *)
Definition try_except {A : Type} (body : M A) (handler : exn -> M A) : M A :=
  fun σ =>
    match body σ with
    | (Raised e, σ') => handler e σ'
    | r => r
    end.

Definition get : M state := fun σ => (Done σ, σ).

Definition modify (f : state -> state) : M unit := fun σ => (Done tt, f σ).

Definition with_environ (env : gmap string string) (σ : state) : state :=
  State env (files σ) (cache σ) (models σ) (load_log σ) (rng σ) (page σ).

Definition with_files (fs : gmap string bytes) (σ : state) : state :=
  State (environ σ) fs (cache σ) (models σ) (load_log σ) (rng σ) (page σ).

Definition with_cache (c : gmap string handle) (σ : state) : state :=
  State (environ σ) (files σ) c (models σ) (load_log σ) (rng σ) (page σ).

Definition with_rng (n : nat) (σ : state) : state :=
  State (environ σ) (files σ) (cache σ) (models σ) (load_log σ) n (page σ).

Definition add_element (e : element) (σ : state) : state :=
  State (environ σ) (files σ) (cache σ) (models σ) (load_log σ) (rng σ)
    (page σ ++ [e]).

(** A call of [whisper.load_model] is logged; a successful one creates a
    model object. *)
Definition log_load (model_size : string) (σ : state) : state :=
  State (environ σ) (files σ) (cache σ) (models σ)
    (load_log σ ++ [model_size]) (rng σ) (page σ).

Definition new_model (model_size : string) (σ : state) : state :=
  State (environ σ) (files σ) (cache σ) (models σ ++ [model_size])
    (load_log σ) (rng σ) (page σ).

Definition show (e : element) : M unit := modify (add_element e).

Definition set_environ (env : gmap string string) : M unit :=
  modify (with_environ env).

Definition set_files (fs : gmap string bytes) : M unit :=
  modify (with_files fs).

Definition set_cache (c : gmap string handle) : M unit :=
  modify (with_cache c).

Definition set_rng (n : nat) : M unit := modify (with_rng n).

(** [repr(s)] for a str [s]: in single quotes, or in double quotes when
    [s] holds a single quote and no double quote; the quote and the
    backslash are escaped, and so is what Python does not count as
    printable. *)
Definition backslash : ascii := ascii_of_nat 92.
Definition single_quote : ascii := ascii_of_nat 39.
Definition double_quote : ascii := ascii_of_nat 34.

Fixpoint contains (c : ascii) (s : string) : bool :=
  match s with
  | EmptyString => false
  | String d s' => Ascii.eqb c d || contains c s'
  end.

Definition hex_digit (n : nat) : ascii :=
  nth n (list_ascii_of_string "0123456789abcdef") "0"%char.

Definition repr_char (quote c : ascii) : string :=
  let n := nat_of_ascii c in
  if Ascii.eqb c quote || Ascii.eqb c backslash then
    String backslash (String c EmptyString)
  else if (n =? 9)%nat then String backslash "t"
  else if (n =? 10)%nat then String backslash "n"
  else if (n =? 13)%nat then String backslash "r"
  else if ((n <? 32) || (n =? 127) || (128 <=? n) && (n <=? 160)
           || (n =? 173))%nat then
    String backslash
      (String "x" (String (hex_digit (n / 16)) (String (hex_digit (n mod 16))
                                                  EmptyString)))
  else String c EmptyString.

Fixpoint repr_chars (quote : ascii) (s : string) : string :=
  match s with
  | EmptyString => EmptyString
  | String c s' => repr_char quote c ++ repr_chars quote s'
  end.

Definition repr (s : string) : string :=
  let quote :=
    if contains single_quote s && negb (contains double_quote s)
    then double_quote else single_quote in
  String quote (repr_chars quote s ++ String quote EmptyString).

(** [str(e)]: the message, and for a [KeyError] the [repr] of the key. *)
Definition exn_str (e : exn) : string :=
  match e with
  | ValueError msg | OverflowError msg | RuntimeError msg
  | OSError msg | OtherError msg => msg
  | KeyError key => repr key
  end.

(** The two warnings of the script. *)
Definition no_ffmpeg_warning : element :=
  st_warning "ffmpeg not detected. Whisper may fail to decode audio/video. Please check your ffmpeg installation.".

Definition transcription_failed_warning : element :=
  st_warning "Transcription failed. Check ffmpeg installation and model compatibility.".

Definition ffmpeg_dir : string := "C:\ffmpeg-8.0-full_build\bin".

(** The arrow of the segment lines stands for the arrow symbol of the
    source. *)
Definition arrow : string := "->".

Section Script.

Variable w : world.

(** [is_ffmpeg_available()] *)
Definition is_ffmpeg_available (env : gmap string string) : bool :=
  match which w env "ffmpeg" with
  | Some _ => true
  | None => false
  end.

(** [set_ffmpeg_path()], as a function of [os.environ]. *)
Definition set_ffmpeg_path (env : gmap string string)
  : result (gmap string string) :=
  if is_ffmpeg_available env then Ok env
  else
    match env !! "PATH" with
    | Some path => Ok (<["PATH" := ffmpeg_dir ++ pathsep w ++ path]> env)
    | None => Raise (KeyError "PATH")
    end.

(** The ffmpeg check of the script (lines 73 to 81). *)
Definition ffmpeg_check : M (option string) :=
  σ ← get;
  env ← lift (set_ffmpeg_path (environ σ));
  set_environ env;;
  let ffmpeg_path := which w env "ffmpeg" in
  match ffmpeg_path with
  | Some p =>
      if String.eqb p "" then
        show no_ffmpeg_warning
      else show (st_success ("ffmpeg found: " ++ p))
  | None =>
      show no_ffmpeg_warning
  end;;
  mret ffmpeg_path.

(** [whisper.load_model(model_size)]: the new object is the last of the
    list. *)
Definition whisper_load_model (model_size : string) : M handle :=
  σ ← get;
  modify (log_load model_size);;
  match load_model_error w (load_log σ) model_size with
  | Some e => raise e
  | None =>
      modify (new_model model_size);;
      mret (length (models σ))
  end.

(** The decorator [@st.cache_resource]: the body runs when the argument
    has no entry, and its value is stored when it returns one. *)
Definition cache_resource (f : string -> M handle) (arg : string) : M handle :=
  σ ← get;
  match cache σ !! arg with
  | Some h => mret h
  | None =>
      h ← f arg;
      σ' ← get;
      set_cache (<[arg := h]> (cache σ'));;
      mret h
  end.

(** [load_whisper_model(model_size)] *)
Definition load_whisper_model : string -> M handle :=
  cache_resource (fun model_size =>
    try_except (whisper_load_model model_size)
      (fun e =>
         show (st_error ("Failed to load Whisper model '" ++ model_size
                           ++ "': " ++ exn_str e));;
         raise e)).

(** [os.remove(path)] *)
Definition os_remove (path : string) : M unit :=
  σ ← get;
  match files σ !! path with
  | None => raise (OSError "No such file or directory")
  | Some _ =>
      match remove_error w path with
      | Some e => raise e
      | None => set_files (delete path (files σ))
      end
  end.

(** [model.transcribe(path, language=..., temperature=...)]: the engine
    reads the file and draws from the generator. *)
Definition model_transcribe (model : handle) (path : string)
    (opts : transcribe_options) : M transcript :=
  σ ← get;
  set_rng (S (rng σ));;
  match models σ !! model, files σ !! path with
  | Some variant, Some audio => lift (engine w variant audio opts (rng σ))
  | Some _, None => raise (RuntimeError "Failed to load audio")
  | None, _ => raise (OtherError "not a model")
  end.

(** The loop that shows the segments (lines 144 to 147). *)
Fixpoint show_segment_lines (segments : list segment) : M unit :=
  match segments with
  | [] => mret tt
  | seg :: rest =>
      start ← lift (i ← Float.to_int (seg_start seg); timedelta_str i);
      end_ ← lift (i ← Float.to_int (seg_end seg); timedelta_str i);
      show (st_markdown ("**" ++ start ++ " " ++ arrow ++ " " ++ end_ ++ "**  "
                           ++ newline ++ strip (default "" (seg_text seg))));;
      show_segment_lines rest
  end.

End Script.

Definition en_options : transcribe_options :=
  TranscribeOptions (Some "en") (S754_zero false).

Definition nonempty {A : Type} (l : list A) : bool :=
  match l with
  | [] => false
  | _ :: _ => true
  end.

Section Flow.

Variable w : world.

(** Writing the upload to a new temporary file (lines 98 to 107). The
    file exists, empty, from the call of [NamedTemporaryFile] on. *)
Definition stage (up : upload) : M string :=
  let suffix :=
    if String.eqb (path_suffix w (name up)) "" then ".tmp"
    else path_suffix w (name up) in
  σ ← get;
  tmp_file ← lift (named_temporary_file w suffix (files σ));
  set_files (<[tmp_file := []]> (files σ));;
  try_except
    (match write_error w tmp_file (buffer up) with
     | Some e => raise e
     | None =>
         σ' ← get;
         set_files (<[tmp_file := buffer up]> (files σ'));;
         mret tmp_file
     end)
    (fun e =>
       show (st_error ("Failed to save uploaded file to disk: " ++ exn_str e));;
       raise e).

(** The [try] around [model.transcribe] (lines 121 to 129). *)
Definition invoke (model : handle) (temp_path : string) : M (option transcript) :=
  try_except
    (result ← model_transcribe w model temp_path en_options; mret (Some result))
    (fun e =>
       match e with
       | RuntimeError _ =>
           show (st_error ("Runtime error during transcription: " ++ exn_str e));;
           mret None
       | _ =>
           show (st_error ("An error occurred during transcription: " ++ exn_str e));;
           mret None
       end).

(** Showing a result (lines 135 to 170). *)
Definition render (inp : inputs) (up : upload) (result : transcript) : M unit :=
  show (st_success "Transcription finished.");;
  let transcript_text := strip (default "" (result_text result)) in
  let segments := default [] (result_segments result) in
  show (st_subheader "Full Transcript (English)");;
  show (st_text_area "Transcript" transcript_text);;
  (if show_segments inp && nonempty segments then
     show (st_subheader "Segments");;
     show_segment_lines segments
   else mret tt);;
  (if enable_txt_download inp then
     try_except
       (show (st_download_button "Download TXT" transcript_text
                (path_stem w (name up) ++ ".txt") "text/plain"))
       (fun e => show (st_error ("Failed to create TXT download: " ++ exn_str e)))
   else mret tt);;
  (if enable_srt_download inp && nonempty segments then
     try_except
       (srt_content ← lift (segments_to_srt segments);
        show (st_download_button "Download SRT" srt_content
                (path_stem w (name up) ++ ".srt") "text/plain"))
       (fun e => show (st_error ("Failed to create SRT download: " ++ exn_str e)))
   else mret tt).

(** [try: os.remove(temp_path)  except Exception: pass] *)
Definition cleanup (temp_path : string) : M unit :=
  try_except (os_remove w temp_path) (fun _ => mret tt).

(** Transcribing and showing the outcome (lines 120 to 170). *)
Definition respond (inp : inputs) (up : upload) (model : handle)
    (temp_path : string) : M unit :=
  result ← invoke model temp_path;
  match result with
  | None => show transcription_failed_warning
  | Some result => render inp up result
  end.

(** The main flow (lines 94 to 173). *)
Definition main_flow (inp : inputs) (up : upload) : M unit :=
  show (st_write ("**File:** " ++ name up));;   (* and its size *)
  temp_path ← stage up;
  show (st_info "File saved to temporary path. Loading model...");;
  model ← try_except (load_whisper_model w (model_size inp))
             (fun _ => cleanup temp_path;; st_stop);
  if transcribe_btn inp then
    respond inp up model temp_path;;
    cleanup temp_path
  else mret tt.

(** One run of the script, from the ffmpeg check on. The title, the
    sidebar and the footer only add elements to the page and are left
    out. *)
Definition script (inp : inputs) : M unit :=
  _ ← ffmpeg_check w;
  match uploaded inp with
  | None =>
      show (st_info "Upload a file to begin transcription. For long files prefer 'small' or 'medium' model and GPU.")
  | Some up => main_flow inp up
  end.

End Flow.


(** ** Definitions used in the statements *)

(** The rational number a float stands for (0 for infinities and NaN). *)
Definition value (x : Float.float) : Q :=
  match x with
  | S754_finite s m e =>
      if 0 <=? e then inject_Z (cond_Zopp s (Zpos m * 2 ^ e))
      else Qmake (cond_Zopp s (Zpos m)) (Z.to_pos (2 ^ (- e)))
  | _ => 0%Q
  end.

(** The fixed-width fields of an SRT time stamp, digit by digit. *)
Definition digit (d : Z) : ascii := ascii_of_nat (48 + Z.to_nat d).

Definition two_digits (n : Z) : string :=
  String (digit (n / 10)) (String (digit (n mod 10)) EmptyString).

Definition three_digits (n : Z) : string :=
  String (digit (n / 100)) (two_digits (n mod 100)).

Definition srt_timestamp (h m s ms : Z) : string :=
  two_digits h ++ ":" ++ two_digits m ++ ":" ++ two_digits s ++ ","
    ++ three_digits ms.

Definition is_digit (c : ascii) : bool :=
  ((48 <=? nat_of_ascii c) && (nat_of_ascii c <=? 57))%nat.

(** The shape [HH:MM:SS,mmm]: twelve characters, digits around the
    separators. *)
Definition srt_shape (s : string) : bool :=
  match list_ascii_of_string s with
  | [h1; h0; c1; m1; m0; c2; s1; s0; c3; a; b; c] =>
      forallb is_digit [h1; h0; m1; m0; s1; s0; a; b; c]
      && Ascii.eqb c1 ":" && Ascii.eqb c2 ":" && Ascii.eqb c3 ","
  | _ => false
  end.

(** [t'] is [t] without its leading and trailing white space. *)
Definition all_space (s : string) : Prop :=
  Forall (fun c => is_space c = true) (list_ascii_of_string s).

Definition starts_with_space (s : string) : bool :=
  match s with
  | String c _ => is_space c
  | EmptyString => false
  end.

Fixpoint ends_with_space (s : string) : bool :=
  match s with
  | EmptyString => false
  | String c EmptyString => is_space c
  | String _ s' => ends_with_space s'
  end.

Definition trimmed (t t' : string) : Prop :=
  (exists l r, t = l ++ t' ++ r /\ all_space l /\ all_space r)
  /\ starts_with_space t' = false /\ ends_with_space t' = false.

(** One block of the subtitle document: index, time range, text and the
    blank separator. *)
Definition srt_block (idx : Z) (start end_ text : string) : list string :=
  [str_of_int idx; start ++ " --> " ++ end_; text; ""].

(** A segment whose two time stamps are finite floats. *)
Definition timed (seg : segment) : Prop :=
  Float.valid (seg_start seg) /\ Float.finite (seg_start seg) /\
  Float.valid (seg_end seg) /\ Float.finite (seg_end seg).

(** [n] calls of [load_whisper_model] in a row, with what each returned. *)
Fixpoint repeat_load (w : world) (n : nat) (v : string) (σ : state)
  : list (outcome handle) * state :=
  match n with
  | O => ([], σ)
  | S n' =>
      let '(o, σ1) := load_whisper_model w v σ in
      let '(os, σ2) := repeat_load w n' v σ1 in
      (o :: os, σ2)
  end.

(** The same machine with another recognition engine. *)
Definition with_engine
    (eng : string -> bytes -> transcribe_options -> nat -> result transcript)
    (w : world) : world :=
  World (which w) (pathsep w) (named_temporary_file w) (write_error w)
    (load_model_error w) eng (remove_error w) (path_suffix w) (path_stem w).

(** The same machine with other failures of [os.remove]. *)
Definition with_remove_error (f : string -> option exn) (w : world) : world :=
  World (which w) (pathsep w) (named_temporary_file w) (write_error w)
    (load_model_error w) (engine w) f (path_suffix w) (path_stem w).

(** The same machine with another answer to [shutil.which]. *)
Definition with_which
    (f : gmap string string -> string -> option string) (w : world) : world :=
  World f (pathsep w) (named_temporary_file w) (write_error w)
    (load_model_error w) (engine w) (remove_error w) (path_suffix w)
    (path_stem w).

(** The suffix of the staging file. *)
Definition staging_suffix (w : world) (up : upload) : string :=
  if String.eqb (path_suffix w (name up)) "" then ".tmp"
  else path_suffix w (name up).

(** The message [invoke] shows for an exception. *)
Definition transcription_error (e : exn) : element :=
  match e with
  | RuntimeError _ => st_error ("Runtime error during transcription: " ++ exn_str e)
  | _ => st_error ("An error occurred during transcription: " ++ exn_str e)
  end.

(** The state grows: the files stay and the page gets longer. *)
Definition extends (σ σ' : state) : Prop :=
  files σ' = files σ /\ exists l, page σ' = (page σ ++ l)%list.


(** What [timedelta] accepts: at most 999999999 days in either direction. *)
Definition in_timedelta_range (i : Z) : Prop :=
  -999999999 <= i / 86400 <= 999999999.

(** A segment the segment list can show: the ints of its time stamps exist
    and fit a [timedelta]. *)
Definition displayable (seg : segment) : Prop :=
  (exists i, Float.to_int (seg_start seg) = Ok i /\ in_timedelta_range i) /\
  (exists i, Float.to_int (seg_end seg) = Ok i /\ in_timedelta_range i).

(** The engine returns segments that can be shown. *)
Definition engine_displayable (w : world) : Prop :=
  forall variant audio opts n t segments,
    engine w variant audio opts n = Ok t ->
    result_segments t = Some segments ->
    Forall displayable segments.

(** Characterisations of the binary64 operations, used in the proofs. *)

(** Rounding the positive number [M * 2^e] to the format. *)
Definition round_to_format (s : bool) (M e : Z) : spec_float :=
  let n := fexp Float.prec Float.emax (Z.log2 M + 1 + e) - e in
  if n <=? 0 then
    if e <=? 971 then S754_finite s (Z.to_pos M) e else S754_infinity s
  else
    let m1 := Float.round_half_even M n in
    if m1 =? 0 then S754_zero s
    else if m1 <? 2 ^ 53 then
      if e + n <=? 971 then S754_finite s (Z.to_pos m1) (e + n)
      else S754_infinity s
    else
      if e + n + 1 <=? 971 then S754_finite s (Z.to_pos (2 ^ 52)) (e + n + 1)
      else S754_infinity s.

(** [seconds - int(seconds)]: the float holding the low bits of the
    mantissa, with the sign of [seconds]. *)
Definition fraction (s : bool) (m : positive) (e : Z) : spec_float :=
  if 0 <=? e then S754_zero false
  else
    let r := Zpos m mod 2 ^ (- e) in
    if r =? 0 then S754_zero false
    else
      let g := fexp Float.prec Float.emax (Z.log2 r + 1 + e) in
      S754_finite s (Z.to_pos (r * 2 ^ (e - g))) g.

Definition thousand : spec_float := S754_finite false 8796093022208000 (-43).

(** Exponent and mantissa of [fraction * 1000], where the fraction is
    [r * 2^e]. *)
Definition product_exponent (r e : Z) : Z :=
  fexp Float.prec Float.emax (Z.log2 (1000 * r) + 1 + e).

Definition product_mantissa (r e : Z) : Z :=
  let h := product_exponent r e in
  if e <=? h then Float.round_half_even (1000 * r) (h - e)
  else 1000 * r * 2 ^ (e - h).

(** The magnitude of [round(fraction * 1000)]. *)
Definition millis (r e : Z) : Z :=
  Float.round_half_even (product_mantissa r e) (- product_exponent r e).

(** The magnitude of the milliseconds [format_timestamp] prints for the
    finite float with mantissa [m] and exponent [e]. *)
Definition milliseconds (m : positive) (e : Z) : Z :=
  if 0 <=? e then 0
  else
    let r := Zpos m mod 2 ^ (- e) in
    if r =? 0 then 0 else millis r e.

(** The milliseconds [format_timestamp] prints for a float. *)
Definition milliseconds_of (x : Float.float) : Z :=
  match x with
  | S754_finite s m e => cond_Zopp s (milliseconds m e)
  | _ => 0
  end.


(** ** Concrete instances *)

Definition f0 : Float.float := S754_zero false.
Definition f0_0005 : Float.float := Float.literal 5 4.
Definition f2_5 : Float.float := Float.literal 25 1.
Definition f3661_5 : Float.float := Float.literal 36615 1.
Definition f59_9995 : Float.float := Float.literal 599995 4.
Definition f59_9996 : Float.float := Float.literal 599996 4.
Definition f360000 : Float.float := Float.literal 360000 0.
Definition fm0_5 : Float.float := SFopp (Float.literal 5 1).

Definition demo_segments : list segment :=
  [Segment f0 f2_5 (Some " Hello there. ");
   Segment f2_5 f59_9995 (Some " General remarks.")].

Definition demo_transcript : transcript :=
  Transcript (Some " Hello there. General remarks.") (Some demo_segments).

(** A machine described by what its parts answer: where ffmpeg is found,
    and the failures of writing, loading and removing, if any. *)
Definition demo_world (ffmpeg : option string)
    (write_err load_err remove_err : option exn)
    (answer : result transcript) : world :=
  World (fun _ _ => ffmpeg) ";"
    (fun suffix _ => Ok ("C:\Temp\tmp0" ++ suffix))
    (fun _ _ => write_err) (fun _ _ => load_err)
    (fun _ _ _ _ => answer) (fun _ => remove_err)
    (fun _ => ".wav") (fun _ => "talk").

(** An engine that samples unless the temperature is 0. *)
Definition sampling_engine (variant : string) (audio : bytes)
    (opts : transcribe_options) (n : nat) : result transcript :=
  match temperature opts with
  | S754_zero _ => Ok demo_transcript
  | _ => Ok (Transcript (Some (str_of_int (Z.of_nat n))) None)
  end.

Definition demo_upload : upload :=
  Upload "talk.wav" [Byte.x52; Byte.x49; Byte.x46; Byte.x46].

Definition demo_inputs (pressed : bool) : inputs :=
  Inputs "base" true true true (Some demo_upload) pressed.

Definition demo_state (env : gmap string string) : state :=
  State env ∅ ∅ [] [] 0 [].

Definition demo_environ : gmap string string :=
  {[ "PATH" := "C:\Windows" ]}.

Definition w_ok : world := demo_world None None None None (Ok demo_transcript).

Definition w_disk_full : world :=
  demo_world None (Some (OSError "disk full")) None None (Ok demo_transcript).




(** ** Definitions used in the statements on the run *)

(** [str(datetime.timedelta(seconds=int(x)))], as the segment list shows a
    time stamp. *)
Definition timedelta_of (x : Float.float) : result string :=
  i ← Float.to_int x; timedelta_str i.

(** Two states with the same store: everything but the page. *)
Definition same_store (σ σ' : state) : Prop :=
  environ σ' = environ σ /\ files σ' = files σ /\ cache σ' = cache σ /\
  models σ' = models σ /\ load_log σ' = load_log σ /\ rng σ' = rng σ.

(** A computation that only adds elements to the page. *)
Definition only_shows {A : Type} (c : M A) : Prop :=
  forall σ o σ', c σ = (o, σ') ->
    same_store σ σ' /\ exists l, page σ' = (page σ ++ l)%list.

(** Every entry of the resource cache is a model object of its variant. *)
Definition cache_consistent (σ : state) : Prop :=
  forall v h, cache σ !! v = Some h -> models σ !! h = Some v.

(** ** Further instances *)

(** 86400000000000 seconds: one day more than a [timedelta] holds. *)
Definition f86400000000000 : Float.float :=
  binary_normalize Float.prec Float.emax 86400000000000 0 false.

Definition overflow_transcript : transcript :=
  Transcript (Some " Hello there.")
    (Some [Segment f0 f86400000000000 (Some " Hello there.")]).

Definition w_overflow : world :=
  demo_world None None None None (Ok overflow_transcript).




(** A machine whose temporary files get a new name each: the number of
    files in the store. *)
Definition w_fresh : world :=
  World (fun _ _ => None) ";"
    (fun suffix fs =>
       Ok ("C:\Temp\tmp" ++ str_of_int (Z.of_nat (size fs)) ++ suffix))
    (fun _ _ => None) (fun _ _ => None)
    (fun _ _ _ _ => Ok demo_transcript) (fun _ => None)
    (fun _ => ".wav") (fun _ => "talk").

(** A machine whose engine fails with a run-time error. *)
Definition w_engine_fails : world :=
  demo_world None None None None (Raise (RuntimeError "ffmpeg was not found")).


(** ** Definitions and instances used in the further properties *)

Definition f7 : Float.float := Float.literal 7 0.
Definition fm1_5 : Float.float := SFopp (Float.literal 15 1).

Definition untimed_segments : list segment :=
  [Segment f0 f2_5 (Some " Hello there. ");
   Segment f2_5 S754_nan (Some " General remarks.");
   Segment (S754_infinity false) f2_5 None].

(** [n] calls of [set_ffmpeg_path] in a row: the script runs it once per
    rerun, in a process whose [os.environ] persists. *)
Fixpoint set_ffmpeg_path_times (w : world) (n : nat) (env : gmap string string)
  : result (gmap string string) :=
  match n with
  | O => Ok env
  | S n' => env' ← set_ffmpeg_path w env; set_ffmpeg_path_times w n' env'
  end.

(** [n] copies of a string in a row. *)
Fixpoint copies (n : nat) (s : string) : string :=
  match n with
  | O => ""
  | S n' => s ++ copies n' s
  end.

(** A machine on which [whisper.load_model] fails the first time it is
    called and works from then on. *)
Definition w_flaky : world :=
  World (fun _ _ => None) ";"
    (fun suffix _ => Ok ("C:\Temp\tmp0" ++ suffix))
    (fun _ _ => None)
    (fun log _ => match log with
                  | [] => Some (RuntimeError "download interrupted")
                  | _ :: _ => None
                  end)
    (fun _ _ _ _ => Ok demo_transcript) (fun _ => None)
    (fun _ => ".wav") (fun _ => "talk").

(** An engine that knows the variant [base] only. *)
Definition base_only_engine (variant : string) (audio : bytes)
    (opts : transcribe_options) (n : nat) : result transcript :=
  if String.eqb variant "base" then Ok demo_transcript
  else Raise (RuntimeError "no such model").


(** * Properties *)

(** ** Binary64 arithmetic *)

Section BinaryRounding.

Abbreviation fexp := (SpecFloat.fexp Float.prec Float.emax).
Abbreviation emin := (SpecFloat.emin Float.prec Float.emax).

Lemma pow2_pos (n : Z) : 0 <= n -> 0 < 2 ^ n.
Proof. intros. apply Z.pow_pos_nonneg; lia. Qed.

Lemma digits2_pos_log2 (m : positive) :
  Zpos (digits2_pos m) = Z.log2 (Zpos m) + 1.
Proof.
  assert (E : digits2_pos m = Pos.size m).
  { induction m as [m IH | m IH |]; simpl; congruence. }
  rewrite E. change (Zpos (Pos.size m)) with (Z.log2 (Zpos m~0)).
  rewrite (Pos2Z.inj_xO m), Z.log2_double by lia. lia.
Qed.


Lemma fexp_unfold (d : Z) : fexp d = Z.max (d - 53) (-1074).
Proof. reflexivity. Qed.

Lemma iter_pos_nat {A : Type} (f : A -> A) (p : positive) (x : A) :
  SpecFloat.iter_pos f p x = Nat.iter (Pos.to_nat p) f x.
Proof.
  revert x. induction p as [p IH | p IH |]; intros x; simpl SpecFloat.iter_pos.
  - rewrite !IH, Pos2Nat.inj_xI, <- Nat.iter_add, <- Nat.iter_succ_r.
    f_equal. lia.
  - rewrite !IH, Pos2Nat.inj_xO, <- Nat.iter_add. f_equal. lia.
  - reflexivity.
Qed.

Lemma shr_1_nonneg (mrs : shr_record) :
  0 <= shr_m mrs ->
  shr_1 mrs =
    Build_shr_record (shr_m mrs / 2) (Z.odd (shr_m mrs))
      (shr_r mrs || shr_s mrs).
Proof.
  destruct mrs as [q r s]; simpl shr_m; simpl shr_r; simpl shr_s.
  intros Hq. rewrite <- Z.div2_div.
  destruct q as [| [p | p |] |]; try reflexivity; lia.
Qed.

(** [n] one-bit shifts keep the quotient by [2^n] and, in the two sticky
    bits, how the remainder compares with half of [2^n]. *)
Lemma shr_iter_spec (m : Z) (n : nat) :
  0 <= m ->
  let mrs := Nat.iter n shr_1 (Build_shr_record m false false) in
  let rem := m mod 2 ^ Z.of_nat n in
  shr_m mrs = m / 2 ^ Z.of_nat n /\
  (shr_r mrs = true <-> 2 ^ Z.of_nat n <= 2 * rem) /\
  (shr_s mrs = true <-> rem <> 0 /\ 2 * rem <> 2 ^ Z.of_nat n).
Proof.
  intros Hm. induction n as [| n IH].
  - simpl. rewrite Z.div_1_r, Z.mod_1_r. repeat split; intros; try lia; try discriminate.
  - cbv zeta in IH |- *. destruct IH as (IHm & IHr & IHs).
    rewrite Nat.iter_succ.
    set (mrs := Nat.iter n shr_1 _) in *.
    assert (Hp : 0 < 2 ^ Z.of_nat n) by (apply pow2_pos; lia).
    assert (Hq : 0 <= shr_m mrs) by (rewrite IHm; apply Z.div_pos; lia).
    rewrite shr_1_nonneg by exact Hq. simpl shr_m; simpl shr_r; simpl shr_s.
    rewrite Nat2Z.inj_succ, Z.pow_succ_r by lia.
    rewrite (Z.mul_comm 2 (2 ^ Z.of_nat n)).
    rewrite Z.rem_mul_r by lia. rewrite <- Z.div_div by lia.
    rewrite <- IHm.
    pose proof (Z.mod_pos_bound m (2 ^ Z.of_nat n) Hp) as Hrem.
    pose proof (Z.mod_pos_bound (shr_m mrs) 2 ltac:(lia)) as Hbit.
    set (rem := m mod 2 ^ Z.of_nat n) in *.
    assert (Hodd : Z.odd (shr_m mrs) = true <-> shr_m mrs mod 2 = 1).
    { rewrite Zmod_odd. destruct (Z.odd (shr_m mrs)); split; intros; lia || congruence. }
    clearbody rem. set (b := shr_m mrs mod 2) in *. clearbody b.
    set (p := 2 ^ Z.of_nat n) in *. clearbody p.
    split; [reflexivity|]. split.
    + rewrite Hodd. assert (Hb : b = 0 \/ b = 1) by lia.
      destruct Hb as [-> | ->]; lia.
    + rewrite orb_true_iff, IHr, IHs. split.
      * intros Hrs. assert (rem <> 0). { lia. }
        assert (Hb : b = 0 \/ b = 1) by lia. destruct Hb as [-> | ->]; lia.
      * intros [H1 H2]. assert (Hb : b = 0 \/ b = 1) by lia.
        destruct Hb as [-> | ->]; lia.
Qed.

Lemma round_half_even_unfold (m k : Z) :
  0 <= k ->
  Float.round_half_even m k =
    match 2 * (m mod 2 ^ k) ?= 2 ^ k with
    | Lt => m / 2 ^ k
    | Gt => m / 2 ^ k + 1
    | Eq => if Z.even (m / 2 ^ k) then m / 2 ^ k else m / 2 ^ k + 1
    end.
Proof.
  intros Hk. unfold Float.round_half_even.
  rewrite Z.shiftr_div_pow2, !Z.shiftl_mul_pow2 by lia.
  rewrite Z.mul_1_l.
  replace (m - m / 2 ^ k * 2 ^ k) with (m mod 2 ^ k); [reflexivity|].
  rewrite Z.mod_eq by (pose proof (pow2_pos k Hk); lia). lia.
Qed.

Lemma shr_round (m : Z) (n : positive) :
  0 <= m ->
  let mrs := SpecFloat.iter_pos shr_1 n (Build_shr_record m false false) in
  round_nearest_even (shr_m mrs) (loc_of_shr_record mrs) =
    Float.round_half_even m (Zpos n).
Proof.
  intros Hm mrs. subst mrs. rewrite iter_pos_nat.
  destruct (shr_iter_spec m (Pos.to_nat n) Hm) as (Hq & Hr & Hs).
  rewrite positive_nat_Z in Hq, Hr, Hs.
  rewrite round_half_even_unfold by lia.
  destruct (Nat.iter _ _ _) as [q r s]. simpl in Hq, Hr, Hs. subst q.
  pose proof (pow2_pos (Zpos n) ltac:(lia)) as Hp.
  pose proof (Z.mod_pos_bound m _ Hp) as Hrem.
  set (rem := m mod 2 ^ Zpos n) in *. clearbody rem.
  set (p := 2 ^ Zpos n) in *.
  destruct r, s; simpl.
  - assert (p <= 2 * rem) by (apply Hr; reflexivity).
    assert (rem <> 0 /\ 2 * rem <> p) by (apply Hs; reflexivity).
    destruct (Z.compare_spec (2 * rem) p); lia.
  - assert (p <= 2 * rem) by (apply Hr; reflexivity).
    assert (~ (rem <> 0 /\ 2 * rem <> p)) by (rewrite <- Hs; discriminate).
    destruct (Z.compare_spec (2 * rem) p); lia.
  - assert (~ p <= 2 * rem) by (rewrite <- Hr; discriminate).
    assert (rem <> 0 /\ 2 * rem <> p) by (apply Hs; reflexivity).
    destruct (Z.compare_spec (2 * rem) p); lia.
  - assert (~ p <= 2 * rem) by (rewrite <- Hr; discriminate).
    assert (~ (rem <> 0 /\ 2 * rem <> p)) by (rewrite <- Hs; discriminate).
    destruct (Z.compare_spec (2 * rem) p); lia.
Qed.

Lemma round_half_even_bounds (m k : Z) :
  0 <= m -> 0 <= k ->
  m / 2 ^ k <= Float.round_half_even m k <= m / 2 ^ k + 1 /\
  2 * Z.abs (Float.round_half_even m k * 2 ^ k - m) <= 2 ^ k.
Proof.
  intros Hm Hk. rewrite round_half_even_unfold by lia.
  pose proof (pow2_pos k Hk) as Hp.
  pose proof (Z.mod_pos_bound m _ Hp) as Hrem.
  pose proof (Z.div_mod m (2 ^ k) ltac:(lia)) as Hdm.
  set (rem := m mod 2 ^ k) in *. clearbody rem.
  set (q := m / 2 ^ k) in *. clearbody q.
  set (p := 2 ^ k) in *. clearbody p.
  destruct (Z.compare_spec (2 * rem) p); [destruct (Z.even q)|..]; nia.
Qed.

Lemma round_half_even_scale (a j k : Z) :
  0 <= j -> 0 <= k ->
  Float.round_half_even (a * 2 ^ j) (k + j) = Float.round_half_even a k.
Proof.
  intros Hj Hk. rewrite !round_half_even_unfold by lia.
  pose proof (pow2_pos k Hk) as Hpk. pose proof (pow2_pos j Hj) as Hpj.
  rewrite Z.pow_add_r by lia.
  rewrite Z.div_mul_cancel_r by lia.
  rewrite Z.mul_mod_distr_r by lia.
  rewrite Z.mul_assoc, <- Zmult_compare_compat_r by lia.
  reflexivity.
Qed.

Lemma round_half_even_exact (a k : Z) :
  0 <= k -> Float.round_half_even (a * 2 ^ k) k = a.
Proof.
  intros Hk. pose proof (round_half_even_scale a k 0 Hk ltac:(lia)) as H.
  rewrite Z.add_0_l in H. rewrite H, round_half_even_unfold by lia.
  rewrite Z.pow_0_r, Z.mod_1_r, Z.div_1_r. reflexivity.
Qed.

Lemma Zdigits2_log2 (M : Z) : 0 < M -> Zdigits2 M = Z.log2 M + 1.
Proof.
  destruct M as [| p | p]; try lia. intros _. apply digits2_pos_log2.
Qed.


Lemma binary_round_aux_spec (s : bool) (M e : Z) :
  0 < M ->
  binary_round_aux Float.prec Float.emax s M e loc_Exact =
    round_to_format s M e.
Proof.
  intros HM. unfold binary_round_aux, round_to_format, shr_fexp.
  rewrite (Zdigits2_log2 M HM).
  set (n := fexp (Z.log2 M + 1 + e) - e).
  assert (Hn : n = fexp (Z.log2 M + 1 + e) - e) by reflexivity.
  rewrite fexp_unfold in Hn.
  change (shr_record_of_loc M loc_Exact) with (Build_shr_record M false false).
  destruct n as [| p | p] eqn:En.
  - (* no shift *)
    simpl shr. cbn [shr_m loc_of_shr_record round_nearest_even].
    rewrite (Zdigits2_log2 M HM). fold n. rewrite En. simpl shr.
    cbn [shr_m]. destruct M; try lia. reflexivity.
  - (* rounding *)
    change (Z.pos p <=? 0) with false. cbv iota.
    change (shr (Build_shr_record M false false) e (Z.pos p))
      with (SpecFloat.iter_pos shr_1 p (Build_shr_record M false false),
            e + Z.pos p).
    cbv beta iota. rewrite shr_round by lia.
    destruct (round_half_even_bounds M (Zpos p) ltac:(lia) ltac:(lia)) as [[Hlo Hhi] _].
    set (m1 := Float.round_half_even M (Zpos p)) in *.
    change (shr_record_of_loc m1 loc_Exact) with (Build_shr_record m1 false false).
    assert (Hq : 0 <= M / 2 ^ Zpos p < 2 ^ 53).
    { split; [apply Z.div_pos; [lia | apply pow2_pos; lia]|].
      apply Z.div_lt_upper_bound; [apply pow2_pos; lia|].
      rewrite <- Z.pow_add_r by lia.
      pose proof (Z.log2_spec M HM) as [_ Hlt].
      eapply Z.lt_le_trans; [exact Hlt|].
      apply Z.pow_le_mono_r; lia. }
    destruct (Z.eqb_spec m1 0) as [E0 | N0].
    + rewrite E0. simpl Zdigits2. rewrite fexp_unfold.
      set (n2 := Z.max (0 + (e + Zpos p) - 53) (-1074) - (e + Zpos p)).
      assert (n2 <= 0) by lia.
      destruct n2 eqn:En2; try lia; reflexivity.
    + assert (Hm1 : 0 < m1) by lia.
      rewrite (Zdigits2_log2 m1 Hm1), fexp_unfold.
      destruct (Z.ltb_spec m1 (2 ^ 53)) as [Hlt | Hge].
      * assert (Z.log2 m1 < 53) by (apply Z.log2_lt_pow2; lia).
        set (n2 := Z.max (Z.log2 m1 + 1 + (e + Zpos p) - 53) (-1074) - (e + Zpos p)).
        assert (n2 <= 0) by lia.
        destruct n2 eqn:En2; try lia; simpl shr; cbn [shr_m];
          destruct m1; try lia; reflexivity.
      * assert (Em1 : m1 = 2 ^ 53) by lia. rewrite Em1.
        change (Z.log2 (2 ^ 53)) with 53.
        replace (Z.max (53 + 1 + (e + Zpos p) - 53) (-1074) - (e + Zpos p))
          with 1 by lia.
        reflexivity.
  - (* no shift *)
    simpl shr. cbn [shr_m loc_of_shr_record round_nearest_even].
    rewrite (Zdigits2_log2 M HM). fold n. rewrite En. simpl shr.
    cbn [shr_m]. destruct M; try lia. reflexivity.
Qed.

Lemma shl_align_spec (m : positive) (e e' : Z) :
  shl_align m e e' =
    if e' <? e then (Z.to_pos (Zpos m * 2 ^ (e - e')), e') else (m, e).
Proof.
  unfold shl_align. destruct (Z.ltb_spec e' e) as [Hlt | Hge].
  - destruct (e' - e) as [| d | d] eqn:Ed; try lia.
    replace (e - e') with (Zpos d) by lia.
    change (Pos.iter xO m d) with (shift_pos d m).
    f_equal. apply Pos2Z.inj. rewrite shift_pos_correct.
    rewrite Z2Pos.id by (apply Z.mul_pos_pos; [lia | apply pow2_pos; lia]).
    rewrite Z.mul_comm. reflexivity.
  - destruct (e' - e) as [| d | d] eqn:Ed; try lia; reflexivity.
Qed.

(** A number that fits the format is represented exactly, at its
    canonical exponent. *)
Lemma binary_round_exact (s : bool) (m : positive) (e : Z) :
  let f := fexp (Z.log2 (Zpos m) + 1 + e) in
  f <= e -> f <= 971 ->
  binary_round Float.prec Float.emax s m e =
    S754_finite s (Z.to_pos (Zpos m * 2 ^ (e - f))) f.
Proof.
  intros f Hfe Hf. unfold binary_round.
  rewrite digits2_pos_log2. fold f. rewrite shl_align_spec.
  assert (Ef : fexp (Z.log2 (Zpos m) + 1 + e) = f) by reflexivity.
  clearbody f.
  assert (Hp : 0 < 2 ^ (e - f)) by (apply pow2_pos; lia).
  assert (HM : 0 < Zpos m * 2 ^ (e - f)) by lia.
  assert (Hround : round_to_format s (Zpos m * 2 ^ (e - f)) f =
                   S754_finite s (Z.to_pos (Zpos m * 2 ^ (e - f))) f).
  { unfold round_to_format.
    rewrite Z.log2_mul_pow2 by lia.
    replace (e - f + Z.log2 (Zpos m) + 1 + f) with (Z.log2 (Zpos m) + 1 + e) by lia.
    rewrite Ef, Z.sub_diag. simpl (0 <=? 0).
    destruct (Z.leb_spec f 971); [reflexivity | lia]. }
  destruct (Z.ltb_spec f e) as [Hlt | Hge].
  - rewrite binary_round_aux_spec; rewrite Z2Pos.id by lia; [exact Hround | lia].
  - assert (E : f = e) by lia. rewrite E in Hround |- *.
    rewrite binary_round_aux_spec by lia.
    rewrite Z.sub_diag, Z.mul_1_r in Hround |- *. exact Hround.
Qed.

Lemma round_to_format_mantissa (M e : Z) :
  0 < M ->
  let n := fexp (Z.log2 M + 1 + e) - e in
  0 < n -> Float.round_half_even M n <= 2 ^ 53.
Proof.
  intros HM n Hn.
  destruct (round_half_even_bounds M n ltac:(lia) ltac:(lia)) as [[_ Hhi] _].
  assert (M / 2 ^ n < 2 ^ 53); [|lia].
  apply Z.div_lt_upper_bound; [apply pow2_pos; lia|].
  rewrite <- Z.pow_add_r by lia.
  pose proof (Z.log2_spec M HM) as [_ Hlt].
  eapply Z.lt_le_trans; [exact Hlt|].
  apply Z.pow_le_mono_r; [lia|]. subst n. rewrite fexp_unfold in *. lia.
Qed.

Lemma bounded_spec (m : positive) (e : Z) :
  bounded Float.prec Float.emax m e = true <->
  fexp (Z.log2 (Zpos m) + 1 + e) = e /\ e <= 971.
Proof.
  unfold bounded, canonical_mantissa.
  rewrite andb_true_iff, Z.eqb_eq, Z.leb_le, digits2_pos_log2.
  reflexivity.
Qed.

Lemma binary_normalize_cond_Zopp (s : bool) (r e : Z) :
  0 <= r ->
  binary_normalize Float.prec Float.emax (cond_Zopp s r) e false =
    if r =? 0 then S754_zero false
    else binary_round Float.prec Float.emax s (Z.to_pos r) e.
Proof.
  intros Hr. destruct r as [| p | p]; try lia.
  - destruct s; reflexivity.
  - destruct s; reflexivity.
Qed.

Lemma sub_same_sign (s : bool) (m m' : positive) (e e' : Z) :
  e <= e' ->
  Float.sub (S754_finite s m e) (S754_finite s m' e') =
    binary_normalize Float.prec Float.emax
      (cond_Zopp s (Zpos m - Zpos m' * 2 ^ (e' - e))) e false.
Proof.
  intros Hle. unfold Float.sub, SFsub.
  rewrite Z.min_l by lia. rewrite !shl_align_spec.
  rewrite Z.ltb_irrefl. cbn [fst].
  assert (Hp : 0 < 2 ^ (e' - e)) by (apply pow2_pos; lia).
  assert (E : Zpos (fst (if e <? e'
                         then (Z.to_pos (Zpos m' * 2 ^ (e' - e)), e)
                         else (m', e'))) = Zpos m' * 2 ^ (e' - e)).
  { destruct (Z.ltb_spec e e'); cbn [fst].
    - rewrite Z2Pos.id by lia. reflexivity.
    - replace (e' - e) with 0 by lia. lia. }
  rewrite E. f_equal. destruct s; simpl; lia.
Qed.

Lemma bounded_mantissa (m : positive) (e : Z) :
  bounded Float.prec Float.emax m e = true ->
  -1074 <= e <= 971 /\ Zpos m < 2 ^ 53 /\ (-1074 < e -> 2 ^ 52 <= Zpos m).
Proof.
  rewrite bounded_spec, fexp_unfold. intros [Hc He].
  pose proof (Z.log2_spec (Zpos m) ltac:(lia)) as [Hlo Hhi].
  pose proof (Z.log2_nonneg (Zpos m)).
  split; [lia|]. split.
  - eapply Z.lt_le_trans; [exact Hhi|]. apply Z.pow_le_mono_r; lia.
  - intros Hn. eapply Z.le_trans; [|exact Hlo]. apply Z.pow_le_mono_r; lia.
Qed.

Lemma of_int_integral (s : bool) (m : positive) (e : Z) :
  bounded Float.prec Float.emax m e = true -> 0 <= e ->
  Float.of_int (cond_Zopp s (Z.shiftl (Zpos m) e)) = Ok (S754_finite s m e).
Proof.
  intros Hb He. pose proof Hb as Hb'. apply bounded_spec in Hb' as [Hc He'].
  unfold Float.of_int. rewrite Z.shiftl_mul_pow2 by lia.
  assert (Hp : 0 < 2 ^ e) by (apply pow2_pos; lia).
  rewrite binary_normalize_cond_Zopp by lia.
  destruct (Z.eqb_spec (Zpos m * 2 ^ e) 0) as [|_]; [lia|].
  unfold binary_round. rewrite digits2_pos_log2, Z2Pos.id by lia.
  rewrite Z.log2_mul_pow2 by lia.
  replace (e + Z.log2 (Zpos m) + 1 + 0) with (Z.log2 (Zpos m) + 1 + e) by lia.
  rewrite Hc, shl_align_spec.
  destruct (Z.ltb_spec e 0); [lia|].
  rewrite Z2Pos.id by lia. rewrite binary_round_aux_spec by lia.
  unfold round_to_format. rewrite Z.log2_mul_pow2 by lia.
  replace (e + Z.log2 (Zpos m) + 1 + 0) with (Z.log2 (Zpos m) + 1 + e) by lia.
  rewrite Hc, Z.sub_0_r.
  destruct (Z.leb_spec e 0).
  - assert (e = 0) by lia. subst e. rewrite Z.mul_1_r. reflexivity.
  - rewrite round_half_even_exact by lia.
    destruct (bounded_mantissa m e Hb) as (_ & Hlt & _).
    destruct (Z.eqb_spec (Zpos m) 0); [lia|].
    destruct (Z.ltb_spec (Zpos m) (2 ^ 53)); [|lia].
    rewrite Z.add_0_l. destruct (Z.leb_spec e 971); [|lia]. reflexivity.
Qed.

Lemma of_int_small (s : bool) (t : Z) :
  0 < t < 2 ^ 53 ->
  Float.of_int (cond_Zopp s t) =
    Ok (S754_finite s (Z.to_pos (t * 2 ^ (52 - Z.log2 t))) (Z.log2 t - 52)).
Proof.
  intros [Hlo Hhi]. unfold Float.of_int.
  rewrite binary_normalize_cond_Zopp by lia.
  destruct (Z.eqb_spec t 0) as [|_]; [lia|].
  assert (Z.log2 t < 53) by (apply Z.log2_lt_pow2; lia).
  pose proof (Z.log2_nonneg t).
  pose proof (binary_round_exact s (Z.to_pos t) 0) as Hex.
  rewrite Z2Pos.id in Hex by lia. rewrite fexp_unfold in Hex.
  replace (Z.max (Z.log2 t + 1 + 0 - 53) (-1074)) with (Z.log2 t - 52) in Hex by lia.
  cbv zeta in Hex. rewrite Hex by lia.
  replace (0 - (Z.log2 t - 52)) with (52 - Z.log2 t) by lia. reflexivity.
Qed.


Lemma sub_to_int (s : bool) (m : positive) (e : Z) :
  bounded Float.prec Float.emax m e = true ->
  exists fi,
    Float.of_int (cond_Zopp s (Z.shiftl (Zpos m) e)) = Ok fi /\
    Float.sub (S754_finite s m e) fi = fraction s m e.
Proof.
  intros Hb. unfold fraction.
  destruct (bounded_mantissa m e Hb) as (He & Hm & Hnorm).
  destruct (Z.leb_spec 0 e) as [Hpos | Hneg].
  - exists (S754_finite s m e). split; [apply of_int_integral; assumption|].
    rewrite sub_same_sign by lia.
    rewrite Z.sub_diag, Z.mul_1_r, Z.sub_diag. destruct s; reflexivity.
  - rewrite Z.shiftl_div_pow2 by lia.
    set (k := - e) in *.
    assert (Hp : 0 < 2 ^ k) by (apply pow2_pos; lia).
    pose proof (Z.div_mod (Zpos m) (2 ^ k) ltac:(lia)) as Hdm.
    pose proof (Z.mod_pos_bound (Zpos m) (2 ^ k) Hp) as Hr.
    assert (Ht : 0 <= Zpos m / 2 ^ k) by (apply Z.div_pos; lia).
    set (t := Zpos m / 2 ^ k) in *. set (r := Zpos m mod 2 ^ k) in *.
    destruct (Z.eq_dec t 0) as [Et | Nt].
    + (* |seconds| < 1 *)
      exists (S754_zero false). rewrite Et. split; [destruct s; reflexivity|].
      assert (Er : r = Zpos m) by lia. rewrite Er.
      apply bounded_spec in Hb as [Hc _]. rewrite Hc, Z.sub_diag, Z.mul_1_r.
      reflexivity.
    + assert (Ht53 : 0 < t < 2 ^ 53) by nia.
      eexists. split; [apply of_int_small; exact Ht53|].
      assert (Hk : k <= 52).
      { destruct (Z.le_gt_cases k 52) as [|Hgt]; [assumption|exfalso].
        assert (2 ^ 53 <= 2 ^ k) by (apply Z.pow_le_mono_r; lia). nia. }
      assert (Hm52 : 2 ^ 52 <= Zpos m) by (apply Hnorm; lia).
      assert (Hlog : 52 - k <= Z.log2 t).
      { apply Z.log2_le_pow2; [lia|].
        apply Z.div_le_lower_bound; [lia|].
        rewrite <- Z.pow_add_r by lia.
        replace (k + (52 - k)) with 52 by lia. exact Hm52. }
      assert (Hlog' : Z.log2 t < 53) by (apply Z.log2_lt_pow2; lia).
      rewrite sub_same_sign by lia.
      assert (Hp1 : 0 < 2 ^ (52 - Z.log2 t)) by (apply pow2_pos; lia).
      rewrite Z2Pos.id by lia.
      rewrite <- Z.mul_assoc, <- Z.pow_add_r by lia.
      replace (52 - Z.log2 t + (Z.log2 t - 52 - e)) with k by lia.
      replace (Zpos m - t * 2 ^ k) with r by lia.
      rewrite binary_normalize_cond_Zopp by lia.
      destruct (Z.eqb_spec r 0) as [|Nr]; [reflexivity|].
      assert (Hr0 : 0 < r) by lia.
      assert (Z.log2 r < 53) by (apply Z.log2_lt_pow2; lia).
      pose proof (binary_round_exact s (Z.to_pos r) e) as Hex.
      rewrite Z2Pos.id in Hex by lia. cbv zeta in Hex.
      rewrite fexp_unfold in Hex |- *. rewrite Hex by lia. reflexivity.
Qed.


Lemma of_int_1000 : Float.of_int 1000 = Ok thousand.
Proof. reflexivity. Qed.


Lemma round_mul_fraction (s : bool) (r e : Z) :
  -1074 <= e < 0 -> 0 < r < 2 ^ (- e) -> r < 2 ^ 53 ->
  let g := fexp (Z.log2 r + 1 + e) in
  Float.round (Float.mul (S754_finite s (Z.to_pos (r * 2 ^ (e - g))) g) thousand)
  = Ok (cond_Zopp s (millis r e)).
Proof.
  intros He Hr Hr53 g.
  assert (Hlr : 0 <= Z.log2 r < 53).
  { split; [apply Z.log2_nonneg | apply Z.log2_lt_pow2; lia]. }
  assert (Hg : g <= e) by (subst g; rewrite fexp_unfold; lia).
  assert (Hgmin : -1074 <= g) by (subst g; rewrite fexp_unfold; lia).
  assert (Eg : g = Z.max (Z.log2 r + 1 + e - 53) (-1074)) by reflexivity.
  clearbody g.
  unfold millis, product_mantissa, product_exponent.
  set (L := Z.log2 (1000 * r)).
  assert (HL : Z.log2 r <= L) by (apply Z.log2_le_mono; lia).
  assert (Hpk : 0 < 2 ^ (- e)) by (apply pow2_pos; lia).
  assert (HLk : L < 10 - e).
  { apply Z.log2_lt_pow2; [lia|].
    replace (10 - e) with (10 + - e) by lia. rewrite Z.pow_add_r by lia.
    change (2 ^ 10) with 1024. lia. }
  assert (HL0 : 2 ^ L <= 1000 * r) by (apply Z.log2_spec; lia).
  set (h := fexp (L + 1 + e)).
  assert (Eh : h = Z.max (L + 1 + e - 53) (-1074)) by reflexivity.
  clearbody h.
  unfold Float.mul, SFmul, thousand. rewrite xorb_false_r.
  set (j := e - g + 43).
  assert (Ej : j = e - g + 43) by reflexivity.
  assert (Hpj : 0 < 2 ^ (e - g)) by (apply pow2_pos; lia).
  assert (EM : Zpos (Z.to_pos (r * 2 ^ (e - g)) * 8796093022208000) =
               1000 * r * 2 ^ j).
  { rewrite Pos2Z.inj_mul, Z2Pos.id by lia. subst j.
    rewrite Z.pow_add_r by lia. change (2 ^ 43) with 8796093022208. lia. }
  rewrite EM. clear EM. clearbody j.
  assert (Hpj' : 0 < 2 ^ j) by (apply pow2_pos; lia).
  rewrite binary_round_aux_spec by lia.
  unfold round_to_format.
  rewrite Z.log2_mul_pow2 by lia. fold L.
  assert (Ex : j + L + 1 + (g + -43) = L + 1 + e) by (clear - Ej; lia).
  rewrite Ex.
  rewrite fexp_unfold, <- Eh.
  set (n := h - (g + -43)).
  assert (En : n = h - (g + -43)) by reflexivity. clearbody n.
  destruct (Z.leb_spec n 0) as [|Hn]; [lia|].
  pose proof (round_to_format_mantissa (1000 * r * 2 ^ j) (g + -43) ltac:(lia))
    as Hfit.
  rewrite Z.log2_mul_pow2 in Hfit by lia. fold L in Hfit.
  rewrite Ex in Hfit.
  rewrite fexp_unfold, <- Eh, <- En in Hfit. cbv zeta in Hfit.
  specialize (Hfit Hn).
  assert (Em1 : Float.round_half_even (1000 * r * 2 ^ j) n =
                if e <=? h then Float.round_half_even (1000 * r) (h - e)
                else 1000 * r * 2 ^ (e - h)).
  { destruct (Z.leb_spec e h).
    - replace n with (h - e + j) by lia.
      apply round_half_even_scale; lia.
    - replace j with (e - h + n) by lia.
      rewrite Z.pow_add_r, Z.mul_assoc by lia.
      apply round_half_even_exact; lia. }
  rewrite Em1 in Hfit |- *.
  set (m1 := if e <=? h then _ else _) in *.
  assert (Hm1 : 0 < m1).
  { subst m1. destruct (Z.leb_spec e h).
    - destruct (round_half_even_bounds (1000 * r) (h - e) ltac:(lia) ltac:(lia))
        as [[Hlo _] _].
      assert (1 <= 1000 * r / 2 ^ (h - e)); [|lia].
      apply Z.div_le_lower_bound; [apply pow2_pos; lia|].
      rewrite Z.mul_1_r. eapply Z.le_trans; [|exact HL0].
      apply Z.pow_le_mono_r; lia.
    - assert (0 < 2 ^ (e - h)) by (apply pow2_pos; lia). nia. }
  destruct (Z.eqb_spec m1 0) as [|_]; [lia|].
  replace (g + -43 + n) with h by lia.
  destruct (Z.ltb_spec m1 (2 ^ 53)) as [Hlt | Hge].
  - destruct (Z.leb_spec h 971); [|lia].
    unfold Float.round. destruct (Z.leb_spec 0 h); [lia|].
    rewrite Z2Pos.id by lia. reflexivity.
  - assert (E53 : m1 = 2 ^ 53) by lia.
    destruct (Z.leb_spec (h + 1) 971); [|lia].
    unfold Float.round. destruct (Z.leb_spec 0 (h + 1)); [lia|].
    rewrite E53. f_equal. f_equal.
    change (Zpos (Z.to_pos (2 ^ 52))) with (2 ^ 52).
    change (2 ^ 53) with (2 ^ 52 * 2 ^ 1).
    replace (- h) with (- (h + 1) + 1) by lia.
    symmetry. apply round_half_even_scale; lia.
Qed.


Lemma millis_spec (r e : Z) :
  -1074 <= e < 0 -> 0 < r < 2 ^ (- e) ->
  0 <= millis r e <= 1000 /\
  2 ^ 44 * Z.abs (millis r e * 2 ^ (- e) - 1000 * r) <= 2 ^ (- e) * (2 ^ 43 + 1).
Proof.
  intros He Hr. unfold millis, product_mantissa, product_exponent.
  set (L := Z.log2 (1000 * r)).
  assert (HP : 0 < 2 ^ (- e)) by (apply pow2_pos; lia).
  assert (HL : 0 <= L < 10 - e).
  { split; [apply Z.log2_nonneg|]. apply Z.log2_lt_pow2; [lia|].
    replace (10 - e) with (10 + - e) by lia. rewrite Z.pow_add_r by lia.
    change (2 ^ 10) with 1024. lia. }
  rewrite fexp_unfold.
  set (h := Z.max (L + 1 + e - 53) (-1074)).
  assert (Hh : -1074 <= h <= -43) by lia.
  assert (Eh : h = Z.max (L + 1 + e - 53) (-1074)) by reflexivity.
  clearbody h. clearbody L.
  set (P := 2 ^ (- e)) in *.
  assert (Hfinal : forall R y : Z,
             y = R * P - 1000 * r -> 0 <= R ->
             - (P + P / 2 ^ 43) <= 2 * y <= P + P / 2 ^ 43 ->
             0 <= R <= 1000 /\ 2 ^ 44 * Z.abs y <= P * (2 ^ 43 + 1)).
  { intros R y Ey HR Hy.
    pose proof (Z.mul_div_le P (2 ^ 43) ltac:(lia)) as Hdiv.
    pose proof (Z.div_pos P (2 ^ 43) ltac:(lia) ltac:(lia)) as Hdiv0.
    set (B := P / 2 ^ 43) in *. clearbody B.
    change (2 ^ 43) with 8796093022208 in *.
    change (2 ^ 44) with 17592186044416 in *.
    split; [|lia]. split; [lia|].
    destruct (Z.le_gt_cases R 1000) as [|Hgt]; [assumption|exfalso].
    assert (1001 * P <= R * P) by nia. lia. }
  destruct (Z.leb_spec e h) as [Hle | Hlt].
  - set (A := 2 ^ (- h)). set (B := 2 ^ (h - e)).
    assert (HA : 0 < A) by (apply pow2_pos; lia).
    assert (HB : 0 < B) by (apply pow2_pos; lia).
    assert (EP : P = A * B).
    { subst P A B. rewrite <- Z.pow_add_r by lia. f_equal. lia. }
    assert (HBP : B <= P / 2 ^ 43).
    { apply Z.div_le_lower_bound; [lia|]. subst B P.
      rewrite <- Z.pow_add_r by lia. apply Z.pow_le_mono_r; lia. }
    destruct (round_half_even_bounds (1000 * r) (h - e) ltac:(lia) ltac:(lia))
      as [[Hlo1 _] Hp1].
    fold B in Hlo1, Hp1.
    assert (Hq1 : 0 <= 1000 * r / B) by (apply Z.div_pos; lia).
    set (m1 := Float.round_half_even (1000 * r) (h - e)) in *.
    destruct (round_half_even_bounds m1 (- h) ltac:(lia) ltac:(lia))
      as [[Hlo2 _] Hp2].
    fold A in Hlo2, Hp2.
    assert (Hq2 : 0 <= m1 / A) by (apply Z.div_pos; lia).
    set (R := Float.round_half_even m1 (- h)) in *.
    apply (Hfinal R (R * P - 1000 * r) eq_refl); [lia|].
    clearbody R m1. clear Hfinal.
    assert (Hx1 : - B <= 2 * (m1 * B - 1000 * r) <= B) by lia.
    assert (Hx2 : - A <= 2 * (R * A - m1) <= A) by lia.
    clear Hp1 Hp2 Hlo1 Hlo2 Hq1 Hq2.
    assert (- (A * B) <= 2 * (R * A - m1) * B <= A * B) by nia.
    rewrite EP in *. nia.
  - set (C := 2 ^ (e - h)).
    assert (HC : 0 < C) by (apply pow2_pos; lia).
    assert (EA : 2 ^ (- h) = P * C).
    { subst P C. rewrite <- Z.pow_add_r by lia. f_equal. lia. }
    destruct (round_half_even_bounds (1000 * r * C) (- h) ltac:(nia) ltac:(lia))
      as [[Hlo2 _] Hp2].
    assert (Hq2 : 0 <= 1000 * r * C / 2 ^ (- h)).
    { apply Z.div_pos; [nia | apply pow2_pos; lia]. }
    set (R := Float.round_half_even (1000 * r * C) (- h)) in *.
    apply (Hfinal R (R * P - 1000 * r) eq_refl); [lia|].
    clearbody R. clear Hfinal. rewrite EA in Hp2.
    assert (Hx2 : - (P * C) <= 2 * (R * (P * C) - 1000 * r * C) <= P * C) by lia.
    pose proof (Z.div_pos P (2 ^ 43) ltac:(lia) ltac:(lia)).
    clear Hp2 Hlo2 Hq2. nia.
Qed.


End BinaryRounding.


Lemma bind_Ok {A B : Type} (a : A) (k : A -> result B) :
  (Ok a ≫= k) = k a.
Proof. reflexivity. Qed.


Lemma format_timestamp_zero (s : bool) :
  format_timestamp (S754_zero s) = Ok "00:00:00,000".
Proof. destruct s; reflexivity. Qed.

Lemma round_mul_zero (s : bool) :
  Float.round (Float.mul (S754_zero s) thousand) = Ok 0.
Proof. destruct s; reflexivity. Qed.

Lemma milliseconds_round (s : bool) (m : positive) (e : Z) :
  bounded Float.prec Float.emax m e = true ->
  Float.round (Float.mul (fraction s m e) thousand)
  = Ok (cond_Zopp s (milliseconds m e)).
Proof.
  intros Hb. unfold fraction, milliseconds.
  destruct (bounded_mantissa m e Hb) as (He & Hm & _).
  destruct (Z.leb_spec 0 e).
  - rewrite round_mul_zero. destruct s; reflexivity.
  - assert (Hp : 0 < 2 ^ (- e)) by (apply pow2_pos; lia).
    pose proof (Z.mod_pos_bound (Zpos m) _ Hp) as Hr.
    pose proof (Z.mod_le (Zpos m) _ ltac:(lia) Hp) as Hle.
    destruct (Z.eqb_spec (Zpos m mod 2 ^ (- e)) 0).
    + rewrite round_mul_zero. destruct s; reflexivity.
    + apply round_mul_fraction; lia.
Qed.

(** What [format_timestamp] returns on a finite float. *)
Lemma format_timestamp_finite (s : bool) (m : positive) (e : Z) :
  bounded Float.prec Float.emax m e = true ->
  format_timestamp (S754_finite s m e) =
    let total := cond_Zopp s (Z.shiftl (Zpos m) e) in
    let ms := cond_Zopp s (milliseconds m e) in
    Ok (format_0d 2 (total / 3600) ++ ":" ++ format_0d 2 ((total / 60) mod 60)
          ++ ":" ++ format_0d 2 (total mod 60) ++ "," ++ format_0d 3 ms).
Proof.
  intros Hb. unfold format_timestamp.
  destruct (sub_to_int s m e Hb) as (fi & Hfi & Hsub).
  cbn [Float.to_int]. rewrite !bind_Ok, Hfi, bind_Ok, of_int_1000, bind_Ok.
  rewrite Hsub, milliseconds_round by assumption.
  reflexivity.
Qed.

Lemma milliseconds_spec (m : positive) (e : Z) :
  bounded Float.prec Float.emax m e = true ->
  0 <= milliseconds m e <= 1000.
Proof.
  intros Hb. unfold milliseconds.
  destruct (bounded_mantissa m e Hb) as (He & Hm & _).
  destruct (Z.leb_spec 0 e); [lia|].
  assert (Hp : 0 < 2 ^ (- e)) by (apply pow2_pos; lia).
  pose proof (Z.mod_pos_bound (Zpos m) _ Hp) as Hr.
  destruct (Z.eqb_spec (Zpos m mod 2 ^ (- e)) 0); [lia|].
  apply millis_spec; lia.
Qed.

Lemma nearest_millisecond_Q (ms m : Z) (p : positive) :
  2 ^ 44 * Z.abs (ms * Zpos p - 1000 * (m mod Zpos p)) <= Zpos p * (2 ^ 43 + 1) ->
  (Qabs (inject_Z ms - 1000 * ((m # p) - inject_Z (Qfloor (m # p))))
   <= (1 # 2) + (1 # 2 ^ 44))%Q.
Proof.
  intros H. cbn [Qfloor].
  rewrite Z.mod_eq in H by lia.
  set (t := m / Zpos p) in *. clearbody t.
  unfold Qle, Qabs, Qminus, Qplus, Qmult, Qopp, inject_Z.
  cbn [Qnum Qden].
  rewrite ?Pos.mul_1_r, ?Pos.mul_1_l, ?Z.mul_1_r, ?Z.mul_1_l.
  change (2 ^ 44) with 17592186044416 in H.
  change (2 ^ 43 + 1) with 8796093022209 in H.
  change (Zpos (2 ^ 44)) with 17592186044416.
  lia.
Qed.

(** [int(x)] is the floor of a non-negative [x]. *)
Lemma to_int_floor (m : positive) (e : Z) :
  Float.to_int (S754_finite false m e)
  = Ok (Qfloor (value (S754_finite false m e))).
Proof.
  unfold Float.to_int, value. cbn [cond_Zopp]. f_equal.
  destruct (Z.leb_spec 0 e).
  - rewrite Qfloor_Z, Z.shiftl_mul_pow2 by lia. reflexivity.
  - rewrite Z.shiftl_div_pow2 by lia. cbn [Qfloor].
    rewrite Z2Pos.id by (apply pow2_pos; lia). reflexivity.
Qed.

(** The printed milliseconds are the fractional part, in milliseconds,
    rounded to the nearest integer: the distance is half a millisecond at
    most, plus the rounding of the float product. *)
Lemma milliseconds_nearest (m : positive) (e : Z) :
  bounded Float.prec Float.emax m e = true ->
  let x := S754_finite false m e in
  (Qabs (inject_Z (milliseconds m e)
         - 1000 * (value x - inject_Z (Qfloor (value x))))
   <= (1 # 2) + (1 # 2 ^ 44))%Q.
Proof.
  intros Hb x. subst x. unfold value, milliseconds. cbn [cond_Zopp].
  destruct (bounded_mantissa m e Hb) as (He & Hm & _).
  destruct (Z.leb_spec 0 e).
  - apply (nearest_millisecond_Q 0 (Zpos m * 2 ^ e) 1).
    rewrite Z.mod_1_r. simpl. lia.
  - assert (Hp : 0 < 2 ^ (- e)) by (apply pow2_pos; lia).
    apply nearest_millisecond_Q. rewrite Z2Pos.id by lia.
    pose proof (Z.mod_pos_bound (Zpos m) _ Hp) as Hr.
    destruct (Z.eqb_spec (Zpos m mod 2 ^ (- e)) 0) as [E | N].
    + rewrite E. simpl. lia.
    + apply millis_spec; lia.
Qed.

Lemma format_0d_two_digits (n : Z) :
  0 <= n < 100 -> format_0d 2 n = two_digits n.
Proof.
  intros Hn.
  assert (H : forallb (fun k => String.eqb (format_0d 2 (Z.of_nat k))
                                  (two_digits (Z.of_nat k)))
                (seq 0 100) = true) by (vm_compute; reflexivity).
  rewrite forallb_forall in H.
  specialize (H (Z.to_nat n)). rewrite Z2Nat.id in H by lia.
  apply String.eqb_eq, H, in_seq. lia.
Qed.

Lemma format_0d_three_digits (n : Z) :
  0 <= n < 1000 -> format_0d 3 n = three_digits n.
Proof.
  intros Hn.
  assert (H : forallb (fun k => String.eqb (format_0d 3 (Z.of_nat k))
                                  (three_digits (Z.of_nat k)))
                (seq 0 1000) = true) by (vm_compute; reflexivity).
  rewrite forallb_forall in H.
  specialize (H (Z.to_nat n)). rewrite Z2Nat.id in H by lia.
  apply String.eqb_eq, H, in_seq. lia.
Qed.

(** ** Strings and subtitles *)

(** *** White space *)

Lemma all_space_nil : all_space "".
Proof. constructor. Qed.

Lemma all_space_cons (c : ascii) (s : string) :
  is_space c = true -> all_space s -> all_space (String c s).
Proof. intros Hc Hs. constructor; assumption. Qed.

Lemma lstrip_spec (t : string) :
  exists l, t = l ++ lstrip t /\ all_space l /\ starts_with_space (lstrip t) = false.
Proof.
  induction t as [| c t IH]; simpl.
  - exists "". split; [reflexivity|]. split; [apply all_space_nil | reflexivity].
  - destruct (is_space c) eqn:Hc.
    + destruct IH as (l & Ht & Hl & Hs). exists (String c l).
      split; [|split; [apply all_space_cons; assumption | exact Hs]].
      change (String c l ++ lstrip t) with (String c (l ++ lstrip t)).
      rewrite <- Ht. reflexivity.
    + exists "". split; [reflexivity|]. split; [apply all_space_nil|]. exact Hc.
Qed.

Lemma rstrip_spec (t : string) :
  exists r, t = rstrip t ++ r /\ all_space r /\ ends_with_space (rstrip t) = false.
Proof.
  induction t as [| c t IH]; simpl.
  - exists "". split; [reflexivity|]. split; [apply all_space_nil | reflexivity].
  - destruct IH as (r & Ht & Hr & He).
    destruct (rstrip t) as [| d u] eqn:Eu.
    + destruct (is_space c) eqn:Hc.
      * exists (String c r). simpl in Ht. subst t.
        split; [reflexivity|]. split; [apply all_space_cons; assumption | reflexivity].
      * exists r. split; [|split; [assumption | exact Hc]].
        change (String c "" ++ r) with (String c ("" ++ r)).
        rewrite <- Ht. reflexivity.
    + exists r. split; [|split; [assumption | exact He]].
      change (String c (String d u) ++ r) with (String c (String d u ++ r)).
      rewrite <- Ht. reflexivity.
Qed.

Lemma rstrip_starts (t : string) :
  starts_with_space t = false -> starts_with_space (rstrip t) = false.
Proof.
  destruct t as [| c t]; simpl; [reflexivity|]. intros Hc.
  destruct (rstrip t); [rewrite Hc|]; exact Hc.
Qed.

(** [strip] removes white space at both ends and nothing else. *)
Lemma strip_trimmed (t : string) : trimmed t (strip t).
Proof.
  unfold trimmed, strip.
  destruct (lstrip_spec t) as (l & Ht & Hl & Hs).
  destruct (rstrip_spec (lstrip t)) as (r & Hu & Hr & He).
  split; [|split; [apply rstrip_starts; exact Hs | exact He]].
  exists l, r. split; [|split; assumption].
  rewrite <- Hu. exact Ht.
Qed.

(** *** The subtitle renderer *)

Lemma format_timestamp_total (x : Float.float) :
  Float.valid x -> Float.finite x -> exists str, format_timestamp x = Ok str.
Proof.
  intros Hv Hf. destruct x as [s | s | | s m e]; try contradiction.
  - eexists. apply format_timestamp_zero.
  - eexists. apply format_timestamp_finite. exact Hv.
Qed.

Lemma srt_lines_spec (segments : list segment) :
  Forall timed segments ->
  forall (idx : Z) (lines : list string),
  exists blocks : list (list string),
    srt_lines idx segments lines = Ok (lines ++ concat blocks)%list /\
    length blocks = length segments /\
    forall (i : nat) (seg : segment),
      segments !! i = Some seg ->
      exists start end_,
        format_timestamp (seg_start seg) = Ok start /\
        format_timestamp (seg_end seg) = Ok end_ /\
        blocks !! i =
          Some (srt_block (idx + Z.of_nat i) start end_
                  (strip (default "" (seg_text seg)))).
Proof.
  induction 1 as [| seg rest Hseg Hrest IH]; intros idx lines.
  - exists []. simpl. rewrite app_nil_r. repeat split. intros i seg Hi.
    discriminate.
  - destruct Hseg as (Hv1 & Hf1 & Hv2 & Hf2).
    destruct (format_timestamp_total _ Hv1 Hf1) as [start Hstart].
    destruct (format_timestamp_total _ Hv2 Hf2) as [end_ Hend].
    set (block := srt_block idx start end_ (strip (default "" (seg_text seg)))).
    destruct (IH (idx + 1) (lines ++ block)%list) as (blocks & Hrun & Hlen & Hblocks).
    exists (block :: blocks). split; [|split].
    + cbn [srt_lines]. rewrite Hstart, bind_Ok, Hend, bind_Ok.
      cbv zeta.
      transitivity (Ok ((lines ++ block) ++ concat blocks)%list); [exact Hrun|].
      cbn [concat]. rewrite <- app_assoc. reflexivity.
    + simpl. rewrite Hlen. reflexivity.
    + intros [| i] seg' Hi.
      * injection Hi as <-. exists start, end_.
        rewrite Z.add_0_r. repeat split; assumption.
      * destruct (Hblocks i seg' Hi) as (s' & e' & Hs' & He' & Hb).
        exists s', e'. repeat split; try assumption.
        change ((block :: blocks) !! S i) with (blocks !! i).
        rewrite Hb, Nat2Z.inj_succ. do 2 f_equal. lia.
Qed.

(** *** The shape of a time stamp *)

Lemma is_digit_digit (d : Z) : 0 <= d <= 9 -> is_digit (digit d) = true.
Proof.
  intros Hd.
  assert (H : d = 0 \/ d = 1 \/ d = 2 \/ d = 3 \/ d = 4 \/ d = 5 \/ d = 6
              \/ d = 7 \/ d = 8 \/ d = 9) by lia.
  repeat (destruct H as [-> | H]; [reflexivity|]). subst d. reflexivity.
Qed.

Lemma srt_timestamp_shape (h m s ms : Z) :
  0 <= h < 100 -> 0 <= m < 100 -> 0 <= s < 100 -> 0 <= ms < 1000 ->
  srt_shape (srt_timestamp h m s ms) = true.
Proof.
  intros Hh Hm Hs Hms. unfold srt_shape, srt_timestamp, three_digits, two_digits.
  cbv [String.append list_ascii_of_string forallb].
  assert (Hd : forall n, 0 <= n < 100 ->
                 0 <= n / 10 <= 9 /\ 0 <= n mod 10 <= 9).
  { intros n Hn. pose proof (Z.mod_pos_bound n 10 ltac:(lia)).
    pose proof (Z.div_pos n 10 ltac:(lia) ltac:(lia)).
    assert (n / 10 < 10) by (apply Z.div_lt_upper_bound; lia). lia. }
  pose proof (Z.mod_pos_bound ms 100 ltac:(lia)) as Hms'.
  assert (0 <= ms / 100 <= 9).
  { pose proof (Z.div_pos ms 100 ltac:(lia) ltac:(lia)).
    assert (ms / 100 < 10) by (apply Z.div_lt_upper_bound; lia). lia. }
  rewrite !is_digit_digit by (lia || apply Hd; lia).
  reflexivity.
Qed.

(** *** Literals

    The floats of the decimal literals, as [float.hex] shows them. *)

Example literal_3661_5 : f3661_5 = S754_finite false 8051723650203648 (-41).
Proof. reflexivity. Qed.

Example literal_59_9995 : f59_9995 = S754_finite false 8444178932575502 (-47).
Proof. reflexivity. Qed.

Example literal_59_9996 : f59_9996 = S754_finite false 8444193006324338 (-47).
Proof. reflexivity. Qed.

Example literal_0_0005 : f0_0005 = S754_finite false 4611686018427388 (-63).
Proof. reflexivity. Qed.

Example literal_minus_0_5 : fm0_5 = S754_finite true 4503599627370496 (-53).
Proof. reflexivity. Qed.

(** *** Claims on [format_timestamp] *)

Lemma nonneg_cases (x : Float.float) :
  Float.valid x -> Float.nonneg x ->
  (exists s, x = S754_zero s) \/
  (exists m e, x = S754_finite false m e /\
               bounded Float.prec Float.emax m e = true).
Proof.
  intros Hv Hn. destruct x as [s | s | | s m e]; try contradiction.
  - left. eauto.
  - right. simpl in Hn. subst s. eauto.
Qed.

Lemma clock_fields (total : Z) :
  0 <= total ->
  0 <= total / 3600 /\ 0 <= (total / 60) mod 60 < 60 /\ 0 <= total mod 60 < 60.
Proof.
  intros Ht. split; [apply Z.div_pos; lia|].
  split; apply Z.mod_pos_bound; lia.
Qed.

(** What the code prints for a non-negative float: the clock of the
    floor of the input and the milliseconds nearest to its fractional
    part. *)
Lemma format_timestamp_nonneg (x : Float.float) :
  Float.valid x -> Float.nonneg x ->
  let total := Qfloor (value x) in
  let ms := milliseconds_of x in
  0 <= total /\ 0 <= ms <= 1000 /\
  (Qabs (inject_Z ms - 1000 * (value x - inject_Z total))
   <= (1 # 2) + (1 # 2 ^ 44))%Q /\
  format_timestamp x =
    Ok (format_0d 2 (total / 3600) ++ ":" ++ two_digits ((total / 60) mod 60)
          ++ ":" ++ two_digits (total mod 60) ++ "," ++ format_0d 3 ms) /\
  (ms < 1000 -> total < 360000 ->
   format_timestamp x =
     Ok (srt_timestamp (total / 3600) ((total / 60) mod 60) (total mod 60) ms)
   /\ srt_shape (srt_timestamp (total / 3600) ((total / 60) mod 60)
                   (total mod 60) ms) = true).
Proof.
  intros Hv Hn. destruct (nonneg_cases x Hv Hn) as [[s ->] | (m & e & -> & Hb)].
  - cbv zeta. rewrite format_timestamp_zero. cbn [value milliseconds_of].
    repeat split; try reflexivity; try lia; try discriminate.
  - pose proof (to_int_floor m e) as Hfloor.
    pose proof (milliseconds_spec m e Hb) as Hms.
    pose proof (milliseconds_nearest m e Hb) as Hnear. cbv zeta in Hnear.
    pose proof (format_timestamp_finite false m e Hb) as Hfmt.
    cbv zeta in Hfmt. cbn [cond_Zopp] in Hfmt.
    cbv zeta. cbn [milliseconds_of cond_Zopp].
    assert (Et : Z.shiftl (Zpos m) e = Qfloor (value (S754_finite false m e))).
    { unfold Float.to_int in Hfloor. cbn [cond_Zopp] in Hfloor. congruence. }
    rewrite Et in Hfmt.
    set (total := Qfloor (value (S754_finite false m e))) in *.
    assert (Ht : 0 <= total) by (rewrite <- Et; apply Z.shiftl_nonneg; lia).
    destruct (clock_fields total Ht) as (Hh & Hm & Hs).
    split; [exact Ht|]. split; [exact Hms|]. split; [exact Hnear|].
    assert (Hfmt' : format_timestamp (S754_finite false m e) =
                Ok (format_0d 2 (total / 3600) ++ ":"
                      ++ two_digits ((total / 60) mod 60) ++ ":"
                      ++ two_digits (total mod 60) ++ ","
                      ++ format_0d 3 (milliseconds m e))).
    { rewrite Hfmt.
      rewrite (format_0d_two_digits ((total / 60) mod 60)) by lia.
      rewrite (format_0d_two_digits (total mod 60)) by lia. reflexivity. }
    split; [exact Hfmt'|].
    intros Hlt Hhours.
    assert (total / 3600 < 100) by (apply Z.div_lt_upper_bound; lia).
    split.
    + rewrite Hfmt'.
      rewrite (format_0d_two_digits (total / 3600)) by lia.
      rewrite format_0d_three_digits by lia. reflexivity.
    + apply srt_timestamp_shape; lia.
Qed.

(** C1 (the code departs from it). Milliseconds that round up to 1000 are
    not carried into the seconds: for every non-negative float with that
    rounding the code prints the clock of the floor of the input followed
    by [,1000]. So 59.9996 is printed as [00:00:59,1000]; and 59.9995,
    whose float lies below the tie, as [00:00:59,999]. Neither is
    [00:01:00,000]. *)
Theorem format_timestamp_no_carry :
  (forall x : Float.float,
     Float.valid x -> Float.nonneg x -> milliseconds_of x = 1000 ->
     let total := Qfloor (value x) in
     format_timestamp x =
       Ok (format_0d 2 (total / 3600) ++ ":" ++ two_digits ((total / 60) mod 60)
             ++ ":" ++ two_digits (total mod 60) ++ ",1000")) /\
  milliseconds_of f59_9996 = 1000 /\
  format_timestamp f59_9996 = Ok "00:00:59,1000" /\
  srt_shape "00:00:59,1000" = false /\
  format_timestamp f59_9995 = Ok "00:00:59,999".
Proof.
  split; [|repeat split; vm_compute; reflexivity].
  intros x Hv Hn Hms.
  destruct (format_timestamp_nonneg x Hv Hn) as (_ & _ & _ & Hfmt & _).
  cbv zeta. rewrite Hfmt, Hms. reflexivity.
Qed.

Lemma format_timestamp_no_carry_witness :
  format_timestamp f59_9996 = Ok "00:00:59,1000".
Proof.
  exact (proj1 format_timestamp_no_carry f59_9996 eq_refl eq_refl eq_refl).
Defined.

(** C7 (amended). [format_timestamp(0.0)] and [format_timestamp(3661.5)]
    are as stated. For every non-negative float the code prints the hours,
    minutes and seconds of the floor of the input, the hours padded with
    zeros to two digits at least, minutes and seconds on two digits, and
    milliseconds that are the fractional part rounded to the nearest
    millisecond (up to the rounding of the float product, 2^-44 ms). When
    those are below 1000 and the input is below 360000 seconds, the result
    is the twelve characters [HH:MM:SS,mmm]. *)
Theorem format_timestamp_encoding :
  format_timestamp f0 = Ok "00:00:00,000" /\
  format_timestamp f3661_5 = Ok "01:01:01,500" /\
  forall x : Float.float,
    Float.valid x -> Float.nonneg x ->
    let total := Qfloor (value x) in
    let ms := milliseconds_of x in
    0 <= total /\ 0 <= ms <= 1000 /\
    (Qabs (inject_Z ms - 1000 * (value x - inject_Z total))
     <= (1 # 2) + (1 # 2 ^ 44))%Q /\
    format_timestamp x =
      Ok (format_0d 2 (total / 3600) ++ ":" ++ two_digits ((total / 60) mod 60)
            ++ ":" ++ two_digits (total mod 60) ++ "," ++ format_0d 3 ms) /\
    (ms < 1000 -> total < 360000 ->
     format_timestamp x =
       Ok (srt_timestamp (total / 3600) ((total / 60) mod 60) (total mod 60) ms)
     /\ srt_shape (srt_timestamp (total / 3600) ((total / 60) mod 60)
                     (total mod 60) ms) = true).
Proof.
  split; [reflexivity|]. split; [vm_compute; reflexivity|].
  exact format_timestamp_nonneg.
Qed.

Lemma format_timestamp_encoding_witness :
  milliseconds_of f3661_5 < 1000 /\ Qfloor (value f3661_5) < 360000 /\
  format_timestamp f3661_5 = Ok (srt_timestamp 1 1 1 500).
Proof.
  split; [reflexivity|]. split; [reflexivity|].
  destruct (proj2 (proj2 format_timestamp_encoding) f3661_5 eq_refl eq_refl)
    as (_ & _ & _ & _ & Hshape).
  destruct (Hshape eq_refl eq_refl) as [Hfmt _]. exact Hfmt.
Defined.

(** C7 (as stated, it fails). From 100 hours on the hours take three
    digits: 360000.0 is printed as [100:00:00,000]. And the product by 1000
    is rounded before [round] sees it: the fractional part of the float
    0.0005 is above half a millisecond, so the nearest millisecond is 1,
    and the code prints 000. *)
Lemma format_timestamp_encoding_fails :
  (Float.nonneg f360000 /\ milliseconds_of f360000 < 1000 /\
   format_timestamp f360000 = Ok "100:00:00,000" /\
   srt_shape "100:00:00,000" = false) /\
  (Float.nonneg f0_0005 /\
   (1 # 2 < 1000 * (value f0_0005 - inject_Z (Qfloor (value f0_0005))))%Q /\
   (1000 * (value f0_0005 - inject_Z (Qfloor (value f0_0005))) < 1)%Q /\
   format_timestamp f0_0005 = Ok "00:00:00,000").
Proof. repeat split; vm_compute; reflexivity. Qed.

(** C10 (amended). [format_timestamp] returns a string on every finite
    float, negative ones included; on -0.5 the string is [00:00:00,-500],
    which is not of the shape [HH:MM:SS,mmm]. *)
Theorem format_timestamp_total_on_finite :
  (forall x : Float.float,
     Float.valid x -> Float.finite x -> exists str, format_timestamp x = Ok str) /\
  format_timestamp fm0_5 = Ok "00:00:00,-500" /\
  srt_shape "00:00:00,-500" = false.
Proof.
  split; [exact format_timestamp_total|]. split; vm_compute; reflexivity.
Qed.

Lemma format_timestamp_total_on_finite_witness :
  exists str, format_timestamp fm0_5 = Ok str.
Proof.
  exact (proj1 format_timestamp_total_on_finite fm0_5 eq_refl I).
Defined.

(** C10 (as stated, it fails). On NaN, [int(seconds)] raises. *)
Lemma format_timestamp_nan_raises :
  format_timestamp S754_nan
  = Raise (ValueError "cannot convert float NaN to integer").
Proof. reflexivity. Qed.

(** C4. For a list of segments with finite time stamps the document is the
    blocks of the segments, in order and joined by newlines; the block of
    the segment at position [i] is the index [i + 1], the range built from
    [format_timestamp] of its start and end, its text without the white
    space around it, and an empty line. The empty list gives the empty
    document. *)
Theorem segments_to_srt_blocks :
  (forall segments : list segment,
     Forall timed segments ->
     exists blocks : list (list string),
       segments_to_srt segments = Ok (join newline (concat blocks)) /\
       length blocks = length segments /\
       forall (i : nat) (seg : segment),
         segments !! i = Some seg ->
         exists start end_,
           format_timestamp (seg_start seg) = Ok start /\
           format_timestamp (seg_end seg) = Ok end_ /\
           blocks !! i =
             Some (srt_block (Z.of_nat i + 1) start end_
                     (strip (default "" (seg_text seg)))) /\
           trimmed (default "" (seg_text seg))
             (strip (default "" (seg_text seg)))) /\
  segments_to_srt [] = Ok "".
Proof.
  split; [|reflexivity].
  intros segments Htimed.
  destruct (srt_lines_spec segments Htimed 1 []) as (blocks & Hrun & Hlen & Hblocks).
  exists blocks. split; [|split; [exact Hlen|]].
  - unfold segments_to_srt. rewrite Hrun, bind_Ok. reflexivity.
  - intros i seg Hi. destruct (Hblocks i seg Hi) as (start & end_ & Hs & He & Hb).
    exists start, end_. repeat split; try assumption.
    + rewrite Hb. do 2 f_equal. lia.
    + apply strip_trimmed.
    + apply strip_trimmed.
    + apply strip_trimmed.
Qed.

Lemma demo_segments_timed : Forall timed demo_segments.
Proof. repeat constructor. Qed.

Lemma segments_to_srt_blocks_witness :
  exists blocks : list (list string),
    segments_to_srt demo_segments = Ok (join newline (concat blocks)) /\
    length blocks = 2%nat.
Proof.
  destruct (proj1 segments_to_srt_blocks demo_segments demo_segments_timed)
    as (blocks & Hrun & Hlen & _).
  exists blocks. split; [exact Hrun | exact Hlen].
Defined.

(** ** The application *)

(** *** The decoder lookup *)

Section Decoder.

Variable w : world.

Lemma set_ffmpeg_path_available (env : gmap string string) :
  is_ffmpeg_available w env = true -> set_ffmpeg_path w env = Ok env.
Proof. intros H. unfold set_ffmpeg_path. rewrite H. reflexivity. Qed.

Lemma set_ffmpeg_path_missing (env : gmap string string) (path : string) :
  is_ffmpeg_available w env = false -> env !! "PATH" = Some path ->
  set_ffmpeg_path w env
  = Ok (<["PATH" := ffmpeg_dir ++ pathsep w ++ path]> env).
Proof. intros H Hp. unfold set_ffmpeg_path. rewrite H, Hp. reflexivity. Qed.

Lemma set_ffmpeg_path_raises (env : gmap string string) :
  raises (set_ffmpeg_path w env) <->
  is_ffmpeg_available w env = false /\ env !! "PATH" = None.
Proof.
  unfold set_ffmpeg_path.
  destruct (is_ffmpeg_available w env); simpl; [intuition discriminate|].
  destruct (env !! "PATH"); simpl; intuition discriminate.
Qed.

End Decoder.

(** C9 (amended). [set_ffmpeg_path] leaves the environment as it is when
    ffmpeg is found; when it is not found and PATH is set, it puts the one
    fixed directory and the separator in front of PATH and changes no other
    variable, whether or not that directory exists (the file store is not
    consulted); it raises exactly when ffmpeg is not found and PATH is
    unset. *)
Theorem set_ffmpeg_path_frame (w : world) (env : gmap string string) :
  (is_ffmpeg_available w env = true -> set_ffmpeg_path w env = Ok env) /\
  (is_ffmpeg_available w env = false ->
   forall path, env !! "PATH" = Some path ->
   exists env',
     set_ffmpeg_path w env = Ok env' /\
     env' !! "PATH" = Some (ffmpeg_dir ++ pathsep w ++ path) /\
     forall k, k <> "PATH" -> env' !! k = env !! k) /\
  (raises (set_ffmpeg_path w env) <->
   is_ffmpeg_available w env = false /\ env !! "PATH" = None).
Proof.
  split; [apply set_ffmpeg_path_available|]. split.
  - intros Hna path Hp. eexists. split; [apply set_ffmpeg_path_missing; eassumption|].
    split; [apply lookup_insert_eq|].
    intros k Hk. apply lookup_insert_ne. congruence.
  - apply set_ffmpeg_path_raises.
Qed.

Lemma set_ffmpeg_path_frame_witness :
  is_ffmpeg_available (demo_world None None None None (Ok demo_transcript))
    demo_environ = false /\
  exists env',
    set_ffmpeg_path (demo_world None None None None (Ok demo_transcript))
      demo_environ = Ok env' /\
    env' !! "PATH" = Some "C:\ffmpeg-8.0-full_build\bin;C:\Windows".
Proof.
  split; [reflexivity|].
  destruct (proj1 (proj2 (set_ffmpeg_path_frame
                            (demo_world None None None None (Ok demo_transcript))
                            demo_environ))
              eq_refl "C:\Windows" eq_refl) as (env' & Hset & Hpath & _).
  exists env'. split; [exact Hset | exact Hpath].
Defined.

(** C9 (as stated, it fails). With PATH unset and ffmpeg not found, the
    call raises [KeyError]. *)
Lemma set_ffmpeg_path_keyerror :
  set_ffmpeg_path (demo_world None None None None (Ok demo_transcript)) ∅
  = Raise (KeyError "PATH").
Proof. reflexivity. Qed.

(** *** The model cache *)

Section Registry.

Variable w : world.

Lemma load_whisper_model_eq (v : string) (σ : state) :
  load_whisper_model w v σ =
    match cache σ !! v with
    | Some h => (Done h, σ)
    | None =>
        match load_model_error w (load_log σ) v with
        | Some e =>
            (Raised e,
             add_element
               (st_error ("Failed to load Whisper model '" ++ v ++ "': "
                            ++ exn_str e))
               (log_load v σ))
        | None =>
            (Done (length (models σ)),
             with_cache (<[v := length (models σ)]> (cache σ))
               (new_model v (log_load v σ)))
        end
    end.
Proof.
  unfold load_whisper_model, cache_resource, try_except, whisper_load_model.
  unfold mbind, M_bind, get, modify, show, raise, mret, M_ret, set_cache.
  cbn. destruct (cache σ !! v); [reflexivity|].
  destruct (load_model_error w (load_log σ) v); reflexivity.
Qed.

Lemma load_whisper_model_hit (v : string) (σ : state) (h : handle) :
  cache σ !! v = Some h -> load_whisper_model w v σ = (Done h, σ).
Proof. intros H. rewrite load_whisper_model_eq, H. reflexivity. Qed.

Lemma load_whisper_model_cached_after (v : string) (σ σ1 : state) (h : handle) :
  load_whisper_model w v σ = (Done h, σ1) -> cache σ1 !! v = Some h.
Proof.
  rewrite load_whisper_model_eq.
  destruct (cache σ !! v) as [h' |] eqn:Hc.
  - intros [= <- <-]. exact Hc.
  - destruct (load_model_error w (load_log σ) v); [discriminate|].
    intros [= <- <-]. cbn. apply lookup_insert_eq.
Qed.

Lemma repeat_load_hit (n : nat) (v : string) (σ : state) (h : handle) :
  cache σ !! v = Some h ->
  repeat_load w n v σ = (replicate n (Done h), σ).
Proof.
  intros H. induction n as [| n IH]; [reflexivity|].
  cbn [repeat_load]. rewrite (load_whisper_model_hit v σ h H), IH. reflexivity.
Qed.

End Registry.

(** C5. When a call of [load_whisper_model] returns a handle, any number
    of calls in a row with that variant return that same object and end in
    the state the first call left: later calls run no [whisper.load_model]
    and create no model object. The first call loads once when the variant
    had no entry, and not at all when it had one. *)
Theorem load_whisper_model_cached (w : world) (v : string) (σ σ1 : state)
    (h : handle) :
  load_whisper_model w v σ = (Done h, σ1) ->
  (forall n, repeat_load w (S n) v σ = (replicate (S n) (Done h), σ1)) /\
  (cache σ !! v = None ->
   load_log σ1 = (load_log σ ++ [v])%list /\
   models σ1 = (models σ ++ [v])%list /\ models σ1 !! h = Some v) /\
  (is_Some (cache σ !! v) -> σ1 = σ).
Proof.
  intros Hrun. split; [|split].
  - intros n. cbn [repeat_load]. rewrite Hrun.
    rewrite (repeat_load_hit w n v σ1 h); [reflexivity|].
    eapply load_whisper_model_cached_after. exact Hrun.
  - intros Hmiss. rewrite load_whisper_model_eq, Hmiss in Hrun.
    destruct (load_model_error w (load_log σ) v); [discriminate|].
    injection Hrun as <- <-. cbn. repeat split.
    rewrite lookup_app_r by lia. rewrite Nat.sub_diag. reflexivity.
  - intros [h' Hhit]. rewrite load_whisper_model_eq, Hhit in Hrun.
    congruence.
Qed.

Lemma load_whisper_model_cached_witness :
  repeat_load (demo_world None None None None (Ok demo_transcript)) 2 "base"
    (demo_state demo_environ)
  = ([Done 0%nat; Done 0%nat],
     snd (load_whisper_model (demo_world None None None None (Ok demo_transcript))
            "base" (demo_state demo_environ)))
  /\ load_log
       (snd (load_whisper_model (demo_world None None None None (Ok demo_transcript))
               "base" (demo_state demo_environ)))
     = ["base"].
Proof.
  destruct (load_whisper_model_cached
              (demo_world None None None None (Ok demo_transcript)) "base"
              (demo_state demo_environ)
              (snd (load_whisper_model
                      (demo_world None None None None (Ok demo_transcript))
                      "base" (demo_state demo_environ)))
              0%nat eq_refl)
    as (Hrep & Hmiss & _).
  split; [exact (Hrep 1%nat)|].
  destruct (Hmiss eq_refl) as (Hlog & _). exact Hlog.
Defined.

(** *** Running the script *)

Lemma bind_Done {A B : Type} (c : M A) (k : A -> M B) (σ σ1 : state) (a : A) :
  c σ = (Done a, σ1) -> (c ≫= k) σ = k a σ1.
Proof. intros H. unfold mbind, M_bind. rewrite H. reflexivity. Qed.

Lemma bind_Raised {A B : Type} (c : M A) (k : A -> M B) (σ σ1 : state) (e : exn) :
  c σ = (Raised e, σ1) -> (c ≫= k) σ = (Raised e, σ1).
Proof. intros H. unfold mbind, M_bind. rewrite H. reflexivity. Qed.

Lemma bind_Stopped {A B : Type} (c : M A) (k : A -> M B) (σ σ1 : state) :
  c σ = (Stopped, σ1) -> (c ≫= k) σ = (Stopped, σ1).
Proof. intros H. unfold mbind, M_bind. rewrite H. reflexivity. Qed.



Lemma extends_refl (σ : state) : extends σ σ.
Proof. split; [reflexivity|]. exists []. rewrite app_nil_r. reflexivity. Qed.

Lemma extends_trans (σ1 σ2 σ3 : state) :
  extends σ1 σ2 -> extends σ2 σ3 -> extends σ1 σ3.
Proof.
  intros [Hf1 [l1 Hp1]] [Hf2 [l2 Hp2]]. split; [congruence|].
  exists (l1 ++ l2)%list. rewrite Hp2, Hp1, app_assoc. reflexivity.
Qed.

Lemma extends_add (e : element) (σ : state) : extends σ (add_element e σ).
Proof. split; [reflexivity|]. exists [e]. reflexivity. Qed.

Lemma extends_elem (σ σ' : state) (e : element) :
  extends σ σ' -> e ∈ page σ -> e ∈ page σ'.
Proof. intros [_ [l Hp]] He. rewrite Hp. apply elem_of_app. left. exact He. Qed.

Lemma elem_add (e : element) (σ : state) : e ∈ page (add_element e σ).
Proof. cbn. apply elem_of_app. right. apply list_elem_of_singleton. reflexivity. Qed.

Lemma show_eq (e : element) (σ : state) : show e σ = (Done tt, add_element e σ).
Proof. reflexivity. Qed.

Section Components.

Variable w : world.


Lemma stage_eq (up : upload) (σ : state) :
  stage w up σ =
    match named_temporary_file w (staging_suffix w up) (files σ) with
    | Raise e => (Raised e, σ)
    | Ok p =>
        match write_error w p (buffer up) with
        | Some e =>
            (Raised e,
             add_element
               (st_error ("Failed to save uploaded file to disk: " ++ exn_str e))
               (with_files (<[p := []]> (files σ)) σ))
        | None =>
            (Done p,
             with_files (<[p := buffer up]> (<[p := []]> (files σ)))
               (with_files (<[p := []]> (files σ)) σ))
        end
    end.
Proof.
  unfold stage, staging_suffix, try_except, lift, set_files, show, raise.
  unfold mbind, M_bind, get, modify, mret, M_ret. cbn.
  destruct (named_temporary_file w _ (files σ)) as [p | e]; [|reflexivity].
  destruct (write_error w p (buffer up)); reflexivity.
Qed.

Lemma stage_done (up : upload) (σ σ1 : state) (p : string) :
  stage w up σ = (Done p, σ1) ->
  files σ1 !! p = Some (buffer up) /\ page σ1 = page σ /\
  cache σ1 = cache σ /\ load_log σ1 = load_log σ /\ models σ1 = models σ /\
  rng σ1 = rng σ /\ environ σ1 = environ σ.
Proof.
  rewrite stage_eq.
  destruct (named_temporary_file w _ (files σ)) as [p' | e]; [|discriminate].
  destruct (write_error w p' (buffer up)); [discriminate|].
  intros [= <- <-]. cbn. split; [apply lookup_insert_eq|]. repeat split.
Qed.

Lemma cleanup_eq (p : string) (σ : state) :
  cleanup w p σ =
    match files σ !! p, remove_error w p with
    | Some _, None => (Done tt, with_files (delete p (files σ)) σ)
    | _, _ => (Done tt, σ)
    end.
Proof.
  unfold cleanup, try_except, os_remove, set_files, raise.
  unfold mbind, M_bind, get, modify, mret, M_ret. cbn.
  destruct (files σ !! p); [|reflexivity].
  destruct (remove_error w p); reflexivity.
Qed.

(** The cleanup never raises; it removes the file unless [os.remove]
    fails. *)
Lemma cleanup_spec (p : string) (σ : state) :
  exists σ',
    cleanup w p σ = (Done tt, σ') /\
    page σ' = page σ /\
    (remove_error w p = None -> files σ' !! p = None).
Proof.
  rewrite cleanup_eq.
  destruct (files σ !! p) as [b |] eqn:Hf; [destruct (remove_error w p) eqn:Hr|];
    eexists; (split; [reflexivity|]); cbn; (split; [reflexivity|]).
  - discriminate.
  - intros _. apply lookup_delete_eq.
  - intros _. exact Hf.
Qed.

Lemma model_transcribe_eq (m : handle) (p : string) (opts : transcribe_options)
    (σ : state) :
  model_transcribe w m p opts σ =
    match models σ !! m, files σ !! p with
    | Some variant, Some audio =>
        match engine w variant audio opts (rng σ) with
        | Ok t => (Done t, with_rng (S (rng σ)) σ)
        | Raise e => (Raised e, with_rng (S (rng σ)) σ)
        end
    | Some _, None =>
        (Raised (RuntimeError "Failed to load audio"), with_rng (S (rng σ)) σ)
    | None, _ => (Raised (OtherError "not a model"), with_rng (S (rng σ)) σ)
    end.
Proof.
  unfold model_transcribe, set_rng, lift, raise.
  unfold mbind, M_bind, get, modify. cbn.
  destruct (models σ !! m); [|reflexivity].
  destruct (files σ !! p); [|reflexivity].
  destruct (engine w _ _ opts (rng σ)); reflexivity.
Qed.


Lemma invoke_eq (m : handle) (p : string) (σ : state) :
  invoke w m p σ =
    match model_transcribe w m p en_options σ with
    | (Done t, σ1) => (Done (Some t), σ1)
    | (Raised e, σ1) => (Done None, add_element (transcription_error e) σ1)
    | (Stopped, σ1) => (Stopped, σ1)
    end.
Proof.
  unfold invoke, try_except. unfold mbind at 1. unfold M_bind.
  destruct (model_transcribe w m p en_options σ) as [[t | e |] σ1];
    try reflexivity.
  destruct e; reflexivity.
Qed.

End Components.

Lemma timedelta_str_ok (i : Z) :
  in_timedelta_range i -> exists s, timedelta_str i = Ok s.
Proof.
  intros [Hlo Hhi]. unfold timedelta_str.
  destruct (Z.ltb_spec (i / 86400) (-2147483648)); [lia|].
  destruct (Z.ltb_spec 2147483647 (i / 86400)); [lia|]. simpl orb.
  destruct (Z.ltb_spec (i / 86400) (-999999999)); [lia|].
  destruct (Z.ltb_spec 999999999 (i / 86400)); [lia|]. simpl orb.
  destruct (i / 86400 =? 0); eauto.
Qed.

Lemma timedelta_str_range (i : Z) (s : string) :
  timedelta_str i = Ok s -> in_timedelta_range i.
Proof.
  unfold timedelta_str, in_timedelta_range.
  destruct ((i / 86400 <? -2147483648) || (2147483647 <? i / 86400));
    [discriminate|].
  destruct (Z.ltb_spec (i / 86400) (-999999999)); [discriminate|].
  destruct (Z.ltb_spec 999999999 (i / 86400)); [discriminate|].
  intros _. lia.
Qed.

Section Rendering.

Variable w : world.

Lemma show_segment_lines_ok (segments : list segment) :
  Forall displayable segments ->
  forall σ, exists σ',
    show_segment_lines segments σ = (Done tt, σ') /\ extends σ σ'.
Proof.
  induction 1 as [| seg rest Hseg Hrest IH]; intros σ.
  - exists σ. split; [reflexivity | apply extends_refl].
  - destruct Hseg as [(i & Hi & Hri) (j & Hj & Hrj)].
    destruct (timedelta_str_ok i Hri) as [a Ha].
    destruct (timedelta_str_ok j Hrj) as [b Hb].
    cbn [show_segment_lines].
    rewrite Hi, Hj, !bind_Ok, Ha, Hb.
    erewrite bind_Done by reflexivity.
    erewrite bind_Done by reflexivity.
    erewrite bind_Done by apply show_eq.
    destruct (IH (add_element
                    (st_markdown ("**" ++ a ++ " " ++ arrow ++ " " ++ b ++ "**  "
                       ++ newline ++ strip (default "" (seg_text seg)))) σ))
      as (σ' & Hrun & Hext).
    exists σ'. split; [exact Hrun|].
    eapply extends_trans; [apply extends_add | exact Hext].
Qed.

Lemma srt_download_eq (up : upload) (segments : list segment) (σ : state) :
  exists e,
    try_except
      (srt_content ← lift (segments_to_srt segments);
       show (st_download_button "Download SRT" srt_content
               (path_stem w (name up) ++ ".srt") "text/plain"))
      (fun e => show (st_error ("Failed to create SRT download: " ++ exn_str e))) σ
    = (Done tt, add_element e σ).
Proof.
  unfold try_except, lift. unfold mbind, M_bind.
  destruct (segments_to_srt segments); eexists; reflexivity.
Qed.

Lemma render_ok (inp : inputs) (up : upload) (t : transcript) (σ : state) :
  Forall displayable (default [] (result_segments t)) ->
  exists σ',
    render w inp up t σ = (Done tt, σ') /\ extends σ σ' /\
    st_success "Transcription finished." ∈ page σ' /\
    st_text_area "Transcript" (strip (default "" (result_text t))) ∈ page σ'.
Proof.
  intros Hsegs. unfold render. cbv zeta.
  set (segments := default [] (result_segments t)) in *.
  set (text := strip (default "" (result_text t))).
  erewrite bind_Done by apply show_eq.
  erewrite bind_Done by apply show_eq.
  erewrite bind_Done by apply show_eq.
  set (σ3 := add_element (st_text_area "Transcript" text)
               (add_element (st_subheader "Full Transcript (English)")
                  (add_element (st_success "Transcription finished.") σ))).
  assert (H3 : extends σ σ3 /\
               st_success "Transcription finished." ∈ page σ3 /\
               st_text_area "Transcript" text ∈ page σ3).
  { split; [|split].
    - eapply extends_trans; [apply extends_add|].
      eapply extends_trans; apply extends_add.
    - eapply extends_elem; [|apply elem_add].
      eapply extends_trans; apply extends_add.
    - apply elem_add. }
  destruct H3 as (Hext3 & Hsucc & Harea). clearbody σ3.
  assert (H4 : exists σ4,
             (if show_segments inp && nonempty segments
              then show (st_subheader "Segments");; show_segment_lines segments
              else mret tt) σ3 = (Done tt, σ4) /\ extends σ3 σ4).
  { destruct (show_segments inp && nonempty segments).
    - erewrite bind_Done by apply show_eq.
      destruct (show_segment_lines_ok segments Hsegs
                  (add_element (st_subheader "Segments") σ3)) as (σ4 & Hrun & Hext).
      exists σ4. split; [exact Hrun|].
      eapply extends_trans; [apply extends_add | exact Hext].
    - exists σ3. split; [reflexivity | apply extends_refl]. }
  destruct H4 as (σ4 & Hrun4 & Hext4).
  erewrite bind_Done by exact Hrun4.
  assert (H5 : exists σ5,
             (if enable_txt_download inp
              then try_except
                     (show (st_download_button "Download TXT" text
                              (path_stem w (name up) ++ ".txt") "text/plain"))
                     (fun e => show (st_error ("Failed to create TXT download: "
                                                 ++ exn_str e)))
              else mret tt) σ4 = (Done tt, σ5) /\ extends σ4 σ5).
  { destruct (enable_txt_download inp).
    - eexists. split; [reflexivity | apply extends_add].
    - exists σ4. split; [reflexivity | apply extends_refl]. }
  destruct H5 as (σ5 & Hrun5 & Hext5).
  erewrite bind_Done by exact Hrun5.
  assert (H6 : exists σ6,
             (if enable_srt_download inp && nonempty segments
              then try_except
                     (srt_content ← lift (segments_to_srt segments);
                      show (st_download_button "Download SRT" srt_content
                              (path_stem w (name up) ++ ".srt") "text/plain"))
                     (fun e => show (st_error ("Failed to create SRT download: "
                                                 ++ exn_str e)))
              else mret tt) σ5 = (Done tt, σ6) /\ extends σ5 σ6).
  { destruct (enable_srt_download inp && nonempty segments).
    - destruct (srt_download_eq up segments σ5) as [e He].
      eexists. split; [exact He | apply extends_add].
    - exists σ5. split; [reflexivity | apply extends_refl]. }
  destruct H6 as (σ6 & Hrun6 & Hext6).
  exists σ6. split; [exact Hrun6|].
  assert (Hext : extends σ3 σ6).
  { eapply extends_trans; [exact Hext4|].
    eapply extends_trans; [exact Hext5 | exact Hext6]. }
  split; [eapply extends_trans; eassumption|].
  split; eapply extends_elem; eassumption.
Qed.

End Rendering.

(** *** Where a run can stop

    [st.stop()] is called at one place, in the handler of the model load.
    Nothing else stops a run. *)

Lemma bind_not_stopped {A B : Type} (c : M A) (k : A -> M B) :
  (forall σ σ', c σ <> (Stopped, σ')) ->
  (forall a σ σ', k a σ <> (Stopped, σ')) ->
  forall σ σ', (c ≫= k) σ <> (Stopped, σ').
Proof.
  intros Hc Hk σ σ'. unfold mbind, M_bind.
  destruct (c σ) as [[a | e |] σ1] eqn:Hrun.
  - apply Hk.
  - discriminate.
  - exfalso. exact (Hc σ σ1 Hrun).
Qed.

Lemma try_except_not_stopped {A : Type} (c : M A) (h : exn -> M A) :
  (forall σ σ', c σ <> (Stopped, σ')) ->
  (forall e σ σ', h e σ <> (Stopped, σ')) ->
  forall σ σ', try_except c h σ <> (Stopped, σ').
Proof.
  intros Hc Hh σ σ'. unfold try_except.
  destruct (c σ) as [[a | e |] σ1] eqn:Hrun.
  - discriminate.
  - apply Hh.
  - rewrite <- Hrun. apply Hc.
Qed.

Lemma show_not_stopped (e : element) (σ σ' : state) : show e σ <> (Stopped, σ').
Proof. discriminate. Qed.

Lemma lift_not_stopped {A : Type} (r : result A) (σ σ' : state) :
  lift r σ <> (Stopped, σ').
Proof. destruct r; discriminate. Qed.

Lemma mret_not_stopped {A : Type} (a : A) (σ σ' : state) :
  (mret a : M A) σ <> (Stopped, σ').
Proof. discriminate. Qed.

Lemma show_segment_lines_not_stopped (segments : list segment) (σ σ' : state) :
  show_segment_lines segments σ <> (Stopped, σ').
Proof.
  revert σ σ'. induction segments as [| seg rest IH]; [discriminate|].
  cbn [show_segment_lines].
  apply bind_not_stopped; [intros; apply lift_not_stopped|]. intros a.
  apply bind_not_stopped; [intros; apply lift_not_stopped|]. intros b.
  apply bind_not_stopped; [intros; apply show_not_stopped|]. intros _.
  exact IH.
Qed.

Lemma render_not_stopped (w : world) (inp : inputs) (up : upload)
    (t : transcript) (σ σ' : state) :
  render w inp up t σ <> (Stopped, σ').
Proof.
  revert σ σ'. unfold render. cbv zeta.
  apply bind_not_stopped; [intros; apply show_not_stopped|]. intros _.
  apply bind_not_stopped; [intros; apply show_not_stopped|]. intros _.
  apply bind_not_stopped; [intros; apply show_not_stopped|]. intros _.
  apply bind_not_stopped.
  { destruct (show_segments inp && nonempty (default [] (result_segments t))).
    - apply bind_not_stopped; [intros; apply show_not_stopped|]. intros _.
      apply show_segment_lines_not_stopped.
    - intros; apply mret_not_stopped. }
  intros _.
  apply bind_not_stopped.
  { destruct (enable_txt_download inp).
    - apply try_except_not_stopped; intros; apply show_not_stopped.
    - intros; apply mret_not_stopped. }
  intros _.
  destruct (enable_srt_download inp && nonempty (default [] (result_segments t))).
  - apply try_except_not_stopped; [|intros; apply show_not_stopped].
    apply bind_not_stopped; [intros; apply lift_not_stopped|].
    intros; apply show_not_stopped.
  - intros; apply mret_not_stopped.
Qed.

Section Transcription.

Variable w : world.

Lemma load_spec (v : string) (σ : state) :
  (exists h σ', load_whisper_model w v σ = (Done h, σ') /\ extends σ σ') \/
  (exists e σ',
     load_whisper_model w v σ = (Raised e, σ') /\ extends σ σ' /\
     cache σ !! v = None /\ load_model_error w (load_log σ) v = Some e /\
     st_error ("Failed to load Whisper model '" ++ v ++ "': " ++ exn_str e)
       ∈ page σ').
Proof.
  rewrite load_whisper_model_eq.
  destruct (cache σ !! v) as [h |].
  - left. exists h, σ. split; [reflexivity | apply extends_refl].
  - destruct (load_model_error w (load_log σ) v) as [e |].
    + right. eexists _, _. split; [reflexivity|].
      split; [split; [reflexivity | eexists; reflexivity]|].
      repeat split. apply elem_add.
    + left. eexists _, _. split; [reflexivity|].
      split; [reflexivity | exists []; cbn; rewrite app_nil_r; reflexivity].
Qed.

Lemma invoke_spec (m : handle) (p : string) (σ : state) :
  exists r σ',
    invoke w m p σ = (Done r, σ') /\ extends σ σ' /\
    (forall t, r = Some t ->
       exists variant audio n, engine w variant audio en_options n = Ok t) /\
    (r = None ->
       exists e σ1, model_transcribe w m p en_options σ = (Raised e, σ1) /\
                    transcription_error e ∈ page σ').
Proof.
  rewrite invoke_eq.
  assert (Hrng : extends σ (with_rng (S (rng σ)) σ)).
  { split; [reflexivity|]. exists []. cbn. rewrite app_nil_r. reflexivity. }
  assert (Hfail : forall e,
             model_transcribe w m p en_options σ
             = (Raised e, with_rng (S (rng σ)) σ) ->
             exists r σ',
               (Done None, add_element (transcription_error e)
                             (with_rng (S (rng σ)) σ)) = (Done r, σ') /\
               extends σ σ' /\
               (forall t, r = Some t ->
                  exists variant audio n,
                    engine w variant audio en_options n = Ok t) /\
               (r = None ->
                  exists e' σ1,
                    model_transcribe w m p en_options σ = (Raised e', σ1) /\
                    transcription_error e' ∈ page σ')).
  { intros e He. eexists _, _. split; [reflexivity|]. split; [|split].
    - eapply extends_trans; [exact Hrng | apply extends_add].
    - discriminate.
    - intros _. exists e, (with_rng (S (rng σ)) σ). split; [exact He | apply elem_add]. }
  pose proof (model_transcribe_eq w m p en_options σ) as Heq.
  destruct (models σ !! m) as [variant |]; [destruct (files σ !! p) as [audio |]|].
  - destruct (engine w variant audio en_options (rng σ)) as [t | e] eqn:Heng.
    + rewrite Heq. eexists _, _. split; [reflexivity|]. split; [exact Hrng|].
      split; [|discriminate]. intros t' [= <-]. eauto.
    + rewrite Heq in Hfail |- *. apply Hfail. reflexivity.
  - rewrite Heq in Hfail |- *. apply Hfail. reflexivity.
  - rewrite Heq in Hfail |- *. apply Hfail. reflexivity.
Qed.

(** Transcribing and showing the outcome never stops the run. *)
Lemma respond_not_stopped (inp : inputs) (up : upload) (m : handle) (p : string)
    (σ σ' : state) :
  respond w inp up m p σ <> (Stopped, σ').
Proof.
  unfold respond.
  destruct (invoke_spec m p σ) as (r & σ1 & Hinv & _).
  erewrite bind_Done by exact Hinv.
  destruct r as [t |]; [apply render_not_stopped | discriminate].
Qed.

(** With segments that can be shown, it ends normally, with the transcript
    or with the error and the warning on the page. *)
Lemma respond_spec (inp : inputs) (up : upload) (m : handle) (p : string)
    (σ : state) :
  engine_displayable w ->
  exists σ',
    respond w inp up m p σ = (Done tt, σ') /\
    extends σ σ' /\
    ((exists t σ1,
        model_transcribe w m p en_options σ = (Done t, σ1) /\
        st_success "Transcription finished." ∈ page σ' /\
        st_text_area "Transcript" (strip (default "" (result_text t))) ∈ page σ')
     \/
     (exists e σ1,
        model_transcribe w m p en_options σ = (Raised e, σ1) /\
        transcription_error e ∈ page σ' /\
        transcription_failed_warning ∈ page σ')).
Proof.
  intros Hdisp. unfold respond.
  destruct (invoke_spec m p σ) as (r & σ1 & Hinv & Hext1 & Hsome & Hnone).
  erewrite bind_Done by exact Hinv.
  destruct r as [t |].
  - destruct (Hsome t eq_refl) as (variant & audio & n & Heng).
    assert (Hsegs : Forall displayable (default [] (result_segments t))).
    { destruct (result_segments t) as [segments |] eqn:Hs; [|constructor].
      eapply Hdisp; eassumption. }
    destruct (render_ok w inp up t σ1 Hsegs) as (σ2 & Hr & Hext & Hs1 & Hs2).
    exists σ2. split; [exact Hr|].
    split; [eapply extends_trans; eassumption|].
    left. rewrite invoke_eq in Hinv.
    destruct (model_transcribe w m p en_options σ) as [[t' | e |] σ0];
      inversion Hinv; subst. eauto.
  - destruct (Hnone eq_refl) as (e & σ0 & Hmt & He).
    eexists. split; [reflexivity|].
    split; [eapply extends_trans; [exact Hext1 | apply extends_add]|].
    right. exists e, σ0. split; [exact Hmt|].
    split; [eapply extends_elem; [apply extends_add | exact He] | apply elem_add].
Qed.

End Transcription.

Section Requests.

Variable w : world.

Lemma main_flow_staged (inp : inputs) (up : upload) (σ σ1 : state) (p : string) :
  stage w up (add_element (st_write ("**File:** " ++ name up)) σ) = (Done p, σ1) ->
  main_flow w inp up σ =
    (model ← try_except (load_whisper_model w (model_size inp))
               (fun _ => cleanup w p;; st_stop);
     if transcribe_btn inp then respond w inp up model p;; cleanup w p
     else mret tt)
      (add_element (st_info "File saved to temporary path. Loading model...") σ1).
Proof.
  intros Hstage. unfold main_flow.
  erewrite bind_Done by apply show_eq.
  erewrite bind_Done by exact Hstage.
  erewrite bind_Done by apply show_eq.
  reflexivity.
Qed.

Lemma main_flow_staging_failed (inp : inputs) (up : upload) (σ σ1 : state)
    (e : exn) :
  stage w up (add_element (st_write ("**File:** " ++ name up)) σ) = (Raised e, σ1) ->
  main_flow w inp up σ = (Raised e, σ1).
Proof.
  intros Hstage. unfold main_flow.
  erewrite bind_Done by apply show_eq.
  erewrite bind_Raised by exact Hstage. reflexivity.
Qed.

Lemma stage_never_stops (up : upload) (σ σ1 : state) :
  stage w up σ <> (Stopped, σ1).
Proof.
  rewrite stage_eq.
  destruct (named_temporary_file w _ (files σ)) as [p | e]; [|discriminate].
  destruct (write_error w p (buffer up)); discriminate.
Qed.

(** When the model does not load: the cleanup runs and the run stops. *)
Lemma load_failure_spec (v p : string) (σ σ1 : state) (e : exn) :
  load_whisper_model w v σ = (Raised e, σ1) ->
  exists σ',
    try_except (load_whisper_model w v) (fun _ => cleanup w p;; st_stop) σ
    = (Stopped, σ') /\
    page σ' = page σ1 /\
    (remove_error w p = None -> files σ' !! p = None).
Proof.
  intros Hload. unfold try_except at 1. rewrite Hload.
  destruct (cleanup_spec w p σ1) as (σ' & Hrm & Hpage & Hgone).
  erewrite bind_Done by exact Hrm.
  exists σ'. repeat split; assumption.
Qed.

Lemma load_success_spec (v p : string) (σ σ1 : state) (h : handle) :
  load_whisper_model w v σ = (Done h, σ1) ->
  try_except (load_whisper_model w v) (fun _ => cleanup w p;; st_stop) σ
  = (Done h, σ1).
Proof. intros Hload. unfold try_except at 1. rewrite Hload. reflexivity. Qed.

(** The flow after the model is loaded, when the button is pressed. *)
Lemma respond_cleanup_spec (inp : inputs) (up : upload) (m : handle)
    (p : string) (σ : state) :
  exists o σ',
    (respond w inp up m p;; cleanup w p) σ = (o, σ') /\
    o <> Stopped /\
    (o = Done tt -> remove_error w p = None -> files σ' !! p = None) /\
    (forall f, exists σ'',
       (respond w inp up m p;; cleanup (with_remove_error f w) p) σ = (o, σ'')
       /\ page σ'' = page σ') /\
    (engine_displayable w -> o = Done tt).
Proof.
  destruct (respond w inp up m p σ) as [[[] | e |] σ1] eqn:Hresp.
  - destruct (cleanup_spec w p σ1) as (σ' & Hrm & Hpage & Hgone).
    exists (Done tt), σ'. split; [erewrite bind_Done by exact Hresp; exact Hrm|].
    split; [discriminate|]. split; [intros _; exact Hgone|]. split; [|reflexivity].
    intros f.
    destruct (cleanup_spec (with_remove_error f w) p σ1) as (σ'' & Hrm' & Hpage' & _).
    exists σ''. split; [erewrite bind_Done by exact Hresp; exact Hrm'|].
    congruence.
  - exists (Raised e), σ1. split; [erewrite bind_Raised by exact Hresp; reflexivity|].
    split; [discriminate|]. split; [discriminate|]. split.
    + intros f. exists σ1.
      split; [erewrite bind_Raised by exact Hresp; reflexivity | reflexivity].
    + intros Hdisp. destruct (respond_spec w inp up m p σ Hdisp) as (σ2 & Hr & _).
      congruence.
  - exfalso. exact (respond_not_stopped w inp up m p σ σ1 Hresp).
Qed.

End Requests.

(** What a run does once the upload is staged. *)
Lemma staged_run_spec (w : world) (inp : inputs) (up : upload)
    (σ σ1 σ' : state) (p : string) (o : outcome unit) :
  stage w up (add_element (st_write ("**File:** " ++ name up)) σ) = (Done p, σ1) ->
  main_flow w inp up σ = (o, σ') ->
  (o = Stopped \/ transcribe_btn inp = true /\ o = Done tt ->
   remove_error w p = None -> files σ' !! p = None) /\
  (forall f,
     fst (main_flow (with_remove_error f w) inp up σ) = o /\
     page (snd (main_flow (with_remove_error f w) inp up σ)) = page σ') /\
  (engine_displayable w -> forall e, o <> Raised e).
Proof.
  intros Hstage Hrun.
  assert (Hflow : forall f,
            main_flow (with_remove_error f w) inp up σ =
              (model ← try_except (load_whisper_model w (model_size inp))
                         (fun _ => cleanup (with_remove_error f w) p;; st_stop);
               if transcribe_btn inp
               then respond w inp up model p;; cleanup (with_remove_error f w) p
               else mret tt)
                (add_element
                   (st_info "File saved to temporary path. Loading model...") σ1)).
  { intros f.
    exact (main_flow_staged (with_remove_error f w) inp up σ σ1 p Hstage). }
  rewrite (main_flow_staged w inp up σ σ1 p Hstage) in Hrun.
  set (σ2 := add_element (st_info "File saved to temporary path. Loading model...") σ1) in *.
  destruct (load_spec w (model_size inp) σ2)
    as [(h & σ3 & Hload & Hext) | (e & σ3 & Hload & Hext & _)].
  - erewrite bind_Done in Hrun by (apply load_success_spec; exact Hload).
    destruct (transcribe_btn inp) eqn:Hbtn.
    + destruct (respond_cleanup_spec w inp up h p σ3)
        as (o' & σ4 & Hrun4 & Hns & Hgone & Hindep & Hdone).
      rewrite Hrun4 in Hrun. injection Hrun as <- <-.
      split; [|split].
      * intros [Hs | [_ Hd]]; [contradiction | exact (Hgone Hd)].
      * intros f. rewrite Hflow.
        erewrite bind_Done
          by (apply (load_success_spec (with_remove_error f w)); exact Hload).
        destruct (Hindep f) as (σ'' & Hrun' & Hpage').
        rewrite Hrun'. split; [reflexivity | exact Hpage'].
      * intros Hdisp e He. rewrite (Hdone Hdisp) in He. discriminate.
    + injection Hrun as <- <-. split; [|split].
      * intros [? | [? _]]; discriminate.
      * intros f. rewrite Hflow.
        erewrite bind_Done
          by (apply (load_success_spec (with_remove_error f w)); exact Hload).
        split; reflexivity.
      * discriminate.
  - destruct (load_failure_spec w (model_size inp) p σ2 σ3 e Hload)
      as (σ4 & Hstop & Hpage & Hgone).
    erewrite bind_Stopped in Hrun by exact Hstop. injection Hrun as <- <-.
    split; [|split].
    + intros _. exact Hgone.
    + intros f. rewrite Hflow.
      destruct (load_failure_spec (with_remove_error f w) (model_size inp) p
                  σ2 σ3 e Hload) as (σ4' & Hstop' & Hpage' & _).
      erewrite bind_Stopped by exact Hstop'.
      split; [reflexivity | cbn; congruence].
    + discriminate.
Qed.

(** *** What a run changes *)

Lemma same_store_refl (σ : state) : same_store σ σ.
Proof. repeat split. Qed.

Lemma same_store_trans (σ1 σ2 σ3 : state) :
  same_store σ1 σ2 -> same_store σ2 σ3 -> same_store σ1 σ3.
Proof. unfold same_store. intuition congruence. Qed.

Lemma only_shows_bind {A B : Type} (c : M A) (k : A -> M B) :
  only_shows c -> (forall a, only_shows (k a)) -> only_shows (c ≫= k).
Proof.
  intros Hc Hk σ o σ'. unfold mbind, M_bind.
  destruct (c σ) as [[a | e |] σ1] eqn:Hrun;
    destruct (Hc _ _ _ Hrun) as [Hs1 [l1 Hp1]].
  - intros Hrun2. destruct (Hk a _ _ _ Hrun2) as [Hs2 [l2 Hp2]].
    split; [eapply same_store_trans; eassumption|].
    exists (l1 ++ l2)%list. rewrite Hp2, Hp1, app_assoc. reflexivity.
  - intros [= <- <-]. split; [exact Hs1 | eauto].
  - intros [= <- <-]. split; [exact Hs1 | eauto].
Qed.

Lemma only_shows_try_except {A : Type} (c : M A) (h : exn -> M A) :
  only_shows c -> (forall e, only_shows (h e)) -> only_shows (try_except c h).
Proof.
  intros Hc Hh σ o σ'. unfold try_except.
  destruct (c σ) as [[a | e |] σ1] eqn:Hrun;
    destruct (Hc _ _ _ Hrun) as [Hs1 [l1 Hp1]].
  - intros [= <- <-]. split; [exact Hs1 | eauto].
  - intros Hrun2. destruct (Hh e _ _ _ Hrun2) as [Hs2 [l2 Hp2]].
    split; [eapply same_store_trans; eassumption|].
    exists (l1 ++ l2)%list. rewrite Hp2, Hp1, app_assoc. reflexivity.
  - intros [= <- <-]. split; [exact Hs1 | eauto].
Qed.

Lemma only_shows_show (e : element) : only_shows (show e).
Proof.
  intros σ o σ' [= <- <-]. split; [repeat split|].
  exists [e]. reflexivity.
Qed.

Lemma only_shows_lift {A : Type} (r : result A) : only_shows (lift r).
Proof.
  intros σ o σ'. destruct r; intros [= <- <-];
    (split; [apply same_store_refl|]); exists []; cbn; rewrite app_nil_r;
    reflexivity.
Qed.

Lemma only_shows_mret {A : Type} (a : A) : only_shows (mret a : M A).
Proof.
  intros σ o σ' [= <- <-]. split; [apply same_store_refl|].
  exists []. rewrite app_nil_r. reflexivity.
Qed.

Lemma show_segment_lines_only_shows (segments : list segment) :
  only_shows (show_segment_lines segments).
Proof.
  induction segments as [| seg rest IH]; [apply only_shows_mret|].
  cbn [show_segment_lines].
  apply only_shows_bind; [apply only_shows_lift|]. intros a.
  apply only_shows_bind; [apply only_shows_lift|]. intros b.
  apply only_shows_bind; [apply only_shows_show|]. intros _. exact IH.
Qed.

Lemma render_only_shows (w : world) (inp : inputs) (up : upload)
    (t : transcript) :
  only_shows (render w inp up t).
Proof.
  unfold render. cbv zeta.
  apply only_shows_bind; [apply only_shows_show|]. intros _.
  apply only_shows_bind; [apply only_shows_show|]. intros _.
  apply only_shows_bind; [apply only_shows_show|]. intros _.
  apply only_shows_bind.
  { destruct (show_segments inp && nonempty (default [] (result_segments t))).
    - apply only_shows_bind; [apply only_shows_show|]. intros _.
      apply show_segment_lines_only_shows.
    - apply only_shows_mret. }
  intros _.
  apply only_shows_bind.
  { destruct (enable_txt_download inp).
    - apply only_shows_try_except; [|intros e]; apply only_shows_show.
    - apply only_shows_mret. }
  intros _.
  destruct (enable_srt_download inp && nonempty (default [] (result_segments t))).
  - apply only_shows_try_except; [|intros e; apply only_shows_show].
    apply only_shows_bind; [apply only_shows_lift|].
    intros doc. apply only_shows_show.
  - apply only_shows_mret.
Qed.

(** *** Where a run can raise *)

Lemma timedelta_of_displayable (x : Float.float) :
  (exists s, timedelta_of x = Ok s) <->
  (exists i, Float.to_int x = Ok i /\ in_timedelta_range i).
Proof.
  unfold timedelta_of. split.
  - intros [s Hs]. destruct (Float.to_int x) as [i | e]; [|discriminate].
    exists i. split; [reflexivity|]. eapply timedelta_str_range. exact Hs.
  - intros (i & -> & Hi). apply timedelta_str_ok. exact Hi.
Qed.

Lemma displayable_timedelta_of (seg : segment) :
  displayable seg <->
  (exists s, timedelta_of (seg_start seg) = Ok s) /\
  (exists s, timedelta_of (seg_end seg) = Ok s).
Proof. unfold displayable. rewrite !timedelta_of_displayable. reflexivity. Qed.

(** The loop that shows the segments stops at the first time stamp that
    cannot be shown, with the exception of that stamp. *)
Lemma show_segment_lines_raised (segments : list segment) (σ σ' : state)
    (e : exn) :
  show_segment_lines segments σ = (Raised e, σ') ->
  exists pre seg post,
    segments = (pre ++ seg :: post)%list /\ Forall displayable pre /\
    (timedelta_of (seg_start seg) = Raise e \/
     (exists s, timedelta_of (seg_start seg) = Ok s) /\
     timedelta_of (seg_end seg) = Raise e).
Proof.
  revert σ. induction segments as [| seg rest IH]; intros σ; [discriminate|].
  cbn [show_segment_lines].
  change (i ← Float.to_int (seg_start seg); timedelta_str i)
    with (timedelta_of (seg_start seg)).
  change (i ← Float.to_int (seg_end seg); timedelta_str i)
    with (timedelta_of (seg_end seg)).
  destruct (timedelta_of (seg_start seg)) as [a | e1] eqn:Ha.
  - erewrite bind_Done by reflexivity.
    destruct (timedelta_of (seg_end seg)) as [b | e2] eqn:Hb.
    + erewrite bind_Done by reflexivity.
      erewrite bind_Done by apply show_eq. intros Hrest.
      destruct (IH _ Hrest) as (pre & seg' & post & -> & Hpre & Hfail).
      exists (seg :: pre), seg', post. split; [reflexivity|].
      split; [|exact Hfail]. constructor; [|exact Hpre].
      apply displayable_timedelta_of. eauto.
    + erewrite bind_Raised by reflexivity. intros [= <- <-].
      exists [], seg, rest. split; [reflexivity|]. split; [constructor|].
      right. eauto.
  - erewrite bind_Raised by reflexivity. intros [= <- <-].
    exists [], seg, rest. split; [reflexivity|]. split; [constructor|].
    left. exact Ha.
Qed.


Lemma txt_download_done (w : world) (inp : inputs) (up : upload)
    (text : string) (σ : state) :
  exists σ',
    (if enable_txt_download inp
     then try_except
            (show (st_download_button "Download TXT" text
                     (path_stem w (name up) ++ ".txt") "text/plain"))
            (fun e => show (st_error ("Failed to create TXT download: "
                                        ++ exn_str e)))
     else mret tt) σ = (Done tt, σ').
Proof. destruct (enable_txt_download inp); eexists; reflexivity. Qed.

Lemma srt_download_done (w : world) (inp : inputs) (up : upload)
    (segments : list segment) (σ : state) :
  exists σ',
    (if enable_srt_download inp && nonempty segments
     then try_except
            (srt_content ← lift (segments_to_srt segments);
             show (st_download_button "Download SRT" srt_content
                     (path_stem w (name up) ++ ".srt") "text/plain"))
            (fun e => show (st_error ("Failed to create SRT download: "
                                        ++ exn_str e)))
     else mret tt) σ = (Done tt, σ').
Proof.
  destruct (enable_srt_download inp && nonempty segments);
    [|eexists; reflexivity].
  destruct (srt_download_eq w up segments σ) as [e He]. eauto.
Qed.

(** Showing a result raises only in the segment list. *)
Lemma render_raised (w : world) (inp : inputs) (up : upload) (t : transcript)
    (σ σ' : state) (e : exn) :
  render w inp up t σ = (Raised e, σ') ->
  show_segments inp = true /\
  exists σ3,
    same_store σ σ3 /\
    page σ3 =
      (page σ ++ [st_success "Transcription finished.";
                  st_subheader "Full Transcript (English)";
                  st_text_area "Transcript"
                    (strip (default "" (result_text t)));
                  st_subheader "Segments"])%list /\
    show_segment_lines (default [] (result_segments t)) σ3 = (Raised e, σ').
Proof.
  unfold render. cbv zeta.
  erewrite bind_Done by apply show_eq.
  erewrite bind_Done by apply show_eq.
  erewrite bind_Done by apply show_eq.
  set (σ3 := add_element _ (add_element _ (add_element _ σ))).
  destruct (show_segments inp) eqn:Hshow;
    [destruct (nonempty (default [] (result_segments t))) eqn:Hne|];
    cbn [andb].
  - assert (Hblock : (show (st_subheader "Segments");;
                      show_segment_lines (default [] (result_segments t))) σ3
                     = show_segment_lines (default [] (result_segments t))
                         (add_element (st_subheader "Segments") σ3))
      by reflexivity.
    destruct (show_segment_lines (default [] (result_segments t))
                (add_element (st_subheader "Segments") σ3))
      as [[[] | e' |] σ4] eqn:Hsegs.
    + erewrite bind_Done by exact Hblock.
      destruct (txt_download_done w inp up
                  (strip (default "" (result_text t))) σ4) as [σ5 H5].
      erewrite bind_Done by exact H5.
      destruct (srt_download_done w inp up
                  (default [] (result_segments t)) σ5) as [σ6 H6].
      rewrite Hne in H6. rewrite H6. discriminate.
    + erewrite bind_Raised by exact Hblock. intros [= <- <-].
      split; [reflexivity|].
      exists (add_element (st_subheader "Segments") σ3).
      split; [repeat split|]. split; [|exact Hsegs].
      subst σ3. cbn [page add_element]. rewrite <- !app_assoc. reflexivity.
    + exfalso. exact (show_segment_lines_not_stopped _ _ _ Hsegs).
  - erewrite bind_Done by reflexivity.
    destruct (txt_download_done w inp up
                (strip (default "" (result_text t))) σ3) as [σ5 H5].
    erewrite bind_Done by exact H5.
    destruct (srt_download_done w inp up
                (default [] (result_segments t)) σ5) as [σ6 H6].
    rewrite Hne in H6. rewrite H6. discriminate.
  - erewrite bind_Done by reflexivity.
    destruct (txt_download_done w inp up
                (strip (default "" (result_text t))) σ3) as [σ5 H5].
    erewrite bind_Done by exact H5.
    destruct (srt_download_done w inp up
                (default [] (result_segments t)) σ5) as [σ6 H6].
    rewrite H6. discriminate.
Qed.


Section Effects.

Variable w : world.

Lemma stage_effects (up : upload) (σ σ1 : state) (o : outcome string) :
  stage w up σ = (o, σ1) ->
  (environ σ1 = environ σ /\ cache σ1 = cache σ /\ models σ1 = models σ /\
   load_log σ1 = load_log σ /\ rng σ1 = rng σ) /\
  (exists l, page σ1 = (page σ ++ l)%list) /\
  match named_temporary_file w (staging_suffix w up) (files σ) with
  | Raise e => σ1 = σ /\ o = Raised e
  | Ok p =>
      (forall q, q <> p -> files σ1 !! q = files σ !! q) /\
      (o = Done p /\ write_error w p (buffer up) = None /\
       files σ1 !! p = Some (buffer up) /\ page σ1 = page σ \/
       exists e, o = Raised e /\ write_error w p (buffer up) = Some e /\
                 files σ1 !! p = Some [] /\
                 page σ1 =
                   (page σ ++ [st_error ("Failed to save uploaded file to disk: "
                                           ++ exn_str e)])%list)
  end.
Proof.
  rewrite stage_eq.
  destruct (named_temporary_file w _ (files σ)) as [p | e].
  - destruct (write_error w p (buffer up)) as [e |] eqn:Hw;
      intros [= <- <-]; cbn; (split; [repeat split|]).
    + split; [eauto|]. split.
      * intros q Hq. apply lookup_insert_ne. congruence.
      * right. exists e. repeat split. apply lookup_insert_eq.
    + split; [exists []; rewrite app_nil_r; reflexivity|]. split.
      * intros q Hq. rewrite !lookup_insert_ne by congruence. reflexivity.
      * left. repeat split. apply lookup_insert_eq.
  - intros [= <- <-]. split; [repeat split|].
    split; [exists []; rewrite app_nil_r; reflexivity|]. split; reflexivity.
Qed.

Lemma load_effects (v : string) (σ σ1 : state) (o : outcome handle) :
  load_whisper_model w v σ = (o, σ1) ->
  (environ σ1 = environ σ /\ files σ1 = files σ /\ rng σ1 = rng σ) /\
  (exists l, page σ1 = (page σ ++ l)%list) /\
  ((exists h, o = Done h /\ cache σ !! v = Some h /\ σ1 = σ) \/
   (exists e, o = Raised e /\ cache σ !! v = None /\
      load_model_error w (load_log σ) v = Some e /\
      cache σ1 = cache σ /\ models σ1 = models σ /\
      load_log σ1 = (load_log σ ++ [v])%list) \/
   (o = Done (length (models σ)) /\ cache σ !! v = None /\
      load_model_error w (load_log σ) v = None /\
      cache σ1 = <[v := length (models σ)]> (cache σ) /\
      models σ1 = (models σ ++ [v])%list /\
      load_log σ1 = (load_log σ ++ [v])%list /\ page σ1 = page σ)).
Proof.
  rewrite load_whisper_model_eq.
  destruct (cache σ !! v) as [h |] eqn:Hc.
  - intros [= <- <-]. split; [repeat split|].
    split; [exists []; rewrite app_nil_r; reflexivity|]. left. eauto.
  - destruct (load_model_error w (load_log σ) v) as [e |] eqn:He;
      intros [= <- <-]; cbn; (split; [repeat split|]).
    + split; [eauto|]. right. left. exists e. repeat split.
    + split; [exists []; rewrite app_nil_r; reflexivity|].
      right. right. repeat split.
Qed.

Lemma cleanup_effects (p : string) (σ σ' : state) (o : outcome unit) :
  cleanup w p σ = (o, σ') ->
  o = Done tt /\
  (environ σ' = environ σ /\ cache σ' = cache σ /\ models σ' = models σ /\
   load_log σ' = load_log σ /\ rng σ' = rng σ /\ page σ' = page σ) /\
  (forall q, q <> p -> files σ' !! q = files σ !! q) /\
  (files σ' = files σ \/ files σ' = delete p (files σ)).
Proof.
  rewrite cleanup_eq.
  destruct (files σ !! p) as [b |]; [destruct (remove_error w p)|];
    intros [= <- <-]; cbn; (split; [reflexivity|]); (split; [repeat split|]);
    (split; [|auto]); intros q Hq; try reflexivity.
  apply lookup_delete_ne. congruence.
Qed.

Lemma model_transcribe_effects (m : handle) (p : string) (σ σ1 : state)
    (o : outcome transcript) :
  model_transcribe w m p en_options σ = (o, σ1) ->
  σ1 = with_rng (S (rng σ)) σ /\
  (forall t, o = Done t ->
     exists variant audio,
       models σ !! m = Some variant /\ files σ !! p = Some audio /\
       engine w variant audio en_options (rng σ) = Ok t).
Proof.
  rewrite model_transcribe_eq.
  destruct (models σ !! m) as [variant |];
    [destruct (files σ !! p) as [audio |];
     [destruct (engine w variant audio en_options (rng σ)) eqn:Heng|]|];
    intros [= <- <-]; (split; [reflexivity|]); intros t' [=].
  subst. eauto.
Qed.

Lemma invoke_effects (m : handle) (p : string) (σ σ1 : state)
    (o : outcome (option transcript)) :
  invoke w m p σ = (o, σ1) ->
  (exists r, o = Done r) /\
  (environ σ1 = environ σ /\ files σ1 = files σ /\ cache σ1 = cache σ /\
   models σ1 = models σ /\ load_log σ1 = load_log σ) /\
  rng σ1 = S (rng σ) /\
  exists l, page σ1 = (page σ ++ l)%list.
Proof.
  rewrite invoke_eq, model_transcribe_eq.
  destruct (models σ !! m) as [variant |];
    [destruct (files σ !! p) as [audio |];
     [destruct (engine w variant audio en_options (rng σ))|]|];
    intros [= <- <-]; cbn; (split; [eauto|]); (split; [repeat split|]);
    (split; [reflexivity|]); eauto.
  exists []. rewrite app_nil_r. reflexivity.
Qed.

Lemma respond_effects (inp : inputs) (up : upload) (m : handle) (p : string)
    (σ σ' : state) (o : outcome unit) :
  respond w inp up m p σ = (o, σ') ->
  o <> Stopped /\
  (environ σ' = environ σ /\ files σ' = files σ /\ cache σ' = cache σ /\
   models σ' = models σ /\ load_log σ' = load_log σ) /\
  rng σ' = S (rng σ) /\
  exists l, page σ' = (page σ ++ l)%list.
Proof.
  intros Hrun.
  split; [intros ->; exact (respond_not_stopped w inp up m p σ σ' Hrun)|].
  unfold respond in Hrun.
  destruct (invoke w m p σ) as [o1 σ1] eqn:Hinv.
  destruct (invoke_effects m p σ σ1 o1 Hinv)
    as ([r ->] & (He & Hf & Hc & Hm & Hl) & Hr & [l1 Hp1]).
  erewrite bind_Done in Hrun by exact Hinv.
  assert (Hshow : only_shows (match r with
                              | Some t => render w inp up t
                              | None => show transcription_failed_warning
                              end)).
  { destruct r; [apply render_only_shows | apply only_shows_show]. }
  destruct (Hshow _ _ _ Hrun) as [(He' & Hf' & Hc' & Hm' & Hl' & Hr') [l2 Hp2]].
  split; [repeat split; congruence|]. split; [congruence|].
  exists (l1 ++ l2)%list. rewrite Hp2, Hp1, app_assoc. reflexivity.
Qed.

(** A response raises only when the transcription succeeded and showing
    its result raised. *)
Lemma respond_raised (inp : inputs) (up : upload) (m : handle) (p : string)
    (σ σ' : state) (e : exn) :
  respond w inp up m p σ = (Raised e, σ') ->
  exists t,
    model_transcribe w m p en_options σ = (Done t, with_rng (S (rng σ)) σ) /\
    render w inp up t (with_rng (S (rng σ)) σ) = (Raised e, σ').
Proof.
  intros Hrun. unfold respond in Hrun.
  pose proof (invoke_eq w m p σ) as Hinv.
  destruct (model_transcribe w m p en_options σ) as [[t | e' |] σ1] eqn:Hmt.
  - destruct (model_transcribe_effects m p σ σ1 _ Hmt) as [-> _].
    erewrite bind_Done in Hrun by exact Hinv. exists t. auto.
  - erewrite bind_Done in Hrun by exact Hinv. discriminate.
  - erewrite bind_Stopped in Hrun by exact Hinv. discriminate.
Qed.

(** The main flow raises in staging, or in showing the result of a
    transcription that succeeded. *)
Lemma main_flow_raised (inp : inputs) (up : upload) (σ σ' : state) (e : exn) :
  main_flow w inp up σ = (Raised e, σ') ->
  stage w up (add_element (st_write ("**File:** " ++ name up)) σ)
  = (Raised e, σ') \/
  exists p σ1 h σ3 t,
    stage w up (add_element (st_write ("**File:** " ++ name up)) σ)
    = (Done p, σ1) /\
    load_whisper_model w (model_size inp)
      (add_element (st_info "File saved to temporary path. Loading model...")
         σ1) = (Done h, σ3) /\
    transcribe_btn inp = true /\
    model_transcribe w h p en_options σ3
    = (Done t, with_rng (S (rng σ3)) σ3) /\
    render w inp up t (with_rng (S (rng σ3)) σ3) = (Raised e, σ').
Proof.
  intros Hrun.
  destruct (stage w up (add_element (st_write ("**File:** " ++ name up)) σ))
    as [[p | e0 |] σ1] eqn:Hstage.
  - right. rewrite (main_flow_staged w inp up σ σ1 p Hstage) in Hrun.
    set (σ2 := add_element
                 (st_info "File saved to temporary path. Loading model...") σ1)
      in *.
    destruct (load_spec w (model_size inp) σ2)
      as [(h & σ3 & Hload & _) | (e1 & σ3 & Hload & _)].
    + erewrite bind_Done in Hrun by (apply load_success_spec; exact Hload).
      destruct (transcribe_btn inp) eqn:Hbtn; [|discriminate].
      destruct (respond w inp up h p σ3) as [[[] | e2 |] σ4] eqn:Hresp.
      * erewrite bind_Done in Hrun by exact Hresp.
        destruct (cleanup_spec w p σ4) as (σ5 & Hrm & _).
        rewrite Hrm in Hrun. discriminate.
      * erewrite bind_Raised in Hrun by exact Hresp.
        injection Hrun as <- <-.
        destruct (respond_raised inp up h p σ3 σ4 e2 Hresp) as (t & Hmt & Hr).
        exists p, σ1, h, σ3, t. auto.
      * exfalso. exact (respond_not_stopped w inp up h p σ3 σ4 Hresp).
    + destruct (load_failure_spec w (model_size inp) p σ2 σ3 e1 Hload)
        as (σ4 & Hstop & _).
      erewrite bind_Stopped in Hrun by exact Hstop. discriminate.
  - left. rewrite (main_flow_staging_failed w inp up σ σ1 e0 Hstage) in Hrun.
    injection Hrun as <- <-. reflexivity.
  - exfalso. exact (stage_never_stops w up _ σ1 Hstage).
Qed.

End Effects.

(** *** The staged file at the end of a run *)

(** A run without the button, once the upload is staged. *)
Lemma untriggered_run_spec (w : world) (inp : inputs) (up : upload)
    (σ σ1 σ' : state) (p : string) (o : outcome unit) :
  transcribe_btn inp = false ->
  stage w up (add_element (st_write ("**File:** " ++ name up)) σ) = (Done p, σ1) ->
  main_flow w inp up σ = (o, σ') ->
  (o = Done tt /\ files σ' !! p = Some (buffer up) /\ rng σ' = rng σ) \/
  o = Stopped.
Proof.
  intros Hbtn Hstage Hrun.
  rewrite (main_flow_staged w inp up σ σ1 p Hstage), Hbtn in Hrun.
  destruct (stage_done w up _ σ1 p Hstage) as (Hfile & _ & _ & _ & _ & Hr1 & _).
  set (σ2 := add_element
               (st_info "File saved to temporary path. Loading model...") σ1)
    in *.
  destruct (load_whisper_model w (model_size inp) σ2) as [[h | e |] σ3] eqn:Hload.
  - left.
    destruct (load_effects w (model_size inp) σ2 σ3 _ Hload)
      as ((_ & Hf3 & Hr3) & _).
    erewrite bind_Done in Hrun by (apply load_success_spec; exact Hload).
    injection Hrun as <- <-. split; [reflexivity|].
    split; [rewrite Hf3; exact Hfile | rewrite Hr3; exact Hr1].
  - right.
    destruct (load_failure_spec w (model_size inp) p σ2 σ3 e Hload)
      as (σ4 & Hstop & _).
    erewrite bind_Stopped in Hrun by exact Hstop. injection Hrun as <- _.
    reflexivity.
  - exfalso.
    destruct (load_spec w (model_size inp) σ2)
      as [(h & σ4 & H & _) | (e & σ4 & H & _)]; congruence.
Qed.

(** A run that ends in an exception, once the upload is staged: the
    transcription succeeded, its result could not be shown, and the staged
    file is still there. *)
Lemma raised_run_spec (w : world) (inp : inputs) (up : upload)
    (σ σ1 σ' : state) (p : string) (e : exn) :
  stage w up (add_element (st_write ("**File:** " ++ name up)) σ) = (Done p, σ1) ->
  main_flow w inp up σ = (Raised e, σ') ->
  transcribe_btn inp = true /\ show_segments inp = true /\
  st_success "Transcription finished." ∈ page σ' /\
  files σ' !! p = Some (buffer up) /\
  exists t pre seg post,
    (exists variant audio n, engine w variant audio en_options n = Ok t) /\
    result_segments t = Some (pre ++ seg :: post)%list /\
    Forall displayable pre /\
    (timedelta_of (seg_start seg) = Raise e \/
     (exists s, timedelta_of (seg_start seg) = Ok s) /\
     timedelta_of (seg_end seg) = Raise e).
Proof.
  intros Hstage Hrun.
  destruct (main_flow_raised w inp up σ σ' e Hrun)
    as [Hst | (p' & σ1' & h & σ3 & t & Hst & Hload & Hbtn & Hmt & Hrender)];
    rewrite Hstage in Hst; [discriminate|].
  injection Hst as <- <-.
  destruct (stage_done w up _ σ1 p Hstage) as (Hfile & _).
  destruct (load_effects w (model_size inp) _ σ3 _ Hload) as ((_ & Hf3 & _) & _).
  destruct (render_raised w inp up t _ σ' e Hrender)
    as (Hshow & σr & _ & Hpr & Hsegs).
  destruct (render_only_shows w inp up t _ _ _ Hrender)
    as [(_ & Hf' & _) _].
  destruct (show_segment_lines_only_shows _ _ _ _ Hsegs) as [_ [l Hl]].
  destruct (show_segment_lines_raised _ _ _ _ Hsegs)
    as (pre & seg & post & Hsplit & Hpre & Hfail).
  destruct (model_transcribe_effects w h p σ3 _ _ Hmt) as [_ Heng].
  destruct (Heng t eq_refl) as (variant & audio & _ & _ & Het).
  split; [exact Hbtn|]. split; [exact Hshow|]. split; [|split].
  - rewrite Hl, Hpr, <- app_assoc. apply elem_of_app. right.
    apply elem_of_app. left. apply elem_of_cons. left. reflexivity.
  - rewrite Hf'. cbn [files with_rng]. rewrite Hf3. exact Hfile.
  - exists t, pre, seg, post. split; [eauto|].
    split; [|split; assumption].
    destruct (result_segments t) as [segments |]; simpl in Hsplit.
    + f_equal. exact Hsplit.
    + destruct pre; discriminate.
Qed.

(** C3 (the code departs from it). Once the upload is staged, the staged
    file is removed where the code reaches one of its two cleanups: when the
    model failed to load (the run stops) and when transcription was
    triggered and the run reached its last line, with the transcript or
    with the failure shown; there the file is gone unless [os.remove]
    fails, and a failing [os.remove] changes neither how the run ends nor
    what the page shows. The code misses two cases. The cleanup of lines
    172 and 173 is inside [if transcribe_btn]: a run in which the button is
    not pressed stages the file and leaves it. And nothing guards the
    segment list: when a transcription succeeded and a time stamp cannot be
    shown, the run ends in that exception after [Transcription finished]
    and the file stays. With an engine whose segments can all be shown no
    run ends in an exception. So a segment ending at 86400000000000 s
    leaves [tmp0.wav] behind, and so does an upload followed by a press of
    the button, which stages and removes [tmp1.wav]. *)
Theorem staged_file_removed :
  (forall (w : world) (inp : inputs) (up : upload) (σ σ1 σ' : state)
          (p : string) (o : outcome unit),
     stage w up (add_element (st_write ("**File:** " ++ name up)) σ)
     = (Done p, σ1) ->
     main_flow w inp up σ = (o, σ') ->
     (o = Stopped \/ transcribe_btn inp = true /\ o = Done tt ->
      remove_error w p = None -> files σ' !! p = None) /\
     (forall f,
        fst (main_flow (with_remove_error f w) inp up σ) = o /\
        page (snd (main_flow (with_remove_error f w) inp up σ)) = page σ') /\
     (transcribe_btn inp = false -> o = Done tt ->
      files σ' !! p = Some (buffer up)) /\
     (forall e, o = Raised e ->
        transcribe_btn inp = true /\ show_segments inp = true /\
        st_success "Transcription finished." ∈ page σ' /\
        files σ' !! p = Some (buffer up)) /\
     (engine_displayable w -> forall e, o <> Raised e)) /\
  (fst (main_flow w_overflow (demo_inputs true) demo_upload
          (demo_state demo_environ))
   = Raised (OverflowError "days=1000000000; must have magnitude <= 999999999")
   /\
   files (snd (main_flow w_overflow (demo_inputs true) demo_upload
                 (demo_state demo_environ))) !! "C:\Temp\tmp0.wav"
   = Some (buffer demo_upload)) /\
  (let σ1 := snd (main_flow w_fresh (demo_inputs false) demo_upload
                    (demo_state demo_environ)) in
   let σ2 := snd (main_flow w_fresh (demo_inputs true) demo_upload σ1) in
   fst (main_flow w_fresh (demo_inputs false) demo_upload
          (demo_state demo_environ)) = Done tt /\
   fst (main_flow w_fresh (demo_inputs true) demo_upload σ1) = Done tt /\
   files σ2 !! "C:\Temp\tmp0.wav" = Some (buffer demo_upload) /\
   files σ2 !! "C:\Temp\tmp1.wav" = None).
Proof.
  split; [|split].
  - intros w inp up σ σ1 σ' p o Hstage Hrun.
    destruct (staged_run_spec w inp up σ σ1 σ' p o Hstage Hrun)
      as (Hgone & Hindep & Hnoraise).
    split; [exact Hgone|]. split; [exact Hindep|]. split; [|split].
    + intros Hbtn ->.
      destruct (untriggered_run_spec w inp up σ σ1 σ' p _ Hbtn Hstage Hrun)
        as [(_ & Hfile & _) | Hstop]; [exact Hfile | discriminate].
    + intros e ->.
      destruct (raised_run_spec w inp up σ σ1 σ' p e Hstage Hrun)
        as (Hbtn & Hshow & Hsucc & Hfile & _).
      auto.
    + exact Hnoraise.
  - split; vm_compute; reflexivity.
  - cbv zeta. repeat split; vm_compute; reflexivity.
Qed.



(** *** The ffmpeg check *)

(** The ffmpeg check changes nothing but PATH and the page. It raises only
    the [KeyError] of an unset PATH, and then it has changed nothing at
    all; otherwise it shows exactly one element. *)
Lemma ffmpeg_check_spec (w : world) (σ σ' : state)
    (o : outcome (option string)) :
  ffmpeg_check w σ = (o, σ') ->
  (files σ' = files σ /\ cache σ' = cache σ /\ models σ' = models σ /\
   load_log σ' = load_log σ /\ rng σ' = rng σ) /\
  (forall k, k <> "PATH" -> environ σ' !! k = environ σ !! k) /\
  ((o = Raised (KeyError "PATH") /\ σ' = σ /\
    is_ffmpeg_available w (environ σ) = false /\
    environ σ !! "PATH" = None) \/
   (exists el,
      o = Done (which w (environ σ') "ffmpeg") /\
      page σ' = (page σ ++ [el])%list /\
      match which w (environ σ') "ffmpeg" with
      | Some p =>
          if String.eqb p "" then el = no_ffmpeg_warning
          else el = st_success ("ffmpeg found: " ++ p)
      | None => el = no_ffmpeg_warning
      end)).
Proof.
  unfold ffmpeg_check. erewrite bind_Done by reflexivity.
  unfold set_ffmpeg_path.
  destruct (is_ffmpeg_available w (environ σ)) eqn:Hav;
    [|destruct (environ σ !! "PATH") as [path |] eqn:Hpath].
  - erewrite bind_Done by reflexivity. erewrite bind_Done by reflexivity.
    cbv zeta.
    destruct (which w (environ σ) "ffmpeg") as [p |] eqn:Hw.
    + destruct (String.eqb p "") eqn:Hp;
        (erewrite bind_Done by apply show_eq); intros [= <- <-]; cbn;
        (split; [repeat split|]); (split; [reflexivity|]);
        right; eexists; rewrite Hw, Hp; repeat split.
    + erewrite bind_Done by apply show_eq. intros [= <- <-]. cbn.
      split; [repeat split|]. split; [reflexivity|].
      right. eexists. rewrite Hw. repeat split.
  - erewrite bind_Done by reflexivity. erewrite bind_Done by reflexivity.
    cbv zeta.
    set (env := <["PATH" := ffmpeg_dir ++ pathsep w ++ path]> (environ σ)).
    assert (Hother : forall k, k <> "PATH" -> env !! k = environ σ !! k).
    { intros k Hk. apply lookup_insert_ne. congruence. }
    destruct (which w env "ffmpeg") as [p |] eqn:Hw.
    + destruct (String.eqb p "") eqn:Hp;
        (erewrite bind_Done by apply show_eq); intros [= <- <-]; cbn;
        (split; [repeat split|]); (split; [exact Hother|]);
        right; eexists; fold env; rewrite Hw, Hp; repeat split.
    + erewrite bind_Done by apply show_eq. intros [= <- <-]. cbn.
      split; [repeat split|]. split; [exact Hother|].
      right. eexists. fold env. rewrite Hw. repeat split.
  - erewrite bind_Raised by reflexivity. intros [= <- <-].
    split; [repeat split|]. split; [reflexivity|]. left. repeat split.
Qed.

(** *** The exceptions that leave the script *)




(** *** The decoder check in the run *)

Lemma main_flow_ignores_which (w : world)
    (f : gmap string string -> string -> option string)
    (inp : inputs) (up : upload) (σ : state) :
  main_flow (with_which f w) inp up σ = main_flow w inp up σ.
Proof. reflexivity. Qed.

Lemma ffmpeg_check_absent (w : world) (σ : state) (path : string) :
  is_ffmpeg_available w (environ σ) = false ->
  environ σ !! "PATH" = Some path ->
  which w (<["PATH" := ffmpeg_dir ++ pathsep w ++ path]> (environ σ)) "ffmpeg"
  = None ->
  ffmpeg_check w σ =
    (Done None,
     add_element no_ffmpeg_warning
       (with_environ (<["PATH" := ffmpeg_dir ++ pathsep w ++ path]> (environ σ)) σ)).
Proof.
  intros Hna Hpath Hstill. unfold ffmpeg_check.
  erewrite bind_Done by reflexivity.
  rewrite (set_ffmpeg_path_missing w (environ σ) path Hna Hpath).
  erewrite bind_Done by reflexivity.
  erewrite bind_Done by reflexivity.
  cbv zeta. rewrite Hstill.
  erewrite bind_Done by apply show_eq. reflexivity.
Qed.

(** C8 (amended). When ffmpeg is not found, before or after the fallback,
    and PATH is set, the check shows the warning and the script goes on
    with the request from a state that differs by the warning and the new
    PATH only; the main flow never consults the lookup, so a request whose
    staging, model load and transcription succeed ends normally with its
    transcript on the page. *)
Theorem decoder_absence_is_a_warning (w : world) (inp : inputs) (σ : state)
    (path : string) :
  is_ffmpeg_available w (environ σ) = false ->
  environ σ !! "PATH" = Some path ->
  which w (<["PATH" := ffmpeg_dir ++ pathsep w ++ path]> (environ σ)) "ffmpeg"
  = None ->
  let σ1 :=
    add_element no_ffmpeg_warning
      (with_environ (<["PATH" := ffmpeg_dir ++ pathsep w ++ path]> (environ σ)) σ) in
  (forall up, uploaded inp = Some up ->
     script w inp σ = main_flow w inp up σ1 /\
     forall f, main_flow (with_which f w) inp up σ1 = main_flow w inp up σ1) /\
  (forall up p σ2 h σ3 t σ4,
     engine_displayable w ->
     uploaded inp = Some up ->
     stage w up (add_element (st_write ("**File:** " ++ name up)) σ1) = (Done p, σ2) ->
     load_whisper_model w (model_size inp)
       (add_element (st_info "File saved to temporary path. Loading model...") σ2)
     = (Done h, σ3) ->
     transcribe_btn inp = true ->
     model_transcribe w h p en_options σ3 = (Done t, σ4) ->
     exists σ',
       script w inp σ = (Done tt, σ') /\
       no_ffmpeg_warning ∈ page σ' /\
       st_success "Transcription finished." ∈ page σ' /\
       st_text_area "Transcript" (strip (default "" (result_text t))) ∈ page σ').
Proof.
  intros Hna Hpath Hstill σ1.
  assert (Hscript : forall up, uploaded inp = Some up ->
                      script w inp σ = main_flow w inp up σ1).
  { intros up Hup. unfold script.
    erewrite bind_Done by (apply ffmpeg_check_absent; eassumption).
    rewrite Hup. reflexivity. }
  split.
  - intros up Hup. split; [apply Hscript; exact Hup|].
    intros f. apply main_flow_ignores_which.
  - intros up p σ2 h σ3 t σ4 Hdisp Hup Hstage Hload Hbtn Hmt.
    rewrite (Hscript up Hup), (main_flow_staged w inp up σ1 σ2 p Hstage).
    erewrite bind_Done by (apply load_success_spec; exact Hload).
    rewrite Hbtn.
    destruct (respond_spec w inp up h p σ3 Hdisp)
      as (σr & Hresp & Hextr & Hcases).
    destruct (cleanup_spec w p σr) as (σ' & Hrm & Hsame & _).
    exists σ'. split; [erewrite bind_Done by exact Hresp; exact Hrm|].
    rewrite Hsame. split.
    + eapply extends_elem; [exact Hextr|].
      destruct (load_spec w (model_size inp)
                  (add_element (st_info "File saved to temporary path. Loading model...") σ2))
        as [(h' & σ3' & Hl & Hext) | (e & σ3' & Hl & _)];
        rewrite Hl in Hload; [|discriminate].
      injection Hload as <- <-.
      eapply extends_elem; [exact Hext|].
      eapply extends_elem; [apply extends_add|].
      destruct (stage_done w up _ σ2 p Hstage) as (_ & Hpage & _).
      rewrite Hpage.
      eapply extends_elem; [apply extends_add | apply elem_add].
    + destruct Hcases as [(t' & σ5 & Hmt' & Hs & Ha) | (e & σ5 & Hmt' & _)];
        rewrite Hmt' in Hmt; [|discriminate].
      injection Hmt as <- <-. split; assumption.
Qed.

(** *** Determinism of the invocation *)






(** *** Concrete runs *)

Lemma w_ok_displayable : engine_displayable w_ok.
Proof.
  intros variant audio opts n t segments Heng Hsegs.
  injection Heng as <-. injection Hsegs as <-.
  repeat constructor; eexists; (split; [reflexivity|]);
    split; vm_compute; discriminate.
Qed.


(** Above temperature 0 the same engine does depend on the generator. *)
Lemma sampling_engine_varies :
  sampling_engine "base" [] (TranscribeOptions (Some "en") f2_5) 3
  = Ok (Transcript (Some "3") None) /\
  sampling_engine "base" [] (TranscribeOptions (Some "en") f2_5) 7
  = Ok (Transcript (Some "7") None).
Proof. split; reflexivity. Qed.


Lemma staged_file_removed_witness :
  transcribe_btn (demo_inputs true) = true /\
  show_segments (demo_inputs true) = true /\
  st_success "Transcription finished."
    ∈ page (snd (main_flow w_overflow (demo_inputs true) demo_upload
                   (demo_state demo_environ))) /\
  files (snd (main_flow w_overflow (demo_inputs true) demo_upload
                (demo_state demo_environ))) !! "C:\Temp\tmp0.wav"
  = Some (buffer demo_upload).
Proof.
  refine (proj1 (proj2 (proj2 (proj2
            (proj1 staged_file_removed w_overflow (demo_inputs true) demo_upload
               (demo_state demo_environ)
               (snd (stage w_overflow demo_upload
                       (add_element (st_write ("**File:** " ++ name demo_upload))
                          (demo_state demo_environ))))
               (snd (main_flow w_overflow (demo_inputs true) demo_upload
                       (demo_state demo_environ)))
               "C:\Temp\tmp0.wav"
               (fst (main_flow w_overflow (demo_inputs true) demo_upload
                       (demo_state demo_environ)))
               _ _))))
            (OverflowError "days=1000000000; must have magnitude <= 999999999")
            _).
  - reflexivity.
  - apply surjective_pairing.
  - vm_compute. reflexivity.
Defined.



Lemma decoder_absence_is_a_warning_witness :
  exists σ',
    script w_ok (demo_inputs true) (demo_state demo_environ) = (Done tt, σ') /\
    no_ffmpeg_warning ∈ page σ' /\
    st_success "Transcription finished." ∈ page σ' /\
    st_text_area "Transcript" "Hello there. General remarks." ∈ page σ'.
Proof.
  refine (proj2 (decoder_absence_is_a_warning w_ok (demo_inputs true)
                   (demo_state demo_environ) "C:\Windows" eq_refl eq_refl eq_refl)
            demo_upload "C:\Temp\tmp0.wav" _ 0%nat _ demo_transcript _
            w_ok_displayable eq_refl _ _ eq_refl _).
  - vm_compute. reflexivity.
  - vm_compute. reflexivity.
  - vm_compute. reflexivity.
Defined.

(** C8 (as stated, it fails). With PATH unset and ffmpeg not found, the
    script ends at the check, before the upload is looked at. *)
Lemma decoder_absence_without_path_aborts :
  script w_ok (demo_inputs true) (demo_state ∅)
  = (Raised (KeyError "PATH"), demo_state ∅).
Proof. reflexivity. Qed.



(** * Further properties *)

(** ** The timestamp codec on whole and on negative seconds *)

Lemma of_int_small_bounded (t : Z) :
  0 < t < 2 ^ 53 ->
  bounded Float.prec Float.emax
    (Z.to_pos (t * 2 ^ (52 - Z.log2 t))) (Z.log2 t - 52) = true.
Proof.
  intros [Hlo Hhi].
  assert (Hlog : Z.log2 t < 53) by (apply Z.log2_lt_pow2; lia).
  pose proof (Z.log2_nonneg t) as Hnn.
  assert (Hp : 0 < 2 ^ (52 - Z.log2 t)) by (apply pow2_pos; lia).
  apply bounded_spec. rewrite Z2Pos.id by lia.
  rewrite Z.log2_mul_pow2 by lia. rewrite fexp_unfold. lia.
Qed.

(** A whole number of seconds has no milliseconds. *)
Lemma milliseconds_whole (t : Z) :
  0 < t < 2 ^ 53 ->
  Z.shiftl (Zpos (Z.to_pos (t * 2 ^ (52 - Z.log2 t)))) (Z.log2 t - 52) = t /\
  milliseconds (Z.to_pos (t * 2 ^ (52 - Z.log2 t))) (Z.log2 t - 52) = 0.
Proof.
  intros [Hlo Hhi].
  assert (Hlog : Z.log2 t < 53) by (apply Z.log2_lt_pow2; lia).
  pose proof (Z.log2_nonneg t) as Hnn.
  assert (Hp : 0 < 2 ^ (52 - Z.log2 t)) by (apply pow2_pos; lia).
  rewrite Z2Pos.id by lia. split.
  - rewrite Z.shiftl_div_pow2 by lia.
    replace (- (Z.log2 t - 52)) with (52 - Z.log2 t) by lia.
    apply Z.div_mul. lia.
  - unfold milliseconds. rewrite Z2Pos.id by lia.
    destruct (Z.leb_spec 0 (Z.log2 t - 52)); [reflexivity|].
    replace (- (Z.log2 t - 52)) with (52 - Z.log2 t) by lia.
    rewrite Z.mod_mul by lia. reflexivity.
Qed.

(** For a whole number of seconds [n] (an int that a float holds exactly),
    [format_timestamp(float(n))] is the clock of [n] followed by [,000]:
    nothing is lost and nothing is rounded. Below 100 hours the result is
    the twelve characters [HH:MM:SS,000]. *)
Theorem format_timestamp_whole_seconds (n : Z) (x : Float.float) :
  0 <= n < 2 ^ 53 ->
  Float.of_int n = Ok x ->
  Float.to_int x = Ok n /\
  format_timestamp x =
    Ok (format_0d 2 (n / 3600) ++ ":" ++ two_digits ((n / 60) mod 60) ++ ":"
          ++ two_digits (n mod 60) ++ ",000") /\
  (n < 360000 ->
   format_timestamp x =
     Ok (srt_timestamp (n / 3600) ((n / 60) mod 60) (n mod 60) 0)).
Proof.
  intros [Hlo Hhi] Hx.
  destruct (Z.eq_dec n 0) as [-> | Hn].
  - injection Hx as <-. repeat split; reflexivity.
  - assert (Hn' : 0 < n < 2 ^ 53) by lia.
    pose proof (of_int_small false n Hn') as Hof. cbn [cond_Zopp] in Hof.
    rewrite Hof in Hx. injection Hx as <-.
    pose proof (of_int_small_bounded n Hn') as Hb.
    destruct (milliseconds_whole n Hn') as [Hint Hms].
    pose proof (format_timestamp_finite false _ _ Hb) as Hfmt.
    cbv zeta in Hfmt. cbn [cond_Zopp] in Hfmt. rewrite Hint, Hms in Hfmt.
    destruct (clock_fields n Hlo) as (Hh & Hm & Hs).
    rewrite (format_0d_two_digits ((n / 60) mod 60)) in Hfmt by lia.
    rewrite (format_0d_two_digits (n mod 60)) in Hfmt by lia.
    split; [cbn [Float.to_int cond_Zopp]; rewrite Hint; reflexivity|].
    split; [exact Hfmt|].
    intros Hlt. rewrite Hfmt.
    assert (n / 3600 < 100) by (apply Z.div_lt_upper_bound; lia).
    rewrite (format_0d_two_digits (n / 3600)) by lia. reflexivity.
Qed.

Lemma format_timestamp_whole_seconds_witness :
  format_timestamp f7 = Ok "00:00:07,000".
Proof.
  exact (proj2 (proj2 (format_timestamp_whole_seconds 7 f7
                         ltac:(split; [lia | reflexivity]) eq_refl))
           eq_refl).
Defined.





(** The float -1.5 is printed as [-1:59:59,-500]. *)
Example format_timestamp_minus_1_5 :
  format_timestamp fm1_5 = Ok "-1:59:59,-500".
Proof. vm_compute. reflexivity. Qed.

(** ** The subtitle renderer: errors and composition *)

Lemma format_timestamp_raises (x : Float.float) :
  Float.valid x -> (raises (format_timestamp x) <-> ~ Float.finite x).
Proof.
  intros Hv. destruct x as [s | s | | s m e].
  - rewrite format_timestamp_zero. simpl. tauto.
  - simpl. tauto.
  - simpl. tauto.
  - rewrite format_timestamp_finite by exact Hv. simpl. tauto.
Qed.

Lemma srt_lines_raises (segments : list segment) :
  Forall (fun seg => Float.valid (seg_start seg) /\ Float.valid (seg_end seg))
    segments ->
  forall (idx : Z) (lines : list string),
    raises (srt_lines idx segments lines) <->
    Exists (fun seg => ~ timed seg) segments.
Proof.
  induction 1 as [| seg rest [Hv1 Hv2] Hrest IH]; intros idx lines.
  - simpl. rewrite Exists_nil. tauto.
  - cbn [srt_lines]. rewrite Exists_cons.
    pose proof (format_timestamp_raises _ Hv1) as H1.
    pose proof (format_timestamp_raises _ Hv2) as H2.
    destruct (format_timestamp (seg_start seg)) as [start | e1].
    + rewrite bind_Ok.
      destruct (format_timestamp (seg_end seg)) as [end_ | e2].
      * rewrite bind_Ok. cbv zeta. rewrite IH. simpl in H1, H2.
        unfold timed.
        assert (Float.finite (seg_start seg))
          by (destruct (seg_start seg); simpl in *; tauto).
        assert (Float.finite (seg_end seg))
          by (destruct (seg_end seg); simpl in *; tauto).
        tauto.
      * simpl in *. unfold timed. tauto.
    + simpl in *. unfold timed. tauto.
Qed.

(** The loop over two lists in a row. *)
Lemma srt_lines_app (a b : list segment) (idx : Z) (lines : list string) :
  srt_lines idx (a ++ b) lines =
    (lines' ← srt_lines idx a lines;
     srt_lines (idx + Z.of_nat (length a)) b lines').
Proof.
  revert idx lines. induction a as [| seg a IH]; intros idx lines.
  - cbn. rewrite Z.add_0_r. reflexivity.
  - cbn [srt_lines app length].
    destruct (format_timestamp (seg_start seg)) as [start | e]; [|reflexivity].
    destruct (format_timestamp (seg_end seg)) as [end_ | e]; [|reflexivity].
    rewrite !bind_Ok. cbv zeta. rewrite IH.
    replace (idx + 1 + Z.of_nat (length a)) with (idx + Z.of_nat (S (length a)))
      by lia.
    reflexivity.
Qed.

(** The lines built so far are kept as they are. *)
Lemma srt_lines_acc (segments : list segment) (idx : Z) (lines : list string) :
  srt_lines idx segments lines =
    (l ← srt_lines idx segments []; Ok (lines ++ l)%list).
Proof.
  revert idx lines. induction segments as [| seg rest IH]; intros idx lines.
  - cbn. rewrite app_nil_r. reflexivity.
  - cbn [srt_lines].
    destruct (format_timestamp (seg_start seg)) as [start | e]; [|reflexivity].
    destruct (format_timestamp (seg_end seg)) as [end_ | e]; [|reflexivity].
    rewrite !bind_Ok. cbv zeta.
    rewrite (IH (idx + 1) (lines ++ _)%list), (IH (idx + 1) ([] ++ _)%list).
    destruct (srt_lines (idx + 1) rest []) as [l | e]; [|reflexivity].
    rewrite !bind_Ok. rewrite <- app_assoc. reflexivity.
Qed.

Lemma append_assoc (a b c : string) : (a ++ b) ++ c = a ++ b ++ c.
Proof.
  induction a as [| x a IH]; [reflexivity|].
  change (String x ((a ++ b) ++ c) = String x (a ++ b ++ c)).
  rewrite IH. reflexivity.
Qed.

Lemma join_app (sep : string) (l1 l2 : list string) :
  l1 <> [] -> l2 <> [] ->
  join sep (l1 ++ l2) = join sep l1 ++ sep ++ join sep l2.
Proof.
  intros H1 H2. induction l1 as [| x [| y l] IH]; [contradiction| |].
  - destruct l2; [contradiction | reflexivity].
  - change (x ++ sep ++ join sep ((y :: l) ++ l2)
            = (x ++ sep ++ join sep (y :: l)) ++ sep ++ join sep l2).
    rewrite IH by discriminate. rewrite !append_assoc. reflexivity.
Qed.

Lemma srt_lines_nonempty (segments : list segment) (idx : Z)
    (lines : list string) :
  segments <> [] -> srt_lines idx segments [] = Ok lines -> lines <> [].
Proof.
  destruct segments as [| seg rest]; [contradiction|]. intros _.
  cbn [srt_lines].
  destruct (format_timestamp (seg_start seg)) as [start | e]; [|discriminate].
  destruct (format_timestamp (seg_end seg)) as [end_ | e]; [|discriminate].
  rewrite !bind_Ok. cbv zeta. rewrite srt_lines_acc.
  destruct (srt_lines (idx + 1) rest []) as [l | e]; [|discriminate].
  rewrite bind_Ok. intros [= <-]. discriminate.
Qed.

(** [segments_to_srt] fails exactly when some time stamp is not a finite
    number, and then with the exception of the first such stamp in the
    order the loop formats them: segment by segment, start before end. No
    part of the document is returned. *)
Theorem segments_to_srt_raises (segments : list segment) :
  Forall (fun seg => Float.valid (seg_start seg) /\ Float.valid (seg_end seg))
    segments ->
  (raises (segments_to_srt segments) <->
   Exists (fun seg => ~ timed seg) segments) /\
  (forall pre seg post e,
     segments = (pre ++ seg :: post)%list -> Forall timed pre ->
     format_timestamp (seg_start seg) = Raise e \/
     (exists start, format_timestamp (seg_start seg) = Ok start) /\
     format_timestamp (seg_end seg) = Raise e ->
     segments_to_srt segments = Raise e).
Proof.
  intros Hvalid. split.
  - rewrite <- (srt_lines_raises segments Hvalid 1 []).
    unfold segments_to_srt.
    destruct (srt_lines 1 segments []); simpl; tauto.
  - intros pre seg post e -> Hpre Hfail.
    unfold segments_to_srt. rewrite srt_lines_app.
    destruct (srt_lines_spec pre Hpre 1 []) as (blocks & Hrun & _).
    rewrite Hrun, bind_Ok. cbn [srt_lines].
    destruct Hfail as [Hs | [[start Hs] He]]; rewrite Hs; [reflexivity|].
    rewrite bind_Ok, He. reflexivity.
Qed.

Lemma segments_to_srt_raises_witness :
  segments_to_srt untimed_segments
  = Raise (ValueError "cannot convert float NaN to integer").
Proof.
  refine (proj2 (segments_to_srt_raises untimed_segments _)
            [Segment f0 f2_5 (Some " Hello there. ")]
            (Segment f2_5 S754_nan (Some " General remarks."))
            [Segment (S754_infinity false) f2_5 None] _ eq_refl _ _).
  - repeat constructor.
  - repeat constructor.
  - right. split; [eexists; vm_compute; reflexivity | reflexivity].
Defined.

(** The document of two lists of segments in a row is the document of the
    first, a newline, and the blocks of the second numbered from where the
    first stops: a block depends on its segment and its position only. *)
Theorem segments_to_srt_app (a b : list segment) (doc : string)
    (lines : list string) :
  a <> [] -> b <> [] ->
  segments_to_srt a = Ok doc ->
  srt_lines (1 + Z.of_nat (length a)) b [] = Ok lines ->
  segments_to_srt (a ++ b) = Ok (doc ++ newline ++ join newline lines).
Proof.
  intros Ha Hb Hdoc Hlines. unfold segments_to_srt in *.
  rewrite srt_lines_app.
  destruct (srt_lines 1 a []) as [la |] eqn:Hla; [|discriminate].
  rewrite bind_Ok in Hdoc. injection Hdoc as <-.
  rewrite bind_Ok, srt_lines_acc, Hlines, !bind_Ok.
  rewrite join_app; [reflexivity| |].
  - exact (srt_lines_nonempty a 1 la Ha Hla).
  - exact (srt_lines_nonempty b _ lines Hb Hlines).
Qed.

Lemma segments_to_srt_app_witness :
  exists doc lines,
    segments_to_srt (firstn 1 demo_segments) = Ok doc /\
    srt_lines 2 (skipn 1 demo_segments) [] = Ok lines /\
    segments_to_srt demo_segments = Ok (doc ++ newline ++ join newline lines).
Proof.
  destruct (segments_to_srt (firstn 1 demo_segments)) as [doc | e] eqn:Hdoc;
    [|vm_compute in Hdoc; discriminate].
  destruct (srt_lines 2 (skipn 1 demo_segments) []) as [lines | e] eqn:Hlines;
    [|vm_compute in Hlines; discriminate].
  exists doc, lines. split; [reflexivity|]. split; [reflexivity|].
  exact (segments_to_srt_app (firstn 1 demo_segments) (skipn 1 demo_segments)
           doc lines ltac:(discriminate) ltac:(discriminate) Hdoc Hlines).
Defined.

(** ** The decoder lookup, call after call *)

Lemma copies_succ_r (n : nat) (s t : string) :
  copies n s ++ s ++ t = copies (S n) s ++ t.
Proof.
  induction n as [| n IH].
  - cbn [copies]. rewrite append_assoc. reflexivity.
  - change (copies (S (S n)) s) with (s ++ copies (S n) s).
    change (copies (S n) s ++ s ++ t) with ((s ++ copies n s) ++ s ++ t).
    rewrite !append_assoc, IH. reflexivity.
Qed.

(** [set_ffmpeg_path] does not look whether the directory is already on
    PATH. While ffmpeg is not found, every call puts the directory and the
    separator in front of PATH once more: after [n] calls PATH starts with
    [n] copies of them, and the other variables are as they were. *)
Theorem set_ffmpeg_path_accumulates (w : world) (n : nat)
    (env : gmap string string) (path : string) :
  (forall env', is_ffmpeg_available w env' = false) ->
  env !! "PATH" = Some path ->
  exists env',
    set_ffmpeg_path_times w n env = Ok env' /\
    env' !! "PATH" = Some (copies n (ffmpeg_dir ++ pathsep w) ++ path) /\
    forall k, k <> "PATH" -> env' !! k = env !! k.
Proof.
  intros Hna. revert env path. induction n as [| n IH]; intros env path Hpath.
  - exists env. repeat split. exact Hpath.
  - cbn [set_ffmpeg_path_times].
    rewrite (set_ffmpeg_path_missing w env path (Hna env) Hpath), bind_Ok.
    destruct (IH (<["PATH" := ffmpeg_dir ++ pathsep w ++ path]> env)
                (ffmpeg_dir ++ pathsep w ++ path))
      as (env' & Hrun & Hp & Hother); [apply lookup_insert_eq|].
    exists env'. split; [exact Hrun|]. split.
    + rewrite Hp. f_equal. rewrite <- (append_assoc ffmpeg_dir).
      apply copies_succ_r.
    + intros k Hk. rewrite Hother by exact Hk.
      apply lookup_insert_ne. congruence.
Qed.

Lemma set_ffmpeg_path_accumulates_witness :
  exists env',
    set_ffmpeg_path_times w_ok 2 demo_environ = Ok env' /\
    env' !! "PATH"
    = Some (copies 2 (ffmpeg_dir ++ pathsep w_ok) ++ "C:\Windows") /\
    forall k, k <> "PATH" -> env' !! k = demo_environ !! k.
Proof.
  exact (set_ffmpeg_path_accumulates w_ok 2 demo_environ "C:\Windows"
           (fun _ => eq_refl) eq_refl).
Defined.

(** The ffmpeg check changes nothing but PATH and the page. It raises only
    the [KeyError] of an unset PATH, and then it has changed nothing at
    all; otherwise it shows exactly one element: the success message, with
    the path that [shutil.which] returns under the environment the check
    leaves, or the warning. *)
Theorem ffmpeg_check_effects (w : world) (σ σ' : state)
    (o : outcome (option string)) :
  ffmpeg_check w σ = (o, σ') ->
  (files σ' = files σ /\ cache σ' = cache σ /\ models σ' = models σ /\
   load_log σ' = load_log σ /\ rng σ' = rng σ) /\
  (forall k, k <> "PATH" -> environ σ' !! k = environ σ !! k) /\
  ((o = Raised (KeyError "PATH") /\ σ' = σ /\
    is_ffmpeg_available w (environ σ) = false /\
    environ σ !! "PATH" = None) \/
   (exists el,
      o = Done (which w (environ σ') "ffmpeg") /\
      page σ' = (page σ ++ [el])%list /\
      match which w (environ σ') "ffmpeg" with
      | Some p =>
          if String.eqb p "" then el = no_ffmpeg_warning
          else el = st_success ("ffmpeg found: " ++ p)
      | None => el = no_ffmpeg_warning
      end)).
Proof. exact (ffmpeg_check_spec w σ σ' o). Qed.

Lemma ffmpeg_check_effects_witness :
  files (snd (ffmpeg_check w_ok (demo_state demo_environ))) = ∅ /\
  page (snd (ffmpeg_check w_ok (demo_state demo_environ)))
  = [no_ffmpeg_warning].
Proof.
  destruct (ffmpeg_check_effects w_ok (demo_state demo_environ)
              (snd (ffmpeg_check w_ok (demo_state demo_environ)))
              (fst (ffmpeg_check w_ok (demo_state demo_environ)))
              (surjective_pairing _))
    as ((Hfiles & _) & _ & _).
  split; [exact Hfiles | reflexivity].
Defined.

(** ** The model cache: failures, other variants *)

(** A failed load is not kept: the cache and the model objects are as
    before, the call of [whisper.load_model] is on the log and its error on
    the page. So the next call with that variant asks the library again,
    and returns a model as soon as the library does. *)
Theorem load_failure_not_cached (w : world) (v : string) (σ σ1 : state)
    (e : exn) :
  load_whisper_model w v σ = (Raised e, σ1) ->
  (cache σ1 = cache σ /\ models σ1 = models σ /\
   load_log σ1 = (load_log σ ++ [v])%list /\
   page σ1 = (page σ ++ [st_error ("Failed to load Whisper model '" ++ v
                                     ++ "': " ++ exn_str e)])%list) /\
  (forall o σ2,
     load_whisper_model w v σ1 = (o, σ2) ->
     load_log σ2 = (load_log σ ++ [v; v])%list) /\
  (load_model_error w (load_log σ ++ [v])%list v = None ->
   exists σ2,
     load_whisper_model w v σ1 = (Done (length (models σ)), σ2) /\
     cache σ2 !! v = Some (length (models σ)) /\
     models σ2 !! length (models σ) = Some v).
Proof.
  rewrite load_whisper_model_eq.
  destruct (cache σ !! v) as [h |] eqn:Hc; [discriminate|].
  destruct (load_model_error w (load_log σ) v) as [e' |] eqn:He; [|discriminate].
  intros [= <- <-]. split; [cbn; repeat split|]. split.
  - intros o σ2. rewrite load_whisper_model_eq.
    cbn [cache load_log add_element log_load]. rewrite Hc.
    destruct (load_model_error w (load_log σ ++ [v]) v);
      intros [= <- <-]; cbn; rewrite <- app_assoc; reflexivity.
  - intros Hok. rewrite load_whisper_model_eq.
    cbn [cache load_log add_element log_load]. rewrite Hc. rewrite Hok. eexists. split; [reflexivity|].
    cbn. split; [apply lookup_insert_eq|].
    rewrite lookup_app_r by lia. rewrite Nat.sub_diag. reflexivity.
Qed.

Lemma load_failure_not_cached_witness :
  exists σ2,
    load_whisper_model w_flaky "base"
      (snd (load_whisper_model w_flaky "base" (demo_state demo_environ)))
    = (Done 0%nat, σ2) /\
    cache σ2 !! "base" = Some 0%nat /\ models σ2 !! 0%nat = Some "base".
Proof.
  exact (proj2 (proj2 (load_failure_not_cached w_flaky "base"
                         (demo_state demo_environ)
                         (snd (load_whisper_model w_flaky "base"
                                 (demo_state demo_environ)))
                         (RuntimeError "download interrupted") eq_refl))
           eq_refl).
Defined.

Lemma load_whisper_model_models (w : world) (v : string) (σ σ1 : state)
    (o : outcome handle) :
  load_whisper_model w v σ = (o, σ1) ->
  (models σ1 = models σ /\ cache σ1 = cache σ) \/
  (cache σ !! v = None /\ o = Done (length (models σ)) /\
   models σ1 = (models σ ++ [v])%list /\
   cache σ1 = <[v := length (models σ)]> (cache σ)).
Proof.
  rewrite load_whisper_model_eq.
  destruct (cache σ !! v) as [h |] eqn:Hc.
  - intros [= <- <-]. left. split; reflexivity.
  - destruct (load_model_error w (load_log σ) v); intros [= <- <-].
    + left. split; reflexivity.
    + right. repeat split.
Qed.

Lemma cache_consistent_bound (σ : state) (v : string) (h : handle) :
  cache_consistent σ -> cache σ !! v = Some h -> (h < length (models σ))%nat.
Proof.
  intros Hc Hv. eapply lookup_lt_Some. apply Hc. exact Hv.
Qed.

Lemma load_consistent_spec (w : world) (v : string) (σ σ1 : state)
    (o : outcome handle) :
  cache_consistent σ ->
  load_whisper_model w v σ = (o, σ1) ->
  cache_consistent σ1 /\
  (forall h, o = Done h -> models σ1 !! h = Some v) /\
  (forall v' h', cache σ !! v' = Some h' ->
     cache σ1 !! v' = Some h' /\ models σ1 !! h' = Some v') /\
  (forall v1 v2 h1 h2,
     cache σ1 !! v1 = Some h1 -> cache σ1 !! v2 = Some h2 -> v1 <> v2 ->
     h1 <> h2).
Proof.
  intros Hcons Hrun.
  assert (Hcons1 : cache_consistent σ1).
  { destruct (load_whisper_model_models w v σ σ1 o Hrun)
      as [[Hm Hc] | (Hmiss & _ & Hm & Hc)]; intros v' h'; rewrite Hm, Hc.
    - apply Hcons.
    - destruct (decide (v = v')) as [<- | Hne].
      + rewrite lookup_insert_eq. intros [= <-].
        rewrite lookup_app_r by lia. rewrite Nat.sub_diag. reflexivity.
      + rewrite lookup_insert_ne by exact Hne. intros Hv'.
        rewrite lookup_app_l by (eapply cache_consistent_bound; eassumption).
        apply Hcons. exact Hv'. }
  split; [exact Hcons1|]. split; [|split].
  - intros h ->. apply Hcons1.
    eapply load_whisper_model_cached_after. exact Hrun.
  - intros v' h' Hv'.
    assert (Hkept : cache σ1 !! v' = Some h').
    { destruct (load_whisper_model_models w v σ σ1 o Hrun)
        as [[_ Hc] | (Hmiss & _ & _ & Hc)]; rewrite Hc; [exact Hv'|].
      rewrite lookup_insert_ne; [exact Hv' | congruence]. }
    split; [exact Hkept | apply Hcons1; exact Hkept].
  - intros v1 v2 h1 h2 H1 H2 Hne ->.
    apply Hcons1 in H1, H2. congruence.
Qed.

(** In a process whose cache names a model object of its variant for every
    entry, [load_whisper_model] keeps it so. The handle it returns is a
    model of the variant asked for; the entries of the other variants and
    their objects stay as they are; and no two variants share an object. *)
Theorem load_whisper_model_consistent (w : world) (v : string) (σ σ1 : state)
    (o : outcome handle) :
  cache_consistent σ ->
  load_whisper_model w v σ = (o, σ1) ->
  cache_consistent σ1 /\
  (forall h, o = Done h -> models σ1 !! h = Some v) /\
  (forall v' h', cache σ !! v' = Some h' ->
     cache σ1 !! v' = Some h' /\ models σ1 !! h' = Some v') /\
  (forall v1 v2 h1 h2,
     cache σ1 !! v1 = Some h1 -> cache σ1 !! v2 = Some h2 -> v1 <> v2 ->
     h1 <> h2).
Proof. exact (load_consistent_spec w v σ σ1 o). Qed.

Lemma load_whisper_model_consistent_witness :
  cache_consistent
    (snd (load_whisper_model w_ok "base" (demo_state demo_environ))) /\
  models (snd (load_whisper_model w_ok "base" (demo_state demo_environ)))
    !! 0%nat = Some "base".
Proof.
  destruct (load_whisper_model_consistent w_ok "base" (demo_state demo_environ)
              (snd (load_whisper_model w_ok "base" (demo_state demo_environ)))
              (Done 0%nat))
    as (Hcons & Hh & _).
  - intros v h Hv. discriminate.
  - reflexivity.
  - split; [exact Hcons | exact (Hh 0%nat eq_refl)].
Defined.
(** ** What a run changes *)

(** What the main flow does to each part of the state, however it ends. *)
Lemma main_flow_effects (w : world) (inp : inputs) (up : upload)
    (σ σ' : state) (o : outcome unit) :
  main_flow w inp up σ = (o, σ') ->
  environ σ' = environ σ /\
  match named_temporary_file w (staging_suffix w up) (files σ) with
  | Raise _ => files σ' = files σ
  | Ok p => forall q, q <> p -> files σ' !! q = files σ !! q
  end /\
  ((cache σ' = cache σ /\ models σ' = models σ /\ load_log σ' = load_log σ) \/
   (cache σ !! model_size inp = None /\ o = Stopped /\
    cache σ' = cache σ /\ models σ' = models σ /\
    load_log σ' = (load_log σ ++ [model_size inp])%list) \/
   (cache σ !! model_size inp = None /\
    cache σ' = <[model_size inp := length (models σ)]> (cache σ) /\
    models σ' = (models σ ++ [model_size inp])%list /\
    load_log σ' = (load_log σ ++ [model_size inp])%list)) /\
  (rng σ' = rng σ \/ transcribe_btn inp = true /\ rng σ' = S (rng σ)) /\
  exists l, page σ' = (page σ ++ l)%list.
Proof.
  unfold main_flow. erewrite bind_Done by apply show_eq.
  set (σ0 := add_element (st_write ("**File:** " ++ name up)) σ).
  destruct (stage w up σ0) as [o1 σ1] eqn:Hstage.
  destruct (stage_effects w up σ0 σ1 o1 Hstage)
    as ((He1 & Hc1 & Hm1 & Hl1 & Hr1) & [l1 Hp1] & Hfiles1).
  change (files σ0) with (files σ) in Hfiles1.
  change (environ σ0) with (environ σ) in He1.
  change (cache σ0) with (cache σ) in Hc1.
  change (models σ0) with (models σ) in Hm1.
  change (load_log σ0) with (load_log σ) in Hl1.
  change (rng σ0) with (rng σ) in Hr1.
  change (page σ0) with (page σ ++ [st_write ("**File:** " ++ name up)])%list
    in Hp1.
  assert (Hpage1 : exists l, page σ1 = (page σ ++ l)%list).
  { eexists. rewrite Hp1, <- app_assoc. reflexivity. }
  clear Hp1 l1.
  destruct (named_temporary_file w (staging_suffix w up) (files σ)) as [p | e0].
  2:{ destruct Hfiles1 as [Hs1 ->].
      assert (Hf1 : files σ1 = files σ) by (rewrite Hs1; reflexivity).
      erewrite bind_Raised by exact Hstage. intros [= <- <-].
      split; [exact He1|]. split; [exact Hf1|]. split; [left; auto|].
      split; [left; exact Hr1 | exact Hpage1]. }
  destruct Hfiles1 as [Hf1 [[-> Hfp] | (e & -> & _ & _)]].
  2:{ erewrite bind_Raised by exact Hstage. intros [= <- <-].
      split; [exact He1|]. split; [exact Hf1|]. split; [left; auto|].
      split; [left; exact Hr1 | exact Hpage1]. }
  erewrite bind_Done by exact Hstage. erewrite bind_Done by apply show_eq.
  set (σ2 := add_element
               (st_info "File saved to temporary path. Loading model...") σ1).
  destruct (load_whisper_model w (model_size inp) σ2) as [o3 σ3] eqn:Hload.
  destruct (load_effects w (model_size inp) σ2 σ3 o3 Hload)
    as ((He3 & Hf3 & Hr3) & [l3 Hp3] & Hcases).
  change (environ σ2) with (environ σ1) in He3.
  change (files σ2) with (files σ1) in Hf3.
  change (rng σ2) with (rng σ1) in Hr3.
  change (cache σ2) with (cache σ1) in Hcases.
  change (models σ2) with (models σ1) in Hcases.
  change (load_log σ2) with (load_log σ1) in Hcases.
  assert (Hpage3 : exists l, page σ3 = (page σ ++ l)%list).
  { destruct Hpage1 as [l1 Hp1]. eexists. rewrite Hp3. cbn [page σ2 add_element].
    rewrite Hp1, <- !app_assoc. reflexivity. }
  clear Hp3 l3.
  assert (Hloads :
    (cache σ3 = cache σ /\ models σ3 = models σ /\ load_log σ3 = load_log σ /\
     exists h, o3 = Done h) \/
    (cache σ !! model_size inp = None /\ (exists e, o3 = Raised e) /\
     cache σ3 = cache σ /\ models σ3 = models σ /\
     load_log σ3 = (load_log σ ++ [model_size inp])%list) \/
    (cache σ !! model_size inp = None /\ (exists h, o3 = Done h) /\
     cache σ3 = <[model_size inp := length (models σ)]> (cache σ) /\
     models σ3 = (models σ ++ [model_size inp])%list /\
     load_log σ3 = (load_log σ ++ [model_size inp])%list)).
  { rewrite Hc1, Hm1, Hl1 in Hcases.
    destruct Hcases as [(h & -> & Hhit & ->)
                       | [(e & -> & Hmiss & _ & Hc & Hm & Hl)
                         | (-> & Hmiss & _ & Hc & Hm & Hl & _)]].
    - left. cbn. repeat split; eauto.
    - right. left. repeat split; eauto.
    - right. right. repeat split; eauto. }
  clear Hcases.
  destruct o3 as [h | e |].
  - (* the model is there *)
    assert (Htry : try_except (load_whisper_model w (model_size inp))
                     (fun _ => cleanup w p;; st_stop) σ2 = (Done h, σ3))
      by (apply load_success_spec; exact Hload).
    erewrite bind_Done by exact Htry.
    assert (Hloads' :
      (cache σ3 = cache σ /\ models σ3 = models σ /\ load_log σ3 = load_log σ) \/
      (cache σ !! model_size inp = None /\
       cache σ3 = <[model_size inp := length (models σ)]> (cache σ) /\
       models σ3 = (models σ ++ [model_size inp])%list /\
       load_log σ3 = (load_log σ ++ [model_size inp])%list)).
    { destruct Hloads as [(? & ? & ? & _) | [(_ & [e He] & _) | (? & _ & ? & ? & ?)]];
        [left; auto | discriminate | right; auto]. }
    clear Hloads.
    destruct (transcribe_btn inp).
    + destruct (respond w inp up h p σ3) as [o4 σ4] eqn:Hresp.
      destruct (respond_effects w inp up h p σ3 σ4 o4 Hresp)
        as (Hns & (He4 & Hf4 & Hc4 & Hm4 & Hl4) & Hr4 & [l4 Hp4]).
      assert (Hpage4 : exists l, page σ4 = (page σ ++ l)%list).
      { destruct Hpage3 as [l3 Hp3]. eexists. rewrite Hp4, Hp3, <- app_assoc.
        reflexivity. }
      assert (Hfiles4 : forall q, q <> p -> files σ4 !! q = files σ !! q).
      { intros q Hq. rewrite Hf4, Hf3. apply Hf1. exact Hq. }
      assert (Hloads4 :
        (cache σ4 = cache σ /\ models σ4 = models σ /\ load_log σ4 = load_log σ) \/
        (cache σ !! model_size inp = None /\
         cache σ4 = <[model_size inp := length (models σ)]> (cache σ) /\
         models σ4 = (models σ ++ [model_size inp])%list /\
         load_log σ4 = (load_log σ ++ [model_size inp])%list)).
      { rewrite Hc4, Hm4, Hl4. exact Hloads'. }
      destruct o4 as [[] | e |]; [| |contradiction].
      * erewrite bind_Done by exact Hresp. intros Hrm.
        destruct (cleanup_effects w p σ4 σ' o Hrm)
          as (_ & (He5 & Hc5 & Hm5 & Hl5 & Hr5 & Hp5) & Hf5 & _).
        split; [congruence|]. split.
        { intros q Hq. rewrite Hf5 by exact Hq. apply Hfiles4. exact Hq. }
        split.
        { rewrite Hc5, Hm5, Hl5.
          destruct Hloads4 as [? | ?]; [left; assumption | right; right; assumption]. }
        split; [right; split; [reflexivity | congruence]|].
        rewrite Hp5. exact Hpage4.
      * erewrite bind_Raised by exact Hresp. intros [= <- <-].
        split; [congruence|]. split; [exact Hfiles4|]. split.
        { destruct Hloads4 as [? | ?]; [left; assumption | right; right; assumption]. }
        split; [right; split; [reflexivity | congruence]|]. exact Hpage4.
    + intros [= <- <-]. split; [congruence|]. split.
      { intros q Hq. rewrite Hf3. apply Hf1. exact Hq. }
      split.
      { destruct Hloads' as [? | ?]; [left; assumption | right; right; assumption]. }
      split; [left; congruence | exact Hpage3].
  - (* the model does not load *)
    destruct (load_failure_spec w (model_size inp) p σ2 σ3 e Hload)
      as (σ4 & Hstop & _).
    erewrite bind_Stopped by exact Hstop. intros [= <- <-].
    unfold try_except in Hstop. rewrite Hload in Hstop.
    destruct (cleanup w p σ3) as [o5 σ5] eqn:Hrm.
    destruct (cleanup_effects w p σ3 σ5 o5 Hrm)
      as (-> & (He5 & Hc5 & Hm5 & Hl5 & Hr5 & Hp5) & Hf5 & _).
    erewrite bind_Done in Hstop by exact Hrm.
    injection Hstop as <-.
    split; [congruence|]. split.
    { intros q Hq. rewrite Hf5 by exact Hq. rewrite Hf3. apply Hf1. exact Hq. }
    split.
    { rewrite Hc5, Hm5, Hl5.
      destruct Hloads as [(_ & _ & _ & [h Hh]) | [(? & _ & ? & ? & ?) | (_ & [h Hh] & _)]];
        [discriminate | right; left; repeat split; assumption | discriminate]. }
    split; [left; congruence|]. rewrite Hp5. exact Hpage3.
  - (* the cached function does not stop *)
    exfalso. destruct Hloads as [(_ & _ & _ & [h Hh]) | [(_ & [e He] & _) | (_ & [h Hh] & _)]];
      discriminate.
Qed.

(** What a run of the script does to each part of the state. *)
Lemma script_effects (w : world) (inp : inputs) (σ σ' : state)
    (o : outcome unit) :
  script w inp σ = (o, σ') ->
  (forall k, k <> "PATH" -> environ σ' !! k = environ σ !! k) /\
  match uploaded inp with
  | None =>
      files σ' = files σ /\ cache σ' = cache σ /\ models σ' = models σ /\
      load_log σ' = load_log σ /\ rng σ' = rng σ /\ o <> Stopped
  | Some up =>
      match named_temporary_file w (staging_suffix w up) (files σ) with
      | Raise _ => files σ' = files σ
      | Ok p => forall q, q <> p -> files σ' !! q = files σ !! q
      end /\
      ((cache σ' = cache σ /\ models σ' = models σ /\
        load_log σ' = load_log σ) \/
       (cache σ !! model_size inp = None /\ o = Stopped /\
        cache σ' = cache σ /\ models σ' = models σ /\
        load_log σ' = (load_log σ ++ [model_size inp])%list) \/
       (cache σ !! model_size inp = None /\
        cache σ' = <[model_size inp := length (models σ)]> (cache σ) /\
        models σ' = (models σ ++ [model_size inp])%list /\
        load_log σ' = (load_log σ ++ [model_size inp])%list)) /\
      (rng σ' = rng σ \/ transcribe_btn inp = true /\ rng σ' = S (rng σ))
  end.
Proof.
  unfold script.
  destruct (ffmpeg_check w σ) as [oc σc] eqn:Hcheck.
  destruct (ffmpeg_check_spec w σ σc oc Hcheck)
    as ((Hf & Hc & Hm & Hl & Hr) & Henv & Hout).
  destruct Hout as [(-> & -> & _) | (el & -> & _)].
  - erewrite bind_Raised by exact Hcheck. intros [= <- <-].
    split; [reflexivity|].
    destruct (uploaded inp) as [up |].
    + split; [destruct (named_temporary_file w _ (files σ)); reflexivity|].
      split; [left; auto | left; reflexivity].
    + repeat split. discriminate.
  - erewrite bind_Done by exact Hcheck.
    destruct (uploaded inp) as [up |].
    + intros Hrun.
      destruct (main_flow_effects w inp up σc σ' o Hrun)
        as (He' & Hf' & Hloads & Hrng & _).
      rewrite Hf, Hc, Hm, Hl, Hr in *.
      split; [intros k Hk; rewrite He'; apply Henv; exact Hk|].
      split; [exact Hf'|]. split; [exact Hloads | exact Hrng].
    + intros [= <- <-]. cbn.
      split; [exact Henv|]. repeat split; try assumption. discriminate.
Qed.


(** In one run the script calls [whisper.load_model] at most once, and only
    for a variant that has no entry in the cache; it calls
    [model.transcribe] at most once, and only when a file is uploaded and
    the button is pressed. *)
Theorem script_calls_at_most_once (w : world) (inp : inputs) (σ σ' : state)
    (o : outcome unit) :
  script w inp σ = (o, σ') ->
  (load_log σ' = load_log σ \/
   is_Some (uploaded inp) /\ cache σ !! model_size inp = None /\
   load_log σ' = (load_log σ ++ [model_size inp])%list) /\
  (rng σ' = rng σ \/
   is_Some (uploaded inp) /\ transcribe_btn inp = true /\
   rng σ' = S (rng σ)).
Proof.
  intros Hrun. destruct (script_effects w inp σ σ' o Hrun) as [_ Hrest].
  destruct (uploaded inp) as [up |].
  - destruct Hrest as (_ & Hloads & Hrng). split.
    + destruct Hloads as [(_ & _ & ?) | [(? & _ & _ & _ & ?) | (? & _ & _ & ?)]];
        [left; assumption | right; eauto | right; eauto].
    + destruct Hrng as [? | [? ?]]; [left; assumption | right; eauto].
  - destruct Hrest as (_ & _ & _ & Hl & Hr & _). split; left; assumption.
Qed.

(** The script keeps the cache sound as a registry: if every entry names a
    model object of its variant before a run, so it does after, however
    the run ends; and an entry, once there, is never dropped or replaced. *)
Theorem script_keeps_cache_consistent (w : world) (inp : inputs)
    (σ σ' : state) (o : outcome unit) :
  cache_consistent σ ->
  script w inp σ = (o, σ') ->
  cache_consistent σ' /\
  forall v h, cache σ !! v = Some h ->
    cache σ' !! v = Some h /\ models σ' !! h = Some v.
Proof.
  intros Hcons Hrun.
  destruct (script_effects w inp σ σ' o Hrun) as [_ Hrest].
  assert (Hloads :
    (cache σ' = cache σ /\ models σ' = models σ) \/
    (exists v, cache σ !! v = None /\
       cache σ' = <[v := length (models σ)]> (cache σ) /\
       models σ' = (models σ ++ [v])%list)).
  { destruct (uploaded inp) as [up |].
    - destruct Hrest as (_ & [(? & ? & _) | [(_ & _ & ? & ? & _) | (? & ? & ? & _)]] & _);
        [left; auto | left; auto | right; eauto].
    - destruct Hrest as (_ & ? & ? & _). left. auto. }
  unfold cache_consistent.
  destruct Hloads as [[Hc Hm] | (v0 & Hmiss & Hc & Hm)]; rewrite Hc, Hm.
  - split; [exact Hcons|]. intros v h Hv. split; [exact Hv | apply Hcons, Hv].
  - assert (Hkeep : forall v h, cache σ !! v = Some h ->
                <[v0 := length (models σ)]> (cache σ) !! v = Some h /\
                (models σ ++ [v0])%list !! h = Some v).
    { intros v h Hv. split.
      - rewrite lookup_insert_ne; [exact Hv | congruence].
      - rewrite lookup_app_l by (eapply cache_consistent_bound; eassumption).
        apply Hcons, Hv. }
    split; [|exact Hkeep].
    intros v h. destruct (decide (v0 = v)) as [<- | Hne].
    + rewrite lookup_insert_eq. intros [= <-].
      rewrite lookup_app_r by lia. rewrite Nat.sub_diag. reflexivity.
    + rewrite lookup_insert_ne by exact Hne. intros Hv.
      apply (Hkeep v h Hv).
Qed.


Lemma script_calls_at_most_once_witness :
  load_log (snd (script w_ok (demo_inputs true) (demo_state demo_environ)))
  = ["base"] /\
  rng (snd (script w_ok (demo_inputs true) (demo_state demo_environ))) = 1%nat.
Proof.
  pose proof (script_calls_at_most_once w_ok (demo_inputs true)
                (demo_state demo_environ)
                (snd (script w_ok (demo_inputs true) (demo_state demo_environ)))
                (fst (script w_ok (demo_inputs true) (demo_state demo_environ)))
                (surjective_pairing _)) as [Hl Hr].
  split; [destruct Hl as [Hl | (_ & _ & Hl)] | destruct Hr as [Hr | (_ & _ & Hr)]];
    try exact Hl; try exact Hr; vm_compute in Hl, Hr; first [discriminate | lia].
Defined.

Lemma script_keeps_cache_consistent_witness :
  cache_consistent
    (snd (script w_ok (demo_inputs true) (demo_state demo_environ))).
Proof.
  refine (proj1 (script_keeps_cache_consistent w_ok (demo_inputs true)
                   (demo_state demo_environ)
                   (snd (script w_ok (demo_inputs true) (demo_state demo_environ)))
                   (fst (script w_ok (demo_inputs true) (demo_state demo_environ)))
                   _ (surjective_pairing _))).
  intros v h Hv. discriminate.
Defined.

(** ** Runs of the script, case by case *)

(** Without an upload the script loads no model, transcribes nothing and
    touches no file. It ends normally with the invitation to upload on the
    page, unless the ffmpeg check raised its [KeyError], in which case the
    state is the one the run started from. *)
Theorem script_without_upload (w : world) (inp : inputs) (σ σ' : state)
    (o : outcome unit) :
  uploaded inp = None ->
  script w inp σ = (o, σ') ->
  (files σ' = files σ /\ cache σ' = cache σ /\ models σ' = models σ /\
   load_log σ' = load_log σ /\ rng σ' = rng σ) /\
  ((o = Done tt /\
    st_info "Upload a file to begin transcription. For long files prefer 'small' or 'medium' model and GPU."
      ∈ page σ') \/
   (o = Raised (KeyError "PATH") /\ σ' = σ /\ environ σ !! "PATH" = None)).
Proof.
  intros Hup. unfold script. rewrite Hup.
  destruct (ffmpeg_check w σ) as [oc σc] eqn:Hcheck.
  destruct (ffmpeg_check_spec w σ σc oc Hcheck)
    as ((Hf & Hc & Hm & Hl & Hr) & _ & Hout).
  destruct Hout as [(-> & -> & _ & Hpath) | (el & -> & _)].
  - erewrite bind_Raised by exact Hcheck. intros [= <- <-].
    split; [repeat split|]. right. auto.
  - erewrite bind_Done by exact Hcheck. intros [= <- <-]. cbn.
    split; [repeat split; assumption|]. left. split; [reflexivity|].
    apply elem_of_app. right. apply list_elem_of_singleton. reflexivity.
Qed.

Lemma script_without_upload_witness :
  fst (script w_ok (Inputs "base" true true true None false)
         (demo_state demo_environ)) = Done tt.
Proof.
  destruct (script_without_upload w_ok (Inputs "base" true true true None false)
              (demo_state demo_environ)
              (snd (script w_ok (Inputs "base" true true true None false)
                      (demo_state demo_environ)))
              (fst (script w_ok (Inputs "base" true true true None false)
                      (demo_state demo_environ)))
              eq_refl (surjective_pairing _))
    as [_ [[Hdone _] | [Hraised _]]].
  - exact Hdone.
  - vm_compute in Hraised. discriminate.
Defined.

(** When writing the upload fails, the exception ends the run with the
    temporary file that [NamedTemporaryFile] created still in the file
    store: nothing removes it. The model is not loaded and the engine is
    not called; the page shows the file name and the error. *)
Theorem staging_failure_leaves_file (w : world) (inp : inputs) (up : upload)
    (σ : state) (p : string) (e : exn) :
  named_temporary_file w (staging_suffix w up) (files σ) = Ok p ->
  write_error w p (buffer up) = Some e ->
  exists σ',
    main_flow w inp up σ = (Raised e, σ') /\
    is_Some (files σ' !! p) /\
    (cache σ' = cache σ /\ models σ' = models σ /\
     load_log σ' = load_log σ /\ rng σ' = rng σ) /\
    page σ' =
      (page σ ++ [st_write ("**File:** " ++ name up);
                  st_error ("Failed to save uploaded file to disk: "
                              ++ exn_str e)])%list.
Proof.
  intros Htmp Hwrite. eexists. split.
  - apply main_flow_staging_failed. rewrite stage_eq.
    cbn [files add_element]. rewrite Htmp, Hwrite. reflexivity.
  - cbn. split; [rewrite lookup_insert_eq; eauto|].
    split; [repeat split|]. rewrite <- app_assoc. reflexivity.
Qed.

Lemma staging_failure_leaves_file_witness :
  exists σ',
    main_flow w_disk_full (demo_inputs true) demo_upload
      (demo_state demo_environ) = (Raised (OSError "disk full"), σ') /\
    is_Some (files σ' !! "C:\Temp\tmp0.wav").
Proof.
  destruct (staging_failure_leaves_file w_disk_full (demo_inputs true)
              demo_upload (demo_state demo_environ) "C:\Temp\tmp0.wav"
              (OSError "disk full") eq_refl eq_refl)
    as (σ' & Hrun & Hfile & _).
  exists σ'. split; [exact Hrun | exact Hfile].
Defined.

Lemma load_done_page (w : world) (v : string) (σ σ1 : state) (h : handle) :
  load_whisper_model w v σ = (Done h, σ1) -> page σ1 = page σ.
Proof.
  rewrite load_whisper_model_eq.
  destruct (cache σ !! v); [intros [= <- <-]; reflexivity|].
  destruct (load_model_error w (load_log σ) v); [discriminate|].
  intros [= <- <-]. reflexivity.
Qed.

(** What the engine is given. A run depends on the engine through one
    answer only: the one for the selected variant, the bytes of the upload,
    language ["en"], temperature 0 and the state the generator has when the
    run starts. Whatever the engine answers elsewhere, the run is the
    same. *)
Theorem engine_sees_upload (w : world)
    (eng : string -> bytes -> transcribe_options -> nat -> result transcript)
    (inp : inputs) (up : upload) (σ : state) :
  cache_consistent σ ->
  eng (model_size inp) (buffer up) en_options (rng σ)
  = engine w (model_size inp) (buffer up) en_options (rng σ) ->
  main_flow (with_engine eng w) inp up σ = main_flow w inp up σ.
Proof.
  intros Hcons Heng.
  destruct (stage w up (add_element (st_write ("**File:** " ++ name up)) σ))
    as [[p | e |] σ1] eqn:Hstage.
  - rewrite (main_flow_staged (with_engine eng w) inp up σ σ1 p Hstage).
    rewrite (main_flow_staged w inp up σ σ1 p Hstage).
    destruct (stage_done w up _ σ1 p Hstage)
      as (Hfile & _ & Hc1 & _ & Hm1 & Hr1 & _).
    set (σ2 := add_element
                 (st_info "File saved to temporary path. Loading model...") σ1).
    change (load_whisper_model (with_engine eng w))
      with (load_whisper_model w).
    change (cleanup (with_engine eng w)) with (cleanup w).
    destruct (load_whisper_model w (model_size inp) σ2) as [o3 σ3] eqn:Hload.
    destruct o3 as [h | e |].
    + pose proof (load_success_spec w (model_size inp) p σ2 σ3 h Hload) as Htry.
      erewrite !bind_Done by exact Htry.
      destruct (transcribe_btn inp); [|reflexivity].
      assert (Hcons2 : cache_consistent σ2).
      { intros v' h'. change (cache σ2) with (cache σ1).
        change (models σ2) with (models σ1). rewrite Hc1, Hm1. apply Hcons. }
      destruct (load_consistent_spec w (model_size inp) σ2 σ3 (Done h)
                  Hcons2 Hload) as (_ & Hmodel & _).
      specialize (Hmodel h eq_refl).
      destruct (load_effects w (model_size inp) σ2 σ3 (Done h) Hload)
        as ((_ & Hf3 & Hr3) & _).
      assert (Hinv : invoke (with_engine eng w) h p σ3 = invoke w h p σ3).
      { rewrite !invoke_eq, !model_transcribe_eq, Hmodel, Hf3.
        change (files σ2) with (files σ1). rewrite Hfile.
        change (engine (with_engine eng w)) with eng.
        rewrite Hr3. change (rng σ2) with (rng σ1). rewrite Hr1.
        cbn [rng add_element]. rewrite Heng.
        reflexivity. }
      assert (Hresp : respond (with_engine eng w) inp up h p σ3
                      = respond w inp up h p σ3).
      { unfold respond, mbind, M_bind. rewrite Hinv.
        destruct (invoke w h p σ3) as [[r | e |] σ4]; reflexivity. }
      unfold mbind, M_bind. rewrite Hresp. reflexivity.
    + destruct (load_failure_spec w (model_size inp) p σ2 σ3 e Hload)
        as (σ4 & Hstop & _).
      erewrite !bind_Stopped by exact Hstop. reflexivity.
    + exfalso.
      destruct (load_spec w (model_size inp) σ2)
        as [(h & σ' & H & _) | (e & σ' & H & _)]; congruence.
  - rewrite (main_flow_staging_failed (with_engine eng w) inp up σ σ1 e Hstage).
    rewrite (main_flow_staging_failed w inp up σ σ1 e Hstage). reflexivity.
  - exfalso. exact (stage_never_stops w up _ σ1 Hstage).
Qed.

Lemma engine_sees_upload_witness :
  main_flow (with_engine base_only_engine w_ok)
    (demo_inputs true) demo_upload (demo_state demo_environ)
  = main_flow w_ok (demo_inputs true) demo_upload (demo_state demo_environ).
Proof.
  refine (engine_sees_upload w_ok base_only_engine (demo_inputs true)
            demo_upload (demo_state demo_environ) _ eq_refl).
  intros v h Hv. discriminate.
Defined.
(** A failed transcription shows two elements and no more: the error, as a
    run-time error or as another error, and the warning. The page of the
    run is the file name, the notice, and those two; no success message, no
    transcript and no download. The run ends normally and the staged file
    is removed unless [os.remove] fails. *)
Theorem transcription_failure_page (w : world) (inp : inputs) (up : upload)
    (σ σ1 σ3 σ4 : state) (p : string) (h : handle) (e : exn) :
  stage w up (add_element (st_write ("**File:** " ++ name up)) σ) = (Done p, σ1) ->
  load_whisper_model w (model_size inp)
    (add_element (st_info "File saved to temporary path. Loading model...") σ1)
  = (Done h, σ3) ->
  transcribe_btn inp = true ->
  model_transcribe w h p en_options σ3 = (Raised e, σ4) ->
  exists σ',
    main_flow w inp up σ = (Done tt, σ') /\
    page σ' =
      (page σ ++ [st_write ("**File:** " ++ name up);
                  st_info "File saved to temporary path. Loading model...";
                  st_error ((match e with
                             | RuntimeError _ => "Runtime error during transcription: "
                             | _ => "An error occurred during transcription: "
                             end) ++ exn_str e);
                  transcription_failed_warning])%list /\
    (remove_error w p = None -> files σ' !! p = None).
Proof.
  intros Hstage Hload Hbtn Hmt.
  rewrite (main_flow_staged w inp up σ σ1 p Hstage).
  erewrite bind_Done by (apply load_success_spec; exact Hload).
  rewrite Hbtn.
  assert (Hresp : respond w inp up h p σ3
                  = (Done tt,
                     add_element transcription_failed_warning
                       (add_element (transcription_error e) σ4))).
  { assert (Hinv : invoke w h p σ3
                   = (Done None, add_element (transcription_error e) σ4))
      by (rewrite invoke_eq, Hmt; reflexivity).
    unfold respond. erewrite bind_Done by exact Hinv. reflexivity. }
  erewrite bind_Done by exact Hresp.
  destruct (cleanup_spec w p
              (add_element transcription_failed_warning
                 (add_element (transcription_error e) σ4)))
    as (σ' & Hrm & Hpage & Hgone).
  exists σ'. split; [exact Hrm|]. split; [|exact Hgone].
  rewrite Hpage. cbn [page add_element].
  assert (Hp4 : page σ4 = page σ3).
  { rewrite model_transcribe_eq in Hmt.
    destruct (models σ3 !! h); [destruct (files σ3 !! p);
      [destruct (engine w _ _ en_options (rng σ3))|]|];
      inversion Hmt; reflexivity. }
  rewrite Hp4, (load_done_page w _ _ σ3 h Hload). cbn [page add_element].
  destruct (stage_done w up _ σ1 p Hstage) as (_ & Hp1 & _).
  rewrite Hp1. cbn [page add_element]. rewrite <- !app_assoc.
  destruct e; reflexivity.
Qed.

Lemma transcription_failure_page_witness :
  exists σ',
    main_flow w_engine_fails (demo_inputs true) demo_upload
      (demo_state demo_environ) = (Done tt, σ') /\
    page σ' =
      [st_write "**File:** talk.wav";
       st_info "File saved to temporary path. Loading model...";
       st_error "Runtime error during transcription: ffmpeg was not found";
       transcription_failed_warning] /\
    (remove_error w_engine_fails "C:\Temp\tmp0.wav" = None ->
     files σ' !! "C:\Temp\tmp0.wav" = None).
Proof.
  refine (transcription_failure_page w_engine_fails (demo_inputs true)
            demo_upload (demo_state demo_environ)
            (snd (stage w_engine_fails demo_upload
                    (add_element (st_write ("**File:** " ++ name demo_upload))
                       (demo_state demo_environ))))
            (snd (load_whisper_model w_engine_fails "base"
                    (add_element
                       (st_info "File saved to temporary path. Loading model...")
                       (snd (stage w_engine_fails demo_upload
                               (add_element
                                  (st_write ("**File:** " ++ name demo_upload))
                                  (demo_state demo_environ)))))))
            (with_rng 1
               (snd (load_whisper_model w_engine_fails "base"
                       (add_element
                          (st_info "File saved to temporary path. Loading model...")
                          (snd (stage w_engine_fails demo_upload
                                  (add_element
                                     (st_write ("**File:** " ++ name demo_upload))
                                     (demo_state demo_environ))))))))
            "C:\Temp\tmp0.wav" 0%nat (RuntimeError "ffmpeg was not found")
            _ _ eq_refl _).
  - vm_compute. reflexivity.
  - vm_compute. reflexivity.
  - vm_compute. reflexivity.
Defined.

(** ** Showing a result *)

(** When the result has no segments (the key is missing or the list is
    empty) the page gets the success message, the header and the
    transcript, and the TXT download if it is enabled; no segment header
    and no SRT download, whatever the options say. *)
Theorem render_without_segments (w : world) (inp : inputs) (up : upload)
    (t : transcript) (σ : state) :
  default [] (result_segments t) = [] ->
  exists σ',
    render w inp up t σ = (Done tt, σ') /\ same_store σ σ' /\
    page σ' =
      (page σ ++
       [st_success "Transcription finished.";
        st_subheader "Full Transcript (English)";
        st_text_area "Transcript" (strip (default "" (result_text t)))] ++
       (if enable_txt_download inp
        then [st_download_button "Download TXT"
                (strip (default "" (result_text t)))
                (path_stem w (name up) ++ ".txt") "text/plain"]
        else []))%list.
Proof.
  intros Hnone. unfold render. cbv zeta. rewrite Hnone.
  erewrite bind_Done by apply show_eq.
  erewrite bind_Done by apply show_eq.
  erewrite bind_Done by apply show_eq.
  rewrite !andb_false_r.
  erewrite bind_Done by reflexivity.
  destruct (enable_txt_download inp); eexists;
    (split; [reflexivity|]); (split; [repeat split|]);
    cbn [page add_element]; rewrite <- ?app_assoc; reflexivity.
Qed.

Lemma render_without_segments_witness :
  exists σ',
    render w_ok (demo_inputs true) demo_upload (Transcript (Some " Hi. ") None)
      (demo_state demo_environ) = (Done tt, σ') /\
    page σ' =
      [st_success "Transcription finished.";
       st_subheader "Full Transcript (English)";
       st_text_area "Transcript" "Hi.";
       st_download_button "Download TXT" "Hi." "talk.txt" "text/plain"].
Proof.
  destruct (render_without_segments w_ok (demo_inputs true) demo_upload
              (Transcript (Some " Hi. ") None) (demo_state demo_environ)
              eq_refl) as (σ' & Hrun & _ & Hpage).
  exists σ'. split; [exact Hrun | exact Hpage].
Defined.

(** With the SRT download enabled and a result that has segments, the last
    element of the page is the download of the document that
    [segments_to_srt] builds from those segments, named after the upload;
    when the document cannot be built, it is the error message, and the
    run goes on. This holds when the segment list is off or every segment
    can be shown. *)
Theorem srt_download_offered (w : world) (inp : inputs) (up : upload)
    (t : transcript) (segments : list segment) (σ : state) :
  result_segments t = Some segments -> segments <> [] ->
  enable_srt_download inp = true ->
  show_segments inp = false \/ Forall displayable segments ->
  exists σ',
    render w inp up t σ = (Done tt, σ') /\
    last (page σ') =
      Some (match segments_to_srt segments with
            | Ok doc =>
                st_download_button "Download SRT" doc
                  (path_stem w (name up) ++ ".srt") "text/plain"
            | Raise e =>
                st_error ("Failed to create SRT download: " ++ exn_str e)
            end).
Proof.
  intros Hsegs Hne Hsrt Hshown. unfold render. cbv zeta.
  rewrite Hsegs. change (default [] (Some segments)) with segments.
  erewrite bind_Done by apply show_eq.
  erewrite bind_Done by apply show_eq.
  erewrite bind_Done by apply show_eq.
  set (σ3 := add_element _ (add_element _ (add_element _ σ))).
  assert (H4 : exists σ4,
             (if show_segments inp && nonempty segments
              then show (st_subheader "Segments");; show_segment_lines segments
              else mret tt) σ3 = (Done tt, σ4)).
  { destruct (show_segments inp) eqn:Hshow; [|eexists; reflexivity].
    destruct Hshown as [? | Hdisp]; [discriminate|].
    destruct (nonempty segments); [|eexists; reflexivity]. cbn [andb].
    destruct (show_segment_lines_ok segments Hdisp
                (add_element (st_subheader "Segments") σ3)) as (σ4 & Hrun & _).
    exists σ4. exact Hrun. }
  destruct H4 as [σ4 H4]. erewrite bind_Done by exact H4.
  destruct (txt_download_done w inp up
              (strip (default "" (result_text t))) σ4) as [σ5 H5].
  erewrite bind_Done by exact H5.
  rewrite Hsrt.
  assert (Hn : nonempty segments = true)
    by (destruct segments; [exfalso; apply Hne; reflexivity | reflexivity]).
  rewrite Hn. cbn [andb].
  unfold try_except, lift. unfold mbind, M_bind.
  destruct (segments_to_srt segments); eexists;
    (split; [reflexivity | apply last_snoc]).
Qed.

Lemma srt_download_offered_witness :
  exists σ' doc,
    render w_ok (demo_inputs true) demo_upload demo_transcript
      (demo_state demo_environ) = (Done tt, σ') /\
    segments_to_srt demo_segments = Ok doc /\
    last (page σ') =
      Some (st_download_button "Download SRT" doc "talk.srt" "text/plain").
Proof.
  destruct (srt_download_offered w_ok (demo_inputs true) demo_upload
              demo_transcript demo_segments (demo_state demo_environ)
              eq_refl ltac:(discriminate) eq_refl
              (or_intror (w_ok_displayable "base" [] en_options 0%nat
                            demo_transcript demo_segments eq_refl eq_refl)))
    as (σ' & Hrun & Hlast).
  destruct (segments_to_srt demo_segments) as [doc | e] eqn:Hdoc;
    [|vm_compute in Hdoc; discriminate].
  exists σ', doc. split; [exact Hrun|]. split; [reflexivity | exact Hlast].
Defined.

(** ** The timestamp codec on what is not a number *)

(** [format_timestamp] raises exactly on the floats that are not finite:
    [ValueError] on NaN and [OverflowError] on the two infinities, both from
    [int(seconds)]. *)
Theorem format_timestamp_not_finite (x : Float.float) :
  Float.valid x ->
  (raises (format_timestamp x) <-> ~ Float.finite x) /\
  (x = S754_nan ->
   format_timestamp x
   = Raise (ValueError "cannot convert float NaN to integer")) /\
  (forall s, x = S754_infinity s ->
   format_timestamp x
   = Raise (OverflowError "cannot convert float infinity to integer")).
Proof.
  intros Hv. split; [apply format_timestamp_raises; exact Hv|].
  split; [intros -> | intros s ->]; reflexivity.
Qed.

Lemma format_timestamp_not_finite_witness :
  format_timestamp (S754_infinity true)
  = Raise (OverflowError "cannot convert float infinity to integer").
Proof.
  exact (proj2 (proj2 (format_timestamp_not_finite (S754_infinity true)
                         eq_refl)) true eq_refl).
Defined.
